(** * The text editor component: tiles, measurements, cursors, update cycle

    A shallow embedding of [src/text-editor-component.js] and the properties
    of its viewport/tile planner, line renderer, horizontal measurement
    cache, cursor geometry and update scheduler.

    Conventions of the embedding.
    - Row and column numbers, tag codes and screen line ids are integers
      ([Z]).  JavaScript's [%] takes the sign of the dividend and is
      [Z.rem]; [Math.floor (a / b)] on integers is [Z.div].
    - Pixel quantities (scroll offsets, line height, measured positions)
      are exact rationals ([Q]); [Math.floor] and [Math.ceil] are [Qfloor]
      and [Qceiling].  Rounding errors of IEEE doubles are not modelled.
    - A JavaScript [Map] keyed by column or id is a [gmap]; the map of
      pending requests, which is iterated in insertion order, is an
      association list; an array is a [list]; a value that can be
      [null] or [undefined] is an [option].
    - The methods of the component are computations over a world: the
      component, the state of its collaborators, the events so far, and
      the promises and queued continuations of the runtime.  A method that
      throws returns [None].
    - The display layer, the selection model, the rendering surface and
      the diffing mechanism are collaborators outside the file: they
      appear as a record of the answers they give ([Host]).
    - A promise is resolved by calling its resolver; the continuations
      waiting on it run only when the call that is running has returned
      ([runTask]). *)

From Stdlib Require Import ZArith QArith Qround Qminmax Lia Lqa List.
From stdpp Require Import gmap list sorting.
Import ListNotations.

Local Open Scope Z_scope.

#[local] Set Warnings "-register-all".

(** ** Data model *)

(** [this.measurements] once [performInitialMeasurements] has run.
    [scrollWidth] is set by the first measurement of the longest line, and
    [koreanCharacterWidth] is read from a property the surface does not
    have. *)
Record Measurements := {
  scrollTop : Q;
  scrollLeft : Q;
  scrollerWidth : Q;
  scrollerHeight : Q;
  lineHeight : Q;
  baseCharacterWidth : Q;
  doubleWidthCharacterWidth : Q;
  halfWidthCharacterWidth : Q;
  koreanCharacterWidth : option Q;
  scrollWidth : option Q;
  lineNumberGutterWidth : Q
}.

(** Assignments to single fields of the measurements. *)
Definition set_scrollTop (v : Q) (c : Measurements) : Measurements :=
  {| scrollTop := v; scrollLeft := scrollLeft c; scrollerWidth :=
     scrollerWidth c; scrollerHeight := scrollerHeight c; lineHeight :=
     lineHeight c; baseCharacterWidth := baseCharacterWidth c;
     doubleWidthCharacterWidth := doubleWidthCharacterWidth c;
     halfWidthCharacterWidth := halfWidthCharacterWidth c;
     koreanCharacterWidth := koreanCharacterWidth c; scrollWidth :=
     scrollWidth c; lineNumberGutterWidth := lineNumberGutterWidth c |}.

Definition set_scrollLeft (v : Q) (c : Measurements) : Measurements :=
  {| scrollTop := scrollTop c; scrollLeft := v; scrollerWidth :=
     scrollerWidth c; scrollerHeight := scrollerHeight c; lineHeight :=
     lineHeight c; baseCharacterWidth := baseCharacterWidth c;
     doubleWidthCharacterWidth := doubleWidthCharacterWidth c;
     halfWidthCharacterWidth := halfWidthCharacterWidth c;
     koreanCharacterWidth := koreanCharacterWidth c; scrollWidth :=
     scrollWidth c; lineNumberGutterWidth := lineNumberGutterWidth c |}.

Definition set_scrollerWidth (v : Q) (c : Measurements) : Measurements :=
  {| scrollTop := scrollTop c; scrollLeft := scrollLeft c; scrollerWidth :=
     v; scrollerHeight := scrollerHeight c; lineHeight := lineHeight c;
     baseCharacterWidth := baseCharacterWidth c; doubleWidthCharacterWidth
     := doubleWidthCharacterWidth c; halfWidthCharacterWidth :=
     halfWidthCharacterWidth c; koreanCharacterWidth := koreanCharacterWidth
     c; scrollWidth := scrollWidth c; lineNumberGutterWidth :=
     lineNumberGutterWidth c |}.

Definition set_scrollerHeight (v : Q) (c : Measurements) : Measurements :=
  {| scrollTop := scrollTop c; scrollLeft := scrollLeft c; scrollerWidth :=
     scrollerWidth c; scrollerHeight := v; lineHeight := lineHeight c;
     baseCharacterWidth := baseCharacterWidth c; doubleWidthCharacterWidth
     := doubleWidthCharacterWidth c; halfWidthCharacterWidth :=
     halfWidthCharacterWidth c; koreanCharacterWidth := koreanCharacterWidth
     c; scrollWidth := scrollWidth c; lineNumberGutterWidth :=
     lineNumberGutterWidth c |}.

Definition set_scrollWidth (v : option Q) (c : Measurements) : Measurements :=
  {| scrollTop := scrollTop c; scrollLeft := scrollLeft c; scrollerWidth :=
     scrollerWidth c; scrollerHeight := scrollerHeight c; lineHeight :=
     lineHeight c; baseCharacterWidth := baseCharacterWidth c;
     doubleWidthCharacterWidth := doubleWidthCharacterWidth c;
     halfWidthCharacterWidth := halfWidthCharacterWidth c;
     koreanCharacterWidth := koreanCharacterWidth c; scrollWidth := v;
     lineNumberGutterWidth := lineNumberGutterWidth c |}.

(** ** Viewport / tile planner *)

Module Planner.

Definition DEFAULT_ROWS_PER_TILE : Z := 6.

(** What the planner reads: [this.measurements], [this.props.rowsPerTile]
    and the model's [getApproximateScreenLineCount()]. *)
Record View := {
  measurements : Measurements;
  rowsPerTile : option Z;
  approximateScreenLineCount : Z
}.

(** [this.props.rowsPerTile || DEFAULT_ROWS_PER_TILE]: an absent or zero
    property falls back to the default. *)
Definition getRowsPerTile (v : View) : Z :=
  match rowsPerTile v with
  | Some n => if n =? 0 then DEFAULT_ROWS_PER_TILE else n
  | None => DEFAULT_ROWS_PER_TILE
  end.

Definition getTileStartRow (v : View) (row : Z) : Z :=
  row - Z.rem row (getRowsPerTile v).

Definition getFirstVisibleRow (v : View) : Z :=
  Qfloor (scrollTop (measurements v) / lineHeight (measurements v)).

Definition getLastVisibleRow (v : View) : Z :=
  Z.min
    (approximateScreenLineCount v - 1)
    (getFirstVisibleRow v
     + Qceiling (scrollerHeight (measurements v) / lineHeight (measurements v))).

Definition getVisibleTileCount (v : View) : Z :=
  (getLastVisibleRow v - getFirstVisibleRow v) / getRowsPerTile v + 2.

Definition getFirstTileStartRow (v : View) : Z :=
  getTileStartRow v (getFirstVisibleRow v).

Definition getLastTileStartRow (v : View) : Z :=
  getFirstTileStartRow v + (getVisibleTileCount v - 1) * getRowsPerTile v.

Definition getRenderedStartRow (v : View) : Z :=
  getFirstTileStartRow v.

Definition getRenderedEndRow (v : View) : Z :=
  getFirstTileStartRow v + getVisibleTileCount v * getRowsPerTile v.

(** The header of the tile loops of [renderLineTiles] and
    [renderLineNumberGutter]:
    [for (t = first; t <= last; t += step)], collecting the values of [t].
    [fuel] bounds the number of iterations. *)
Fixpoint tileLoop (fuel : nat) (t last step : Z) : list Z :=
  match fuel with
  | O => []
  | S fuel' =>
      if t <=? last then t :: tileLoop fuel' (t + step) last step else []
  end.

(** The start rows of the tiles of one frame, in loop order.  With a
    positive step the loop runs at most [last - first + 1] times. *)
Definition tileStartRows (v : View) : list Z :=
  tileLoop
    (Z.to_nat (getLastTileStartRow v - getFirstTileStartRow v + 1))
    (getFirstTileStartRow v) (getLastTileStartRow v) (getRowsPerTile v).

(** [(tileStartRow / this.getRowsPerTile()) % visibleTileCount].  Tile
    start rows are multiples of the tile size, so the quotient is exact. *)
Definition tileIndex (v : View) (tileStartRow : Z) : Z :=
  Z.rem (Z.quot tileStartRow (getRowsPerTile v)) (getVisibleTileCount v).

(** The row bound [getLongestScreenLine] hands to
    [populateSpatialIndexIfNeeded]. *)
Definition longestLinePopulateBound (v : View) : Z :=
  getTileStartRow v (getLastVisibleRow v) + getRowsPerTile v.

(** The measurements the planner can work with: a positive line height
    and a positive number of rows per tile. *)
Definition wellFormed (v : View) : Prop :=
  (0 < lineHeight (measurements v))%Q /\ 0 < getRowsPerTile v.

(** Scroll offsets, heights and line counts are not negative. *)
Definition nonNegative (v : View) : Prop :=
  (0 <= scrollTop (measurements v))%Q
  /\ (0 <= scrollerHeight (measurements v))%Q
  /\ 0 <= approximateScreenLineCount v.

(** The last visible row is the one the viewport height gives, not the
    last row of the document. *)
Definition lastRowNotClamped (v : View) : Prop :=
  getFirstVisibleRow v
  + Qceiling (scrollerHeight (measurements v) / lineHeight (measurements v))
  <= approximateScreenLineCount v - 1.

End Planner.

(** ** Screen lines and the line renderer *)

(** A JavaScript string as its sequence of UTF-16 code units. *)
Definition jsstring := list Z.

(** [s.substr(start, len)]: a negative [start] counts from the end, and the
    result is cut at the end of [s]; a negative [len] gives the empty
    string. *)
Definition substr (s : jsstring) (start len : Z) : jsstring :=
  let n := Z.of_nat (length s) in
  let from := if start <? 0 then Z.max (n + start) 0 else Z.min start n in
  let count := Z.min (Z.max len 0) (n - from) in
  take (Z.to_nat count) (drop (Z.to_nat from) s).

Fixpoint startsWith (s prefix : jsstring) : bool :=
  match prefix, s with
  | [], _ => true
  | p :: prefix', c :: s' => (c =? p) && startsWith s' prefix'
  | _ :: _, [] => false
  end.

(** [s.endsWith(suffix)]. *)
Definition endsWith (s suffix : jsstring) : bool :=
  (length suffix <=? length s)%nat
  && startsWith (drop (length s - length suffix)%nat s) suffix.

Record ScreenLine := {
  id : Z;
  lineText : jsstring;
  tagCodes : list Z
}.

(** The part of the display layer a [LineComponent] is handed in its
    props: the tag code classification and the fold marker. *)
Record DisplayLayer := {
  isCloseTagCode : Z -> bool;
  isOpenTagCode : Z -> bool;
  tagForCode : Z -> jsstring;
  foldCharacter : jsstring
}.

Module LineComponent.

(** The nodes a line is made of: text nodes and [span] elements with a
    class name (empty for the span the constructor starts with). *)
Inductive DomNode :=
| TextNode (textContent : jsstring)
| SpanNode (className : jsstring) (children : list DomNode).

Definition SPACE : jsstring := [32].

(** [scopeName.replace(/\.+/g, ' ')]: every maximal run of dots (code
    unit 46) becomes one space.  [classNameForScopeName] memoises this
    function, which does not change its result. *)
Fixpoint replaceDotRuns (inRun : bool) (s : jsstring) : jsstring :=
  match s with
  | [] => []
  | ch :: rest =>
      if ch =? 46
      then (if inRun then replaceDotRuns true rest
            else 32 :: replaceDotRuns true rest)
      else ch :: replaceDotRuns false rest
  end.

Definition classNameForScopeName (scopeName : jsstring) : jsstring :=
  replaceDotRuns false scopeName.

(** A [span] that is still open: its class and the children appended to
    it so far. *)
Record Frame := {
  frameClass : jsstring;
  frameChildren : list DomNode
}.

(** The state of the constructor's walk over the tag codes.
    [openSpans] is the chain of spans from [openScopeNode] outwards;
    when it is empty [openScopeNode] is the line element itself, or
    [null] once [scopeIsNull] is set (the line element has no parent
    while it is being built). *)
Record Walk := {
  startIndex : Z;
  textNodes : list jsstring;
  elementChildren : list DomNode;
  openSpans : list Frame;
  scopeIsNull : bool
}.

(** [openScopeNode.appendChild(node)]; [None] when [openScopeNode] is
    [null]. *)
Definition appendToOpenScope (node : DomNode) (w : Walk) : option Walk :=
  if scopeIsNull w then None
  else match openSpans w with
       | f :: outer =>
           Some {| startIndex := startIndex w;
                   textNodes := textNodes w;
                   elementChildren := elementChildren w;
                   openSpans :=
                     {| frameClass := frameClass f;
                        frameChildren := frameChildren f ++ [node] |} :: outer;
                   scopeIsNull := false |}
       | [] =>
           Some {| startIndex := startIndex w;
                   textNodes := textNodes w;
                   elementChildren := elementChildren w ++ [node];
                   openSpans := [];
                   scopeIsNull := false |}
       end.

(** [openScopeNode = openScopeNode.parentElement].  The span that is left
    keeps its place among its parent's children: it was appended when it
    was opened and nothing was appended to the parent since. *)
Definition closeScope (w : Walk) : option Walk :=
  if scopeIsNull w then None
  else match openSpans w with
       | f :: outer =>
           appendToOpenScope (SpanNode (frameClass f) (frameChildren f))
             {| startIndex := startIndex w;
                textNodes := textNodes w;
                elementChildren := elementChildren w;
                openSpans := outer;
                scopeIsNull := false |}
       | [] =>
           Some {| startIndex := startIndex w;
                   textNodes := textNodes w;
                   elementChildren := elementChildren w;
                   openSpans := [];
                   scopeIsNull := true |}
       end.

(** A new span is appended to [openScopeNode] and becomes it. *)
Definition openScope (cls : jsstring) (w : Walk) : option Walk :=
  if scopeIsNull w then None
  else Some {| startIndex := startIndex w;
               textNodes := textNodes w;
               elementChildren := elementChildren w;
               openSpans := {| frameClass := cls; frameChildren := [] |}
                            :: openSpans w;
               scopeIsNull := false |}.

(** A text run of [tagCode] code units. *)
Definition textRun (text : jsstring) (tagCode : Z) (w : Walk) : option Walk :=
  let content := substr text (startIndex w) tagCode in
  match appendToOpenScope (TextNode content) w with
  | Some w' =>
      Some {| startIndex := startIndex w + tagCode;
              textNodes := textNodes w ++ [content];
              elementChildren := elementChildren w';
              openSpans := openSpans w';
              scopeIsNull := scopeIsNull w' |}
  | None => None
  end.

(** One iteration of the loop over [tagCodes]. *)
Definition walkTag (dl : DisplayLayer) (text : jsstring)
    (w : Walk) (tagCode : Z) : option Walk :=
  if tagCode =? 0 then Some w
  else if isCloseTagCode dl tagCode then closeScope w
  else if isOpenTagCode dl tagCode
       then openScope (classNameForScopeName (tagForCode dl tagCode)) w
       else textRun text tagCode w.

Fixpoint walkTags (dl : DisplayLayer) (text : jsstring)
    (w : Walk) (codes : list Z) : option Walk :=
  match codes with
  | [] => Some w
  | tagCode :: rest =>
      match walkTag dl text w tagCode with
      | Some w' => walkTags dl text w' rest
      | None => None
      end
  end.

(** Spans still open when the walk ends are already in the tree: each is
    the last child of the span around it, the outermost one the last
    child of the line element. *)
Fixpoint settleInto (inner : DomNode) (spans : list Frame)
    (elementChildren : list DomNode) : list DomNode :=
  match spans with
  | [] => elementChildren ++ [inner]
  | g :: outer =>
      settleInto (SpanNode (frameClass g) (frameChildren g ++ [inner]))
        outer elementChildren
  end.

Definition settle (spans : list Frame) (elementChildren : list DomNode)
    : list DomNode :=
  match spans with
  | [] => elementChildren
  | f :: outer =>
      settleInto (SpanNode (frameClass f) (frameChildren f))
        outer elementChildren
  end.

(** [this.element.appendChild(textNode); textNodes.push(textNode)]. *)
Definition appendToElement (content : jsstring)
    (r : list DomNode * list jsstring) : list DomNode * list jsstring :=
  (r.1 ++ [TextNode content], r.2 ++ [content]).

(** What a constructed line consists of: the children of its
    [div.line] element and the text nodes registered for measurement. *)
Record Rendered := {
  lineChildren : list DomNode;
  lineTextNodes : list jsstring
}.

(** The constructor.  [ZERO_WIDTH_NBSP] is a constant the file uses and
    does not declare; it is a parameter here. *)
Definition construct (ZERO_WIDTH_NBSP : jsstring)
    (dl : DisplayLayer) (screenLine : ScreenLine) : option Rendered :=
  let start := {| startIndex := 0;
                  textNodes := [];
                  elementChildren := [];
                  openSpans := [{| frameClass := []; frameChildren := [] |}];
                  scopeIsNull := false |} in
  match walkTags dl (lineText screenLine) start (tagCodes screenLine) with
  | None => None
  | Some w =>
      let r0 := (settle (openSpans w) (elementChildren w), textNodes w) in
      let r1 := if startIndex w =? 0 then appendToElement SPACE r0 else r0 in
      let r2 := if endsWith (lineText screenLine) (foldCharacter dl)
                then appendToElement ZERO_WIDTH_NBSP r1 else r1 in
      Some {| lineChildren := r2.1; lineTextNodes := r2.2 |}
  end.

(** No tag code of the line is a text run. *)
Definition noTextRun (dl : DisplayLayer) (codes : list Z) : bool :=
  forallb (fun code => (code =? 0) || isCloseTagCode dl code
                       || isOpenTagCode dl code) codes.

(** The two maps a line registers itself in: the children of its line
    node and its text nodes, by screen line id. *)
Definition Registries : Type :=
  gmap Z (list DomNode) * gmap Z (list jsstring).

(** The registrations a successful constructor leaves behind. *)
Definition register (screenLine : ScreenLine) (r : Rendered)
    (regs : Registries) : Registries :=
  (<[id screenLine := lineChildren r]> regs.1,
   <[id screenLine := lineTextNodes r]> regs.2).

(** [destroy ()] *)
Definition destroy (screenLine : ScreenLine) (regs : Registries)
    : Registries :=
  (delete (id screenLine) regs.1, delete (id screenLine) regs.2).

End LineComponent.

(** ** Tiles of one frame *)

Module Tiles.

(** The description of one tile handed to the diffing mechanism: its key
    (the slot), its style, and the lines in it.  [tileStartRow] is the row
    the tile was rendered for; the node itself keeps it only through
    [translateY]. *)
Record TileNode := {
  key : Z;
  tileStartRow : Z;
  tileHeight : Q;
  tileWidth : option Q;
  translateY : Q;
  lineNodes : list ScreenLine
}.

(** A child of the [lines] block: a tile, or the longest line rendered on
    its own for measurement. *)
Inductive VNode :=
| VTile (tile : TileNode)
| VLine (screenLine : ScreenLine).

(** [new Array(n)]: [n] holes; a negative length is a [RangeError]. *)
Definition newArray {A} (n : Z) : option (list (option A)) :=
  if n <? 0 then None else Some (replicate (Z.to_nat n) None).

(** [arr[i] = x]: an index past the end extends the array with holes; a
    negative index names a property and leaves the elements alone. *)
Definition arraySet {A} (i : Z) (x : A) (arr : list (option A))
    : list (option A) :=
  if i <? 0 then arr
  else if (Z.to_nat i <? length arr)%nat
       then <[Z.to_nat i := Some x]> arr
       else arr ++ replicate (Z.to_nat i - length arr) None ++ [Some x].

(** [arr[i]] *)
Definition arrayGet {A} (i : Z) (arr : list (option A)) : option A :=
  if i <? 0 then None else mjoin (arr !! Z.to_nat i).

(** The inner loop of [renderLineTiles]:
    [for (row = tileStartRow; row < tileEndRow; row++)], which stops at
    the first row without a screen line and forgets
    [longestLineToMeasure] when it meets that line.  Screen lines are
    compared by identity, which their [id] stands for. *)
Fixpoint tileLines (fuel : nat) (row tileEndRow firstTileStartRow : Z)
    (screenLines : list ScreenLine) (longest : option ScreenLine)
    : list ScreenLine * option ScreenLine :=
  match fuel with
  | O => ([], longest)
  | S fuel' =>
      if row <? tileEndRow then
        match (if row - firstTileStartRow <? 0 then None
               else screenLines !! Z.to_nat (row - firstTileStartRow)) with
        | None => ([], longest)
        | Some screenLine =>
            let longest' :=
              match longest with
              | Some l => if id screenLine =? id l then None else longest
              | None => None
              end in
            let r := tileLines fuel' (row + 1) tileEndRow firstTileStartRow
                       screenLines longest' in
            (screenLine :: r.1, r.2)
        end
      else ([], longest)
  end.

Definition topPixelPositionForRow (v : Planner.View) (row : Z) : Q :=
  (inject_Z row * lineHeight (Planner.measurements v))%Q.

(** The body of the outer loop for one tile. *)
Definition renderTile (v : Planner.View) (screenLines : list ScreenLine)
    (acc : list (option VNode) * option ScreenLine) (tileStartRow : Z)
    : list (option VNode) * option ScreenLine :=
  let rows := Planner.getRowsPerTile v in
  let tileEndRow := tileStartRow + rows in
  let r := tileLines (Z.to_nat rows) tileStartRow tileEndRow
             (Planner.getFirstTileStartRow v) screenLines acc.2 in
  let tile :=
    {| key := Planner.tileIndex v tileStartRow;
       tileStartRow := tileStartRow;
       tileHeight :=
         (inject_Z rows * lineHeight (Planner.measurements v))%Q;
       tileWidth := scrollWidth (Planner.measurements v);
       translateY := topPixelPositionForRow v tileStartRow;
       lineNodes := r.1 |} in
  (if Planner.getVisibleTileCount v =? 0 then acc.1
   else arraySet (Planner.tileIndex v tileStartRow) (VTile tile) acc.1,
   r.2).

(** [renderLineTiles] once measurements exist.  [screenLines] is the
    display layer's answer to
    [getScreenLines(firstTileStartRow, lastTileStartRow + rowsPerTile)];
    [longest] is [this.longestLineToMeasure].  The result is the array
    [tileNodes] and the new [longestLineToMeasure]. *)
Definition renderLineTiles (v : Planner.View)
    (screenLines : list ScreenLine) (longest : option ScreenLine)
    : option (list (option VNode) * option ScreenLine) :=
  match newArray (Planner.getVisibleTileCount v) with
  | None => None
  | Some tileNodes0 =>
      let r := fold_left (renderTile v screenLines)
                 (Planner.tileStartRows v) (tileNodes0, longest) in
      match r.2 with
      | Some l => Some (r.1 ++ [Some (VLine l)], None)
      | None => Some (r.1, None)
      end
  end.

(** The start row of the tile a slot holds. *)
Definition slotStartRow (tileNodes : list (option VNode)) (slot : Z)
    : option Z :=
  match arrayGet slot tileNodes with
  | Some (VTile t) => Some (tileStartRow t)
  | _ => None
  end.

End Tiles.

(** ** Horizontal measurement of one line *)

Module Measure.

(** What the rendering surface answers for one rendered line: the left
    edge of the line node, and the left and right edges of the range
    from [startOffset] to [endOffset] in its [index]-th text node. *)
Record LineSurface := {
  lineClientLeft : Q;
  rangeClientLeft : nat -> Z -> Z -> Q;
  rangeClientRight : nat -> Z -> Z -> Q
}.

(** The reads issued on the surface. *)
Inductive Query :=
| RangeQuery (index : nat) (startOffset endOffset : Z)
| LineRectQuery.

(** The variables of [measureHorizontalPositionsOnLine]: the text nodes
    from [textNodesIndex] on, that index, [textNodeStartColumn],
    [lineNodeClientLeft] (with its sentinel -1), the positions map and
    the reads made so far. *)
Record Scan := {
  nodesLeft : list jsstring;
  textNodesIndex : nat;
  textNodeStartColumn : Z;
  lineNodeClientLeft : Q;
  positions : gmap Z Q;
  queries : list Query
}.

(** The [while] loop for one column.  It is left by [continue
    columnLoop] (the column is 0, is cached, or lies in the current text
    node) or when the text nodes run out. *)
Fixpoint measureColumn (surf : LineSurface) (nextColumnToMeasure : Z)
    (nodes : list jsstring) (s : Scan) : Scan :=
  match nodes with
  | [] =>
      {| nodesLeft := []; textNodesIndex := textNodesIndex s;
         textNodeStartColumn := textNodeStartColumn s;
         lineNodeClientLeft := lineNodeClientLeft s;
         positions := positions s; queries := queries s |}
  | textNode :: rest =>
      if nextColumnToMeasure =? 0 then
        {| nodesLeft := nodes; textNodesIndex := textNodesIndex s;
           textNodeStartColumn := textNodeStartColumn s;
           lineNodeClientLeft := lineNodeClientLeft s;
           positions := <[0 := 0%Q]> (positions s); queries := queries s |}
      else if decide (is_Some (positions s !! nextColumnToMeasure)) then
        {| nodesLeft := nodes; textNodesIndex := textNodesIndex s;
           textNodeStartColumn := textNodeStartColumn s;
           lineNodeClientLeft := lineNodeClientLeft s;
           positions := positions s; queries := queries s |}
      else
        let textNodeEndColumn :=
          textNodeStartColumn s + Z.of_nat (length textNode) in
        if nextColumnToMeasure <=? textNodeEndColumn then
          let endOffset :=
            if nextColumnToMeasure =? textNodeStartColumn s then 1
            else nextColumnToMeasure - textNodeStartColumn s in
          let clientPixelPosition :=
            if nextColumnToMeasure =? textNodeStartColumn s
            then rangeClientLeft surf (textNodesIndex s) 0 1
            else rangeClientRight surf (textNodesIndex s) 0 endOffset in
          let firstRead := Qeq_bool (lineNodeClientLeft s) (-1) in
          let left :=
            if firstRead then lineClientLeft surf
            else lineNodeClientLeft s in
          {| nodesLeft := nodes; textNodesIndex := textNodesIndex s;
             textNodeStartColumn := textNodeStartColumn s;
             lineNodeClientLeft := left;
             positions :=
               <[nextColumnToMeasure := (clientPixelPosition - left)%Q]>
                 (positions s);
             queries :=
               queries s
               ++ [RangeQuery (textNodesIndex s) 0 endOffset]
               ++ (if firstRead then [LineRectQuery] else []) |}
        else
          measureColumn surf nextColumnToMeasure rest
            {| nodesLeft := rest; textNodesIndex := S (textNodesIndex s);
               textNodeStartColumn := textNodeEndColumn;
               lineNodeClientLeft := lineNodeClientLeft s;
               positions := positions s; queries := queries s |}
  end.

(** The [for] loop over the columns. *)
Definition measureColumns (surf : LineSurface) (columns : list Z)
    (s : Scan) : Scan :=
  fold_left (fun s column => measureColumn surf column (nodesLeft s) s)
    columns s.

(** [measureHorizontalPositionsOnLine (lineNode, textNodes,
    columnsToMeasure, positions)], for text nodes that exist: the
    positions map afterwards and the reads made. *)
Definition measureHorizontalPositionsOnLine (surf : LineSurface)
    (textNodes : list jsstring) (columnsToMeasure : list Z)
    (positions : gmap Z Q) : gmap Z Q * list Query :=
  let s := measureColumns surf columnsToMeasure
             {| nodesLeft := textNodes; textNodesIndex := 0;
                textNodeStartColumn := 0; lineNodeClientLeft := (-1)%Q;
                positions := positions; queries := [] |} in
  (Measure.positions s, queries s).

(** [columnsToMeasure.sort((a, b) => a - b)] *)
Definition sortColumns (columns : list Z) : list Z :=
  merge_sort Z.le columns.

(** [requestHorizontalMeasurement] on the map from rows to the columns
    wanted on them, kept in insertion order. *)
Fixpoint requestHorizontalMeasurement (row column : Z)
    (pending : list (Z * list Z)) : list (Z * list Z) :=
  match pending with
  | [] => [(row, [column])]
  | (r, columns) :: rest =>
      if r =? row then (r, columns ++ [column]) :: rest
      else (r, columns) :: requestHorizontalMeasurement row column rest
  end.


(** The number of columns the text nodes of a line span. *)
Definition textLength (textNodes : list jsstring) : Z :=
  fold_right (fun textNode n => Z.of_nat (length textNode) + n) 0 textNodes.

(** Column 0, when it is cached, is cached as 0. *)
Definition zeroAtZero (positions : gmap Z Q) : Prop :=
  forall x, positions !! 0 = Some x -> x = 0%Q.

End Measure.

(** ** The component, its collaborators and its runtime *)

Record Point := {
  row : Z;
  column : Z
}.

(** A cursor marker of the selection model with its head position. *)
Record Marker := {
  markerId : Z;
  headScreenPosition : Point
}.

(** An entry of [cursorsToRender].  A pixel field is [None] when the
    JavaScript value is [undefined] or [NaN]. *)
Record CursorToRender := {
  screenPosition : Point;
  columnWidth : Z;
  pixelTop : option Q;
  pixelLeft : option Q;
  pixelWidth : option Q
}.

(** [a - b] on values that may be [undefined]. *)
Definition jsMinus (a b : option Q) : option Q :=
  match a, b with
  | Some x, Some y => Some (x - y)%Q
  | _, _ => None
  end.

Record StaleMeasurements := {
  editorDimensions : bool
}.

Record Component := {
  rowsPerTileProp : option Z;
  updateScheduled : bool;
  updatedSynchronously : bool;
  measurements : option Measurements;
  staleMeasurements : option StaleMeasurements;
  visible : bool;
  focused : bool;
  horizontalPositionsToMeasure : list (Z * list Z);
  horizontalPixelPositionsByScreenLineId : gmap Z (gmap Z Q);
  lineNodesByScreenLineId : gmap Z (list LineComponent.DomNode);
  textNodesByScreenLineId : gmap Z (list jsstring);
  cursorsToRender : list CursorToRender;
  inputScreenPosition : option Point;
  nextUpdatePromise : option nat;
  resolveNextUpdatePromise : option nat;
  previousLongestLine : option ScreenLine;
  longestLineToMeasure : option ScreenLine
}.

(** Assignments to single fields of the component. *)
Definition set_rowsPerTileProp (v : option Z) (c : Component) : Component :=
  {| rowsPerTileProp := v; updateScheduled := updateScheduled c;
     updatedSynchronously := updatedSynchronously c; measurements :=
     measurements c; staleMeasurements := staleMeasurements c; visible :=
     visible c; focused := focused c; horizontalPositionsToMeasure :=
     horizontalPositionsToMeasure c; horizontalPixelPositionsByScreenLineId
     := horizontalPixelPositionsByScreenLineId c; lineNodesByScreenLineId :=
     lineNodesByScreenLineId c; textNodesByScreenLineId :=
     textNodesByScreenLineId c; cursorsToRender := cursorsToRender c;
     inputScreenPosition := inputScreenPosition c; nextUpdatePromise :=
     nextUpdatePromise c; resolveNextUpdatePromise :=
     resolveNextUpdatePromise c; previousLongestLine := previousLongestLine
     c; longestLineToMeasure := longestLineToMeasure c |}.

Definition set_updateScheduled (v : bool) (c : Component) : Component :=
  {| rowsPerTileProp := rowsPerTileProp c; updateScheduled := v;
     updatedSynchronously := updatedSynchronously c; measurements :=
     measurements c; staleMeasurements := staleMeasurements c; visible :=
     visible c; focused := focused c; horizontalPositionsToMeasure :=
     horizontalPositionsToMeasure c; horizontalPixelPositionsByScreenLineId
     := horizontalPixelPositionsByScreenLineId c; lineNodesByScreenLineId :=
     lineNodesByScreenLineId c; textNodesByScreenLineId :=
     textNodesByScreenLineId c; cursorsToRender := cursorsToRender c;
     inputScreenPosition := inputScreenPosition c; nextUpdatePromise :=
     nextUpdatePromise c; resolveNextUpdatePromise :=
     resolveNextUpdatePromise c; previousLongestLine := previousLongestLine
     c; longestLineToMeasure := longestLineToMeasure c |}.

Definition set_measurements (v : option Measurements) (c : Component) : Component :=
  {| rowsPerTileProp := rowsPerTileProp c; updateScheduled :=
     updateScheduled c; updatedSynchronously := updatedSynchronously c;
     measurements := v; staleMeasurements := staleMeasurements c; visible :=
     visible c; focused := focused c; horizontalPositionsToMeasure :=
     horizontalPositionsToMeasure c; horizontalPixelPositionsByScreenLineId
     := horizontalPixelPositionsByScreenLineId c; lineNodesByScreenLineId :=
     lineNodesByScreenLineId c; textNodesByScreenLineId :=
     textNodesByScreenLineId c; cursorsToRender := cursorsToRender c;
     inputScreenPosition := inputScreenPosition c; nextUpdatePromise :=
     nextUpdatePromise c; resolveNextUpdatePromise :=
     resolveNextUpdatePromise c; previousLongestLine := previousLongestLine
     c; longestLineToMeasure := longestLineToMeasure c |}.

Definition set_staleMeasurements (v : option StaleMeasurements) (c : Component) : Component :=
  {| rowsPerTileProp := rowsPerTileProp c; updateScheduled :=
     updateScheduled c; updatedSynchronously := updatedSynchronously c;
     measurements := measurements c; staleMeasurements := v; visible :=
     visible c; focused := focused c; horizontalPositionsToMeasure :=
     horizontalPositionsToMeasure c; horizontalPixelPositionsByScreenLineId
     := horizontalPixelPositionsByScreenLineId c; lineNodesByScreenLineId :=
     lineNodesByScreenLineId c; textNodesByScreenLineId :=
     textNodesByScreenLineId c; cursorsToRender := cursorsToRender c;
     inputScreenPosition := inputScreenPosition c; nextUpdatePromise :=
     nextUpdatePromise c; resolveNextUpdatePromise :=
     resolveNextUpdatePromise c; previousLongestLine := previousLongestLine
     c; longestLineToMeasure := longestLineToMeasure c |}.

Definition set_visible (v : bool) (c : Component) : Component :=
  {| rowsPerTileProp := rowsPerTileProp c; updateScheduled :=
     updateScheduled c; updatedSynchronously := updatedSynchronously c;
     measurements := measurements c; staleMeasurements := staleMeasurements
     c; visible := v; focused := focused c; horizontalPositionsToMeasure :=
     horizontalPositionsToMeasure c; horizontalPixelPositionsByScreenLineId
     := horizontalPixelPositionsByScreenLineId c; lineNodesByScreenLineId :=
     lineNodesByScreenLineId c; textNodesByScreenLineId :=
     textNodesByScreenLineId c; cursorsToRender := cursorsToRender c;
     inputScreenPosition := inputScreenPosition c; nextUpdatePromise :=
     nextUpdatePromise c; resolveNextUpdatePromise :=
     resolveNextUpdatePromise c; previousLongestLine := previousLongestLine
     c; longestLineToMeasure := longestLineToMeasure c |}.

Definition set_focused (v : bool) (c : Component) : Component :=
  {| rowsPerTileProp := rowsPerTileProp c; updateScheduled :=
     updateScheduled c; updatedSynchronously := updatedSynchronously c;
     measurements := measurements c; staleMeasurements := staleMeasurements
     c; visible := visible c; focused := v; horizontalPositionsToMeasure :=
     horizontalPositionsToMeasure c; horizontalPixelPositionsByScreenLineId
     := horizontalPixelPositionsByScreenLineId c; lineNodesByScreenLineId :=
     lineNodesByScreenLineId c; textNodesByScreenLineId :=
     textNodesByScreenLineId c; cursorsToRender := cursorsToRender c;
     inputScreenPosition := inputScreenPosition c; nextUpdatePromise :=
     nextUpdatePromise c; resolveNextUpdatePromise :=
     resolveNextUpdatePromise c; previousLongestLine := previousLongestLine
     c; longestLineToMeasure := longestLineToMeasure c |}.

Definition set_horizontalPositionsToMeasure (v : list (Z * list Z)) (c : Component) : Component :=
  {| rowsPerTileProp := rowsPerTileProp c; updateScheduled :=
     updateScheduled c; updatedSynchronously := updatedSynchronously c;
     measurements := measurements c; staleMeasurements := staleMeasurements
     c; visible := visible c; focused := focused c;
     horizontalPositionsToMeasure := v;
     horizontalPixelPositionsByScreenLineId :=
     horizontalPixelPositionsByScreenLineId c; lineNodesByScreenLineId :=
     lineNodesByScreenLineId c; textNodesByScreenLineId :=
     textNodesByScreenLineId c; cursorsToRender := cursorsToRender c;
     inputScreenPosition := inputScreenPosition c; nextUpdatePromise :=
     nextUpdatePromise c; resolveNextUpdatePromise :=
     resolveNextUpdatePromise c; previousLongestLine := previousLongestLine
     c; longestLineToMeasure := longestLineToMeasure c |}.

Definition set_horizontalPixelPositionsByScreenLineId (v : gmap Z (gmap Z Q)) (c : Component) : Component :=
  {| rowsPerTileProp := rowsPerTileProp c; updateScheduled :=
     updateScheduled c; updatedSynchronously := updatedSynchronously c;
     measurements := measurements c; staleMeasurements := staleMeasurements
     c; visible := visible c; focused := focused c;
     horizontalPositionsToMeasure := horizontalPositionsToMeasure c;
     horizontalPixelPositionsByScreenLineId := v; lineNodesByScreenLineId :=
     lineNodesByScreenLineId c; textNodesByScreenLineId :=
     textNodesByScreenLineId c; cursorsToRender := cursorsToRender c;
     inputScreenPosition := inputScreenPosition c; nextUpdatePromise :=
     nextUpdatePromise c; resolveNextUpdatePromise :=
     resolveNextUpdatePromise c; previousLongestLine := previousLongestLine
     c; longestLineToMeasure := longestLineToMeasure c |}.

Definition set_lineNodesByScreenLineId (v : gmap Z (list LineComponent.DomNode)) (c : Component) : Component :=
  {| rowsPerTileProp := rowsPerTileProp c; updateScheduled :=
     updateScheduled c; updatedSynchronously := updatedSynchronously c;
     measurements := measurements c; staleMeasurements := staleMeasurements
     c; visible := visible c; focused := focused c;
     horizontalPositionsToMeasure := horizontalPositionsToMeasure c;
     horizontalPixelPositionsByScreenLineId :=
     horizontalPixelPositionsByScreenLineId c; lineNodesByScreenLineId := v;
     textNodesByScreenLineId := textNodesByScreenLineId c; cursorsToRender
     := cursorsToRender c; inputScreenPosition := inputScreenPosition c;
     nextUpdatePromise := nextUpdatePromise c; resolveNextUpdatePromise :=
     resolveNextUpdatePromise c; previousLongestLine := previousLongestLine
     c; longestLineToMeasure := longestLineToMeasure c |}.

Definition set_textNodesByScreenLineId (v : gmap Z (list jsstring)) (c : Component) : Component :=
  {| rowsPerTileProp := rowsPerTileProp c; updateScheduled :=
     updateScheduled c; updatedSynchronously := updatedSynchronously c;
     measurements := measurements c; staleMeasurements := staleMeasurements
     c; visible := visible c; focused := focused c;
     horizontalPositionsToMeasure := horizontalPositionsToMeasure c;
     horizontalPixelPositionsByScreenLineId :=
     horizontalPixelPositionsByScreenLineId c; lineNodesByScreenLineId :=
     lineNodesByScreenLineId c; textNodesByScreenLineId := v;
     cursorsToRender := cursorsToRender c; inputScreenPosition :=
     inputScreenPosition c; nextUpdatePromise := nextUpdatePromise c;
     resolveNextUpdatePromise := resolveNextUpdatePromise c;
     previousLongestLine := previousLongestLine c; longestLineToMeasure :=
     longestLineToMeasure c |}.

Definition set_cursorsToRender (v : list CursorToRender) (c : Component) : Component :=
  {| rowsPerTileProp := rowsPerTileProp c; updateScheduled :=
     updateScheduled c; updatedSynchronously := updatedSynchronously c;
     measurements := measurements c; staleMeasurements := staleMeasurements
     c; visible := visible c; focused := focused c;
     horizontalPositionsToMeasure := horizontalPositionsToMeasure c;
     horizontalPixelPositionsByScreenLineId :=
     horizontalPixelPositionsByScreenLineId c; lineNodesByScreenLineId :=
     lineNodesByScreenLineId c; textNodesByScreenLineId :=
     textNodesByScreenLineId c; cursorsToRender := v; inputScreenPosition :=
     inputScreenPosition c; nextUpdatePromise := nextUpdatePromise c;
     resolveNextUpdatePromise := resolveNextUpdatePromise c;
     previousLongestLine := previousLongestLine c; longestLineToMeasure :=
     longestLineToMeasure c |}.

Definition set_inputScreenPosition (v : option Point) (c : Component) : Component :=
  {| rowsPerTileProp := rowsPerTileProp c; updateScheduled :=
     updateScheduled c; updatedSynchronously := updatedSynchronously c;
     measurements := measurements c; staleMeasurements := staleMeasurements
     c; visible := visible c; focused := focused c;
     horizontalPositionsToMeasure := horizontalPositionsToMeasure c;
     horizontalPixelPositionsByScreenLineId :=
     horizontalPixelPositionsByScreenLineId c; lineNodesByScreenLineId :=
     lineNodesByScreenLineId c; textNodesByScreenLineId :=
     textNodesByScreenLineId c; cursorsToRender := cursorsToRender c;
     inputScreenPosition := v; nextUpdatePromise := nextUpdatePromise c;
     resolveNextUpdatePromise := resolveNextUpdatePromise c;
     previousLongestLine := previousLongestLine c; longestLineToMeasure :=
     longestLineToMeasure c |}.

Definition set_nextUpdatePromise (v : option nat) (c : Component) : Component :=
  {| rowsPerTileProp := rowsPerTileProp c; updateScheduled :=
     updateScheduled c; updatedSynchronously := updatedSynchronously c;
     measurements := measurements c; staleMeasurements := staleMeasurements
     c; visible := visible c; focused := focused c;
     horizontalPositionsToMeasure := horizontalPositionsToMeasure c;
     horizontalPixelPositionsByScreenLineId :=
     horizontalPixelPositionsByScreenLineId c; lineNodesByScreenLineId :=
     lineNodesByScreenLineId c; textNodesByScreenLineId :=
     textNodesByScreenLineId c; cursorsToRender := cursorsToRender c;
     inputScreenPosition := inputScreenPosition c; nextUpdatePromise := v;
     resolveNextUpdatePromise := resolveNextUpdatePromise c;
     previousLongestLine := previousLongestLine c; longestLineToMeasure :=
     longestLineToMeasure c |}.

Definition set_resolveNextUpdatePromise (v : option nat) (c : Component) : Component :=
  {| rowsPerTileProp := rowsPerTileProp c; updateScheduled :=
     updateScheduled c; updatedSynchronously := updatedSynchronously c;
     measurements := measurements c; staleMeasurements := staleMeasurements
     c; visible := visible c; focused := focused c;
     horizontalPositionsToMeasure := horizontalPositionsToMeasure c;
     horizontalPixelPositionsByScreenLineId :=
     horizontalPixelPositionsByScreenLineId c; lineNodesByScreenLineId :=
     lineNodesByScreenLineId c; textNodesByScreenLineId :=
     textNodesByScreenLineId c; cursorsToRender := cursorsToRender c;
     inputScreenPosition := inputScreenPosition c; nextUpdatePromise :=
     nextUpdatePromise c; resolveNextUpdatePromise := v; previousLongestLine
     := previousLongestLine c; longestLineToMeasure := longestLineToMeasure
     c |}.

Definition set_previousLongestLine (v : option ScreenLine) (c : Component) : Component :=
  {| rowsPerTileProp := rowsPerTileProp c; updateScheduled :=
     updateScheduled c; updatedSynchronously := updatedSynchronously c;
     measurements := measurements c; staleMeasurements := staleMeasurements
     c; visible := visible c; focused := focused c;
     horizontalPositionsToMeasure := horizontalPositionsToMeasure c;
     horizontalPixelPositionsByScreenLineId :=
     horizontalPixelPositionsByScreenLineId c; lineNodesByScreenLineId :=
     lineNodesByScreenLineId c; textNodesByScreenLineId :=
     textNodesByScreenLineId c; cursorsToRender := cursorsToRender c;
     inputScreenPosition := inputScreenPosition c; nextUpdatePromise :=
     nextUpdatePromise c; resolveNextUpdatePromise :=
     resolveNextUpdatePromise c; previousLongestLine := v;
     longestLineToMeasure := longestLineToMeasure c |}.

Definition set_longestLineToMeasure (v : option ScreenLine) (c : Component) : Component :=
  {| rowsPerTileProp := rowsPerTileProp c; updateScheduled :=
     updateScheduled c; updatedSynchronously := updatedSynchronously c;
     measurements := measurements c; staleMeasurements := staleMeasurements
     c; visible := visible c; focused := focused c;
     horizontalPositionsToMeasure := horizontalPositionsToMeasure c;
     horizontalPixelPositionsByScreenLineId :=
     horizontalPixelPositionsByScreenLineId c; lineNodesByScreenLineId :=
     lineNodesByScreenLineId c; textNodesByScreenLineId :=
     textNodesByScreenLineId c; cursorsToRender := cursorsToRender c;
     inputScreenPosition := inputScreenPosition c; nextUpdatePromise :=
     nextUpdatePromise c; resolveNextUpdatePromise :=
     resolveNextUpdatePromise c; previousLongestLine := previousLongestLine
     c; longestLineToMeasure := v |}.

(** The component as its constructor leaves it. *)
Definition newComponent (rowsPerTile : option Z) : Component :=
  {| rowsPerTileProp := rowsPerTile;
     updateScheduled := false;
     updatedSynchronously := false;
     measurements := None;
     staleMeasurements := None;
     visible := false;
     focused := false;
     horizontalPositionsToMeasure := [];
     horizontalPixelPositionsByScreenLineId := ∅;
     lineNodesByScreenLineId := ∅;
     textNodesByScreenLineId := ∅;
     cursorsToRender := [];
     inputScreenPosition := None;
     nextUpdatePromise := None;
     resolveNextUpdatePromise := None;
     previousLongestLine := None;
     longestLineToMeasure := None |}.

(** What the component does to its collaborators, in order. *)
Inductive Event :=
| EvScheduleCallback
| EvResolve (promise : nat)
| EvNotify (waiter : nat)
| EvSetModelVisible (visible : bool)
| EvReadEditorDimensions
| EvReadScrollPosition
| EvReadCharacterDimensions
| EvReadGutterDimensions
| EvPopulateSpatialIndex (maxRow : Z)
| EvQueryLongestScreenRow
| EvCommit (tiles : list (option Tiles.VNode)) (cursors : list CursorToRender)
| EvReadLongestLineWidth (lineId : Z)
| EvFindMarkers (startRow endRow : Z)
| EvSurfaceQuery (lineId : Z) (query : Measure.Query).

(** What a commit does to the line components: the diffing mechanism
    decides which lines are built and which are destroyed. *)
Inductive PatchOp :=
| Construct (screenLine : ScreenLine)
| Destroy (screenLine : ScreenLine).

(** The collaborators, as functions of their state [E]: the model with its
    display layer, the selection model, and the rendering surface with the
    diffing mechanism. *)
Record Host (E : Type) := {
  displayLayer : DisplayLayer;
  getApproximateScreenLineCount : E -> Z;
  populateSpatialIndexIfNeeded : Z -> E -> E;
  getApproximateLongestScreenRow : E -> Z;
  screenLineForScreenRow : E -> Z -> option ScreenLine;
  getScreenLine : E -> Z -> option ScreenLine;
  getScreenLines : E -> Z -> Z -> list ScreenLine;
  lineLengthForScreenRow : E -> Z -> Z;
  setVisible : bool -> E -> E;
  findMarkers : E -> Z -> Z -> list Marker;
  getLastCursorMarker : E -> Z;
  scrollerOffsetHeight : E -> Q;
  scrollerOffsetWidth : E -> Q;
  scrollerScrollTop : E -> Q;
  scrollerScrollLeft : E -> Q;
  characterMeasurementLineHeight : E -> Q;
  normalWidthCharacterWidth : E -> Q;
  doubleWidthCharacterSpanWidth : E -> Q;
  halfWidthCharacterSpanWidth : E -> Q;
  lineNumberGutterOffsetWidth : E -> Q;
  lineOffsetWidth : E -> Z -> Q;
  lineSurface : E -> Z -> Measure.LineSurface;
  patch : E -> list (option Tiles.VNode) -> list PatchOp;
  committed : list (option Tiles.VNode) -> E -> E
}.

Arguments displayLayer {E}.
Arguments getApproximateScreenLineCount {E}.
Arguments populateSpatialIndexIfNeeded {E}.
Arguments getApproximateLongestScreenRow {E}.
Arguments screenLineForScreenRow {E}.
Arguments getScreenLine {E}.
Arguments getScreenLines {E}.
Arguments lineLengthForScreenRow {E}.
Arguments setVisible {E}.
Arguments findMarkers {E}.
Arguments getLastCursorMarker {E}.
Arguments scrollerOffsetHeight {E}.
Arguments scrollerOffsetWidth {E}.
Arguments scrollerScrollTop {E}.
Arguments scrollerScrollLeft {E}.
Arguments characterMeasurementLineHeight {E}.
Arguments normalWidthCharacterWidth {E}.
Arguments doubleWidthCharacterSpanWidth {E}.
Arguments halfWidthCharacterSpanWidth {E}.
Arguments lineNumberGutterOffsetWidth {E}.
Arguments lineOffsetWidth {E}.
Arguments lineSurface {E}.
Arguments patch {E}.
Arguments committed {E}.

(** A promise: whether it is fulfilled, and the continuations waiting for
    it. *)
Record PromiseCell := {
  fulfilled : bool;
  reactions : list nat
}.

(** The component together with its collaborators' state and the runtime:
    the events so far, the promises created, and the continuations queued
    to run once the current call has returned. *)
Record World (E : Type) := {
  comp : Component;
  ext : E;
  trace : list Event;
  promises : list PromiseCell;
  microtasks : list nat
}.

Arguments comp {E}.
Arguments ext {E}.
Arguments trace {E}.
Arguments promises {E}.
Arguments microtasks {E}.

(** Computations of the component: they read and change the world, and may
    throw. *)
Definition M (E A : Type) : Type := World E -> option (A * World E).

Definition ret {E A} (a : A) : M E A := fun w => Some (a, w).

Definition bind {E A B} (m : M E A) (k : A -> M E B) : M E B :=
  fun w => match m w with
           | Some (a, w') => k a w'
           | None => None
           end.

Definition throw {E A} : M E A := fun _ => None.

Notation "'let*' x ':=' m 'in' k" := (bind m (fun x => k))
  (at level 10, x name, m at level 100, k at level 200).

Fixpoint forEach {E A} (f : A -> M E unit) (l : list A) : M E unit :=
  match l with
  | [] => ret tt
  | a :: rest => let* _ := f a in forEach f rest
  end.

Section Editor.

Context {E : Type} (H : Host E).

(** The constant [ZERO_WIDTH_NBSP], which the file uses without
    declaring it. *)
Variable ZERO_WIDTH_NBSP : jsstring.

Definition getComp : M E Component := fun w => Some (comp w, w).

Definition getExt : M E E := fun w => Some (ext w, w).

Definition modifyComp (f : Component -> Component) : M E unit :=
  fun w => Some (tt, {| comp := f (comp w); ext := ext w;
                        trace := trace w; promises := promises w;
                        microtasks := microtasks w |}).

Definition modifyExt (f : E -> E) : M E unit :=
  fun w => Some (tt, {| comp := comp w; ext := f (ext w);
                        trace := trace w; promises := promises w;
                        microtasks := microtasks w |}).

Definition emit (e : Event) : M E unit :=
  fun w => Some (tt, {| comp := comp w; ext := ext w;
                        trace := trace w ++ [e]; promises := promises w;
                        microtasks := microtasks w |}).

(** *** Promises and the scheduler of the runtime *)

(** [new Promise(...)]: a pending promise without continuations. *)
Definition newPromise : M E nat :=
  fun w => Some (length (promises w),
                 {| comp := comp w; ext := ext w; trace := trace w;
                    promises := promises w
                                ++ [{| fulfilled := false; reactions := [] |}];
                    microtasks := microtasks w |}).

(** Calling the [resolve] function of promise [p]: the first call
    fulfils the promise and queues its continuations, later calls do
    nothing. *)
Definition resolvePromise (p : nat) : M E unit :=
  fun w =>
    match promises w !! p with
    | Some cell =>
        if fulfilled cell then
          Some (tt, {| comp := comp w; ext := ext w;
                       trace := trace w ++ [EvResolve p];
                       promises := promises w; microtasks := microtasks w |})
        else
          Some (tt, {| comp := comp w; ext := ext w;
                       trace := trace w ++ [EvResolve p];
                       promises := <[p := {| fulfilled := true;
                                             reactions := [] |}]> (promises w);
                       microtasks := microtasks w ++ reactions cell |})
    | None => None
    end.

(** A caller [waiter] does [await p]: its continuation waits for the
    promise, or is queued at once when the promise is fulfilled
    already. *)
Definition awaitPromise (p waiter : nat) : M E unit :=
  fun w =>
    match promises w !! p with
    | Some cell =>
        if fulfilled cell then
          Some (tt, {| comp := comp w; ext := ext w; trace := trace w;
                       promises := promises w;
                       microtasks := microtasks w ++ [waiter] |})
        else
          Some (tt, {| comp := comp w; ext := ext w; trace := trace w;
                       promises := <[p := {| fulfilled := false;
                                             reactions := reactions cell
                                                          ++ [waiter] |}]>
                                     (promises w);
                       microtasks := microtasks w |})
    | None => None
    end.

(** The queued continuations run, in order, when the current call has
    returned; running one is the notification of its caller. *)
Definition runMicrotasks : M E unit :=
  fun w => Some (tt, {| comp := comp w; ext := ext w;
                        trace := trace w ++ map EvNotify (microtasks w);
                        promises := promises w; microtasks := [] |}).

(** One call from the runtime into the component (an event handler, a
    scheduler callback): it runs to its end, then the queued
    continuations run. *)
Definition runTask (task : M E unit) : M E unit :=
  let* _ := task in runMicrotasks.

(** [etch.getScheduler().updateDocument(callback)] *)
Definition updateDocument : M E unit :=
  fun w => Some (tt, {| comp := comp w; ext := ext w;
                        trace := trace w ++ [EvScheduleCallback];
                        promises := promises w; microtasks := microtasks w |}).

(** *** Measurements *)

(** What the planner methods read from [this]; reading a field of absent
    measurements throws. *)
Definition getView : M E Planner.View :=
  let* c := getComp in
  let* e := getExt in
  match measurements c with
  | Some m =>
      ret {| Planner.measurements := m;
             Planner.rowsPerTile := rowsPerTileProp c;
             Planner.approximateScreenLineCount :=
               getApproximateScreenLineCount H e |}
  | None => throw
  end.

Definition measureEditorDimensions : M E bool :=
  let* c := getComp in
  let* e := getExt in
  let* _ := emit EvReadEditorDimensions in
  match measurements c with
  | None => throw
  | Some m =>
      let scrollerHeight' := scrollerOffsetHeight H e in
      let scrollerWidth' := scrollerOffsetWidth H e in
      let heightChanged := negb (Qeq_bool scrollerHeight' (scrollerHeight m)) in
      let widthChanged := negb (Qeq_bool scrollerWidth' (scrollerWidth m)) in
      let m1 := if heightChanged then set_scrollerHeight scrollerHeight' m
                else m in
      let m2 := if widthChanged then set_scrollerWidth scrollerWidth' m1
                else m1 in
      let* _ := modifyComp (set_measurements (Some m2)) in
      ret (heightChanged || widthChanged)
  end.

Definition measureScrollPosition : M E unit :=
  let* c := getComp in
  let* e := getExt in
  let* _ := emit EvReadScrollPosition in
  match measurements c with
  | None => throw
  | Some m =>
      modifyComp
        (set_measurements
           (Some (set_scrollLeft (scrollerScrollLeft H e)
                    (set_scrollTop (scrollerScrollTop H e) m))))
  end.

(** [performInitialMeasurements]: the measurements start empty and the
    four measuring methods fill them; [scrollWidth] is not among the
    fields they set, and [koreanCharacterWidth] is read from [.widt]. *)
Definition performInitialMeasurements : M E unit :=
  let* e := getExt in
  let* _ := emit EvReadEditorDimensions in
  let* _ := emit EvReadScrollPosition in
  let* _ := emit EvReadCharacterDimensions in
  let* _ := emit EvReadGutterDimensions in
  let* _ := modifyComp (set_staleMeasurements
                          (Some {| editorDimensions := false |})) in
  modifyComp
    (set_measurements
       (Some {| scrollTop := scrollerScrollTop H e;
                scrollLeft := scrollerScrollLeft H e;
                scrollerWidth := scrollerOffsetWidth H e;
                scrollerHeight := scrollerOffsetHeight H e;
                lineHeight := characterMeasurementLineHeight H e;
                baseCharacterWidth := normalWidthCharacterWidth H e;
                doubleWidthCharacterWidth := doubleWidthCharacterSpanWidth H e;
                halfWidthCharacterWidth := halfWidthCharacterSpanWidth H e;
                koreanCharacterWidth := None;
                scrollWidth := None;
                lineNumberGutterWidth := lineNumberGutterOffsetWidth H e |})).

(** [measureLongestLineWidth (screenLine)]: the line must exist and be
    registered. *)
Definition measureLongestLineWidth (screenLine : option ScreenLine)
    : M E unit :=
  let* c := getComp in
  let* e := getExt in
  match screenLine, measurements c with
  | Some l, Some m =>
      match lineNodesByScreenLineId c !! id l with
      | Some _ =>
          let* _ := emit (EvReadLongestLineWidth (id l)) in
          modifyComp
            (set_measurements
               (Some (set_scrollWidth (Some (lineOffsetWidth H e (id l))) m)))
      | None => throw
      end
  | _, _ => throw
  end.

(** [getLongestScreenLine] *)
Definition getLongestScreenLine : M E (option ScreenLine) :=
  let* v := getView in
  let renderedEndRow := Planner.longestLinePopulateBound v in
  let* _ := emit (EvPopulateSpatialIndex renderedEndRow) in
  let* _ := modifyExt (populateSpatialIndexIfNeeded H renderedEndRow) in
  let* _ := emit EvQueryLongestScreenRow in
  let* e := getExt in
  ret (screenLineForScreenRow H e (getApproximateLongestScreenRow H e)).

(** *** Rendering and committing *)

(** [pixelLeftForScreenRowAndColumn (row, column)] *)
Definition pixelLeftForScreenRowAndColumn (r c : Z) : M E (option Q) :=
  if c =? 0 then ret (Some 0%Q)
  else
    let* e := getExt in
    let* this := getComp in
    match getScreenLine H e r with
    | None => throw
    | Some screenLine =>
        match horizontalPixelPositionsByScreenLineId this !! id screenLine with
        | None => throw
        | Some positions => ret (positions !! c)
        end
    end.

(** The part of [renderInput] that can throw: the position of the hidden
    input when the editor is focused. *)
Definition renderInput : M E unit :=
  let* this := getComp in
  match focused this, inputScreenPosition this with
  | true, Some p =>
      let* _ := pixelLeftForScreenRowAndColumn (row p) (column p) in ret tt
  | _, _ => ret tt
  end.

(** [render ()], as far as it changes the component or can throw: with
    measurements it renders the input and the tiles (the line number
    gutter allocates an array of the same length as [renderLineTiles]);
    without them it renders the characters to measure. *)
Definition render : M E (list (option Tiles.VNode)) :=
  let* this := getComp in
  match measurements this with
  | None => ret []
  | Some _ =>
      let* v := getView in
      let* _ := renderInput in
      let* e := getExt in
      let screenLines :=
        getScreenLines H e (Planner.getFirstTileStartRow v)
          (Planner.getLastTileStartRow v + Planner.getRowsPerTile v) in
      match Tiles.renderLineTiles v screenLines (longestLineToMeasure this) with
      | None => throw
      | Some r =>
          let* _ := modifyComp (set_longestLineToMeasure r.2) in
          ret r.1
      end
  end.

(** One step of a commit on the line components. *)
Definition applyPatchOp (op : PatchOp) : M E unit :=
  match op with
  | Construct screenLine =>
      match LineComponent.construct ZERO_WIDTH_NBSP (displayLayer H) screenLine with
      | None => throw
      | Some r =>
          modifyComp (fun this =>
            let regs := LineComponent.register screenLine r
                          (lineNodesByScreenLineId this,
                           textNodesByScreenLineId this) in
            set_textNodesByScreenLineId regs.2
              (set_lineNodesByScreenLineId regs.1 this))
      end
  | Destroy screenLine =>
      modifyComp (fun this =>
        let regs := LineComponent.destroy screenLine
                      (lineNodesByScreenLineId this,
                       textNodesByScreenLineId this) in
        set_textNodesByScreenLineId regs.2
          (set_lineNodesByScreenLineId regs.1 this))
  end.

(** [etch.updateSync (this)]: render, then let the diffing mechanism
    bring the surface in line with the description. *)
Definition etchUpdateSync : M E unit :=
  let* tiles := render in
  let* e := getExt in
  let* _ := forEach applyPatchOp (patch H e tiles) in
  let* _ := modifyExt (committed H tiles) in
  let* this := getComp in
  emit (EvCommit tiles (cursorsToRender this)).

(** *** Cursors *)

(** The body of the loop of [queryCursorsToRender] for one marker: the
    measurements it requests and the entry it stores. *)
Definition queryCursor (e : E) (cursorMarker : Marker)
    (pending : list (Z * list Z)) : list (Z * list Z) * CursorToRender :=
  let position := headScreenPosition cursorMarker in
  let pending1 :=
    Measure.requestHorizontalMeasurement (row position) (column position)
      pending in
  let atText := column position <? lineLengthForScreenRow H e (row position) in
  let pending2 :=
    if atText
    then Measure.requestHorizontalMeasurement (row position)
           (column position + 1) pending1
    else pending1 in
  (pending2,
   {| screenPosition := position;
      columnWidth := if atText then 1 else 0;
      pixelTop := Some 0%Q; pixelLeft := Some 0%Q; pixelWidth := Some 0%Q |}).

Fixpoint queryCursors (e : E) (cursorMarkers : list Marker)
    (lastCursorMarker : Z) (pending : list (Z * list Z))
    (input : option Point)
    : list (Z * list Z) * list CursorToRender * option Point :=
  match cursorMarkers with
  | [] => (pending, [], input)
  | cursorMarker :: rest =>
      let q := queryCursor e cursorMarker pending in
      let input' :=
        if markerId cursorMarker =? lastCursorMarker
        then Some (headScreenPosition cursorMarker) else input in
      let r := queryCursors e rest lastCursorMarker q.1 input' in
      (r.1.1, q.2 :: r.1.2, r.2)
  end.

Definition queryCursorsToRender : M E unit :=
  let* v := getView in
  let* e := getExt in
  let* this := getComp in
  let startRow := Planner.getRenderedStartRow v in
  let endRow := Planner.getRenderedEndRow v - 1 in
  let* _ := emit (EvFindMarkers startRow endRow) in
  let r := queryCursors e (findMarkers H e startRow endRow)
             (getLastCursorMarker H e)
             (horizontalPositionsToMeasure this) None in
  modifyComp (fun this =>
    set_inputScreenPosition r.2
      (set_cursorsToRender r.1.2
         (set_horizontalPositionsToMeasure r.1.1 this))).

(** The body of the loop of [measureHorizontalPositions] for one row.
    The line's positions map is created when it is missing; a line
    without registered text nodes makes the column loop throw. *)
Definition measureRow (entry : Z * list Z) : M E unit :=
  let columnsToMeasure := Measure.sortColumns entry.2 in
  let* e := getExt in
  let* this := getComp in
  match getScreenLine H e entry.1 with
  | None => throw
  | Some screenLine =>
      let positionsForLine :=
        default ∅ (horizontalPixelPositionsByScreenLineId this
                   !! id screenLine) in
      match textNodesByScreenLineId this !! id screenLine with
      | None =>
          match columnsToMeasure with
          | [] =>
              modifyComp (fun this =>
                set_horizontalPixelPositionsByScreenLineId
                  (<[id screenLine := positionsForLine]>
                     (horizontalPixelPositionsByScreenLineId this))
                  this)
          | _ :: _ => throw
          end
      | Some textNodes =>
          let r := Measure.measureHorizontalPositionsOnLine
                     (lineSurface H e (id screenLine)) textNodes
                     columnsToMeasure positionsForLine in
          let* _ := forEach
                      (fun q => emit (EvSurfaceQuery (id screenLine) q))
                      r.2 in
          modifyComp (fun this =>
            set_horizontalPixelPositionsByScreenLineId
              (<[id screenLine := r.1]>
                 (horizontalPixelPositionsByScreenLineId this))
              this)
      end
  end.

(** [measureHorizontalPositions]: every row with requests, in the order
    the rows were first requested; the arrays of columns stay sorted. *)
Definition measureHorizontalPositions : M E unit :=
  let* this := getComp in
  let* _ := modifyComp
              (set_horizontalPositionsToMeasure
                 (map (fun entry => (entry.1, Measure.sortColumns entry.2))
                    (horizontalPositionsToMeasure this))) in
  forEach measureRow (horizontalPositionsToMeasure this).

Definition pixelTopForScreenRow (m : Measurements) (r : Z) : Q :=
  (inject_Z r * lineHeight m)%Q.

(** The body of the loop of [positionCursorsToRender]. *)
Definition positionCursor (m : Measurements) (cursorToRender : CursorToRender)
    : M E CursorToRender :=
  let r := row (screenPosition cursorToRender) in
  let c := column (screenPosition cursorToRender) in
  let pixelTop' := pixelTopForScreenRow m r in
  let* pixelLeft' := pixelLeftForScreenRowAndColumn r c in
  let* pixelRight :=
    if columnWidth cursorToRender =? 0 then ret pixelLeft'
    else pixelLeftForScreenRowAndColumn r (c + 1) in
  ret {| screenPosition := screenPosition cursorToRender;
         columnWidth := columnWidth cursorToRender;
         pixelTop := Some pixelTop';
         pixelLeft := pixelLeft';
         pixelWidth := jsMinus pixelRight pixelLeft' |}.

Fixpoint positionCursors (m : Measurements) (cursors : list CursorToRender)
    : M E (list CursorToRender) :=
  match cursors with
  | [] => ret []
  | cursorToRender :: rest =>
      let* positioned := positionCursor m cursorToRender in
      let* others := positionCursors m rest in
      ret (positioned :: others)
  end.

Definition positionCursorsToRender : M E unit :=
  let* this := getComp in
  match measurements this with
  | None => throw
  | Some m =>
      let* cursors := positionCursors m (cursorsToRender this) in
      modifyComp (set_cursorsToRender cursors)
  end.

(** *** The update cycle and what triggers it *)

(** [longestLine !== this.previousLongestLine]: screen lines are compared
    by identity, which their [id] stands for. *)
Definition sameScreenLine (a b : option ScreenLine) : bool :=
  match a, b with
  | Some x, Some y => id x =? id y
  | None, None => true
  | _, _ => false
  end.

Definition updateSync : M E unit :=
  let* _ := modifyComp (set_updateScheduled false) in
  let* this := getComp in
  let* _ :=
    match nextUpdatePromise this with
    | Some _ =>
        match resolveNextUpdatePromise this with
        | Some p =>
            let* _ := resolvePromise p in
            modifyComp (fun this =>
              set_resolveNextUpdatePromise None
                (set_nextUpdatePromise None this))
        | None => throw
        end
    | None => ret tt
    end in
  let* this := getComp in
  let* stale :=
    match staleMeasurements this with
    | Some stale => ret stale
    | None => throw
    end in
  let* _ :=
    if editorDimensions stale
    then let* _ := measureEditorDimensions in ret tt
    else ret tt in
  let* longestLine := getLongestScreenLine in
  let* this := getComp in
  let measureLongestLine :=
    negb (sameScreenLine longestLine (previousLongestLine this)) in
  let* _ :=
    if measureLongestLine
    then modifyComp (fun this =>
           set_previousLongestLine longestLine
             (set_longestLineToMeasure longestLine this))
    else ret tt in
  let* _ := modifyComp (set_horizontalPositionsToMeasure []) in
  let* _ := etchUpdateSync in
  let* _ :=
    if measureLongestLine then measureLongestLineWidth longestLine
    else ret tt in
  let* _ := queryCursorsToRender in
  let* _ := measureHorizontalPositions in
  let* _ := positionCursorsToRender in
  etchUpdateSync.

(** The callback [scheduleUpdate] hands to the scheduler. *)
Definition scheduledUpdate : M E unit :=
  let* this := getComp in
  if updateScheduled this then updateSync else ret tt.

Definition scheduleUpdate : M E unit :=
  let* this := getComp in
  if updatedSynchronously this then updateSync
  else if negb (updateScheduled this)
       then let* _ := modifyComp (set_updateScheduled true) in
            updateDocument
       else ret tt.

(** [update (props)] *)
Definition update (rowsPerTile : option Z) : M E unit :=
  let* _ := modifyComp (set_rowsPerTileProp rowsPerTile) in
  scheduleUpdate.

Definition didShow : M E unit :=
  let* this := getComp in
  if negb (visible this) then
    let* _ := modifyComp (set_visible true) in
    let* _ := emit (EvSetModelVisible true) in
    let* _ := modifyExt (setVisible H true) in
    let* _ := match measurements this with
              | None => performInitialMeasurements
              | Some _ => ret tt
              end in
    updateSync
  else ret tt.

Definition didHide : M E unit :=
  let* this := getComp in
  if visible this then
    let* _ := modifyComp (set_visible false) in
    let* _ := emit (EvSetModelVisible false) in
    modifyExt (setVisible H false)
  else ret tt.

Definition didFocusHiddenInput : M E unit :=
  let* this := getComp in
  if negb (focused this) then
    let* _ := modifyComp (set_focused true) in
    scheduleUpdate
  else ret tt.

(** [didBlurHiddenInput (event)]; [toEditor] tells whether the focus
    went to the editor element itself. *)
Definition didBlurHiddenInput (toEditor : bool) : M E unit :=
  if negb toEditor then
    let* _ := modifyComp (set_focused false) in
    scheduleUpdate
  else ret tt.

Definition didScroll : M E unit :=
  let* _ := measureScrollPosition in
  updateSync.

Definition didResize : M E unit :=
  let* changed := measureEditorDimensions in
  if changed then scheduleUpdate else ret tt.

(** The selection model's change notification, which [observeModel]
    subscribes [scheduleUpdate] to. *)
Definition didUpdateSelections : M E unit := scheduleUpdate.

Definition getNextUpdatePromise : M E nat :=
  let* this := getComp in
  match nextUpdatePromise this with
  | Some p => ret p
  | None =>
      let* p := newPromise in
      let* _ := modifyComp (fun this =>
                  set_resolveNextUpdatePromise (Some p)
                    (set_nextUpdatePromise (Some p) this)) in
      ret p
  end.

End Editor.

(** ** Vocabulary for the properties of the update cycle *)

Definition isCommit (e : Event) : bool :=
  match e with EvCommit _ _ => true | _ => false end.

Definition isNotify (e : Event) : bool :=
  match e with EvNotify _ => true | _ => false end.

(** The runtime's promises and queue and the component's handle on its
    promise are the same in both worlds. *)
Definition sameRuntime {E} (w w' : World E) : Prop :=
  promises w' = promises w
  /\ microtasks w' = microtasks w
  /\ nextUpdatePromise (comp w') = nextUpdatePromise (comp w)
  /\ resolveNextUpdatePromise (comp w') = resolveNextUpdatePromise (comp w).

(** A computation that leaves the runtime alone (its promises, its queue
    and the component's handle on its promise), notifies nobody and
    commits [n] times. *)
Definition Emits {E A} (n : nat) (m : M E A) : Prop :=
  forall w a w', m w = Some (a, w') ->
    sameRuntime w w'
    /\ exists evs, trace w' = trace w ++ evs
                   /\ Forall (fun e => isNotify e = false) evs
                   /\ length (filter (fun e => isCommit e = true) evs) = n.

(** The component's handle on its promise names a pending promise, and its
    resolver is that promise's. *)
Definition handleConsistent {E} (w : World E) : Prop :=
  match nextUpdatePromise (comp w) with
  | Some p =>
      resolveNextUpdatePromise (comp w) = Some p
      /\ exists waiting,
           promises w !! p = Some {| fulfilled := false; reactions := waiting |}
  | None => True
  end.

(** A caller does [await component.getNextUpdatePromise()]. *)
Definition awaitNextUpdate {E} (waiter : nat) : M E unit :=
  let* p := getNextUpdatePromise in awaitPromise p waiter.

(** The events [w'] has beyond those of [w]. *)
Definition newEvents {E} (w w' : World E) : list Event :=
  drop (length (trace w)) (trace w').

(** A computation that never drops a line from the horizontal position
    cache. *)
Definition KeepsCache {E A} (m : M E A) : Prop :=
  forall w a w', m w = Some (a, w') ->
    dom (horizontalPixelPositionsByScreenLineId (comp w))
    ⊆ dom (horizontalPixelPositionsByScreenLineId (comp w')).

(** A computation whose last event, when it returns, is a commit. *)
Definition EndsWithCommit {E A} (m : M E A) : Prop :=
  forall w a w', m w = Some (a, w') ->
    exists evs tiles cursors, trace w' = evs ++ [EvCommit tiles cursors].

(** ** Vocabulary for the cursor geometry *)


(** The offset the component knows for a column of a row: 0 for column 0,
    else what the cache holds for the row's line. *)
Definition cachedOffset {E} (H : Host E) (w : World E) (r c : Z) : option Q :=
  if c =? 0 then Some 0%Q
  else match getScreenLine H (ext w) r with
       | Some screenLine =>
           match horizontalPixelPositionsByScreenLineId (comp w)
                 !! id screenLine with
           | Some positions => positions !! c
           | None => None
           end
       | None => None
       end.








(** ** Vocabulary for the frames *)

(** The screen lines a tile shows: those of its rows among the lines
    fetched for the frame, which start at the first tile. *)
Definition linesOfTile (v : Planner.View) (screenLines : list ScreenLine)
    (tileStartRow : Z) : list ScreenLine :=
  take (Z.to_nat (Planner.getRowsPerTile v))
    (drop (Z.to_nat (tileStartRow - Planner.getFirstTileStartRow v)) screenLines).

(** The fetched screen lines that fall into the tiles of the frame. *)
Definition renderedScreenLines (v : Planner.View)
    (screenLines : list ScreenLine) : list ScreenLine :=
  take (Z.to_nat (Planner.getVisibleTileCount v * Planner.getRowsPerTile v))
    screenLines.

(** [l] is one of [lines]; screen lines are compared by their [id]. *)
Definition isAmong (l : ScreenLine) (lines : list ScreenLine) : bool :=
  existsb (fun screenLine => id screenLine =? id l) lines.

(** [longestLineToMeasure] once [lines] have been rendered. *)
Definition stillToMeasure (lines : list ScreenLine)
    (longest : option ScreenLine) : option ScreenLine :=
  match longest with
  | Some l => if isAmong l lines then None else Some l
  | None => None
  end.

(** ** The line number gutter *)

Module Gutter.

(** What [renderLineNumberGutter] asks the model. *)
Record LineNumbers := {
  getLineCount : Z;
  bufferRowForScreenRow : Z -> Z;
  isFoldableAtBufferRow : Z -> bool
}.

Definition NBSP_CHARACTER : jsstring := [160].

(** ['•'] *)
Definition BULLET : jsstring := [8226].

(** ['line-number'] and [' foldable'] *)
Definition LINE_NUMBER : jsstring :=
  [108; 105; 110; 101; 45; 110; 117; 109; 98; 101; 114].

Definition FOLDABLE : jsstring := [32; 102; 111; 108; 100; 97; 98; 108; 101].

(** The decimal digits of a natural number, the most significant first.
    [fuel] bounds the number of digits. *)
Fixpoint digitsOf (fuel : nat) (n : Z) : jsstring :=
  match fuel with
  | O => []
  | S fuel' =>
      (if n <? 10 then [] else digitsOf fuel' (n / 10)) ++ [48 + n mod 10]
  end.

(** [n.toString()] for an integer [n] (below the size at which JavaScript
    switches to the exponent notation): a number has at most as many
    decimal digits as binary ones. *)
Definition numberToString (n : Z) : jsstring :=
  if n <? 0 then 45 :: digitsOf (S (Z.to_nat (Z.log2 (- n)))) (- n)
  else digitsOf (S (Z.to_nat (Z.log2 n))) n.

(** [s.repeat(count)]: a negative count is a [RangeError]. *)
Definition stringRepeat (s : jsstring) (count : Z) : option jsstring :=
  if count <? 0 then None else Some (concat (replicate (Z.to_nat count) s)).

(** [Math.max(2, this.getModel().getLineCount().toString().length)] *)
Definition maxLineNumberDigits (g : LineNumbers) : Z :=
  Z.max 2 (Z.of_nat (length (numberToString (getLineCount g)))).

(** One [div] of a tile of the gutter: its class and its text. *)
Record LineNumberNode := {
  className : jsstring;
  lineNumber : jsstring
}.

(** The inner loop,
    [for (row = tileStartRow;
          row < currentTileEndRow && row <= approximateLastScreenRow; row++)]:
    the nodes of the tile and [previousBufferRow] when the loop is left. *)
Fixpoint lineNumberNodesFrom (g : LineNumbers) (fuel : nat)
    (row currentTileEndRow approximateLastScreenRow previousBufferRow : Z)
    : option (list LineNumberNode * Z) :=
  match fuel with
  | O => Some ([], previousBufferRow)
  | S fuel' =>
      if (row <? currentTileEndRow) && (row <=? approximateLastScreenRow) then
        let bufferRow := bufferRowForScreenRow g row in
        let foldable := isFoldableAtBufferRow g bufferRow in
        let softWrapped := bufferRow =? previousBufferRow in
        let className :=
          if softWrapped then LINE_NUMBER
          else if foldable then LINE_NUMBER ++ FOLDABLE else LINE_NUMBER in
        let lineNumber :=
          if softWrapped then BULLET else numberToString (bufferRow + 1) in
        match stringRepeat NBSP_CHARACTER
                (maxLineNumberDigits g - Z.of_nat (length lineNumber)) with
        | None => None
        | Some padding =>
            match lineNumberNodesFrom g fuel' (row + 1) currentTileEndRow
                    approximateLastScreenRow bufferRow with
            | None => None
            | Some r =>
                Some ({| className := className;
                         lineNumber := padding ++ lineNumber |} :: r.1, r.2)
            end
        end
      else Some ([], previousBufferRow)
  end.

(** A tile of the gutter: its style and its line numbers. *)
Record GutterTile := {
  tileStartRow : Z;
  tileHeight : Q;
  tileWidth : Q;
  translateY : Q;
  lineNumberNodes : list LineNumberNode
}.

(** The body of the outer loop for one tile; the state is the array
    [children] and [previousBufferRow]. *)
Definition renderGutterTile (v : Planner.View) (g : LineNumbers)
    (acc : option (list (option GutterTile) * Z)) (tileStartRow : Z)
    : option (list (option GutterTile) * Z) :=
  match acc with
  | None => None
  | Some (children, previousBufferRow) =>
      let rows := Planner.getRowsPerTile v in
      match lineNumberNodesFrom g (Z.to_nat rows) tileStartRow
              (tileStartRow + rows)
              (Planner.approximateScreenLineCount v - 1)
              previousBufferRow with
      | None => None
      | Some r =>
          let tile :=
            {| tileStartRow := tileStartRow;
               tileHeight :=
                 (inject_Z rows * lineHeight (Planner.measurements v))%Q;
               tileWidth := lineNumberGutterWidth (Planner.measurements v);
               translateY := Tiles.topPixelPositionForRow v tileStartRow;
               lineNumberNodes := r.1 |} in
          Some (if Planner.getVisibleTileCount v =? 0 then children
                else Tiles.arraySet (Planner.tileIndex v tileStartRow) tile
                       children,
                r.2)
      end
  end.

(** The children of the gutter: the tiles, or before the first
    measurements a line of zeros to measure the gutter with. *)
Inductive GutterChildren :=
| GutterTiles (children : list (option GutterTile))
| GutterPlaceholder (text : jsstring).

(** [renderLineNumberGutter ()]; [measured] is the planner's view when
    [this.measurements] exists. *)
Definition renderLineNumberGutter (measured : option Planner.View)
    (g : LineNumbers) : option GutterChildren :=
  match measured with
  | Some v =>
      match Tiles.newArray (Planner.getVisibleTileCount v) with
      | None => None
      | Some children =>
          let firstTileStartRow := Planner.getFirstTileStartRow v in
          let previousBufferRow :=
            if 0 <? firstTileStartRow
            then bufferRowForScreenRow g (firstTileStartRow - 1) else -1 in
          match fold_left (renderGutterTile v g) (Planner.tileStartRows v)
                  (Some (children, previousBufferRow)) with
          | None => None
          | Some r => Some (GutterTiles r.1)
          end
      end
  | None =>
      match stringRepeat [48] (maxLineNumberDigits g) with
      | None => None
      | Some zeros => Some (GutterPlaceholder zeros)
      end
  end.

(** The buffer row of the screen row before [row], and -1 before the
    first one: the value of [previousBufferRow] when the loop reaches
    [row]. *)
Definition bufferRowBefore (g : LineNumbers) (row : Z) : Z :=
  if 0 <? row then bufferRowForScreenRow g (row - 1) else -1.

(** The node the gutter shows for a screen row. *)
Definition lineNumberNodeFor (g : LineNumbers) (row : Z) : LineNumberNode :=
  let bufferRow := bufferRowForScreenRow g row in
  let softWrapped := bufferRow =? bufferRowBefore g row in
  let label := if softWrapped then BULLET else numberToString (bufferRow + 1) in
  {| className :=
       if softWrapped then LINE_NUMBER
       else if isFoldableAtBufferRow g bufferRow
            then LINE_NUMBER ++ FOLDABLE else LINE_NUMBER;
     lineNumber :=
       replicate (Z.to_nat (maxLineNumberDigits g - Z.of_nat (length label)))
         160
       ++ label |}.

(** The label of a row fits when the row's buffer row is one of the
    model's lines. *)
Definition numbered (g : LineNumbers) (row : Z) : Prop :=
  0 <= bufferRowForScreenRow g row < getLineCount g.

(** The tile of the gutter that starts at a row. *)
Definition gutterTileFor (v : Planner.View) (g : LineNumbers) (T : Z)
    : GutterTile :=
  {| tileStartRow := T;
     tileHeight :=
       (inject_Z (Planner.getRowsPerTile v)
        * lineHeight (Planner.measurements v))%Q;
     tileWidth := lineNumberGutterWidth (Planner.measurements v);
     translateY := Tiles.topPixelPositionForRow v T;
     lineNumberNodes :=
       lineNumberNodeFor g
       <$> seqZ T (Z.max 0 (Z.min (T + Planner.getRowsPerTile v)
                              (Planner.approximateScreenLineCount v) - T)) |}.

End Gutter.

(** ** Vocabulary for rendered lines *)











(** [classNameForScopeName] with its table [classNamesByScopeName]: a
    scope name that is in the table gets the string stored for it, a new
    one is computed and stored. *)
Definition classNameForScopeNameIn (classNamesByScopeName : gmap jsstring jsstring)
    (scopeName : jsstring) : jsstring * gmap jsstring jsstring :=
  match classNamesByScopeName !! scopeName with
  | Some classString => (classString, classNamesByScopeName)
  | None =>
      let classString := LineComponent.replaceDotRuns false scopeName in
      (classString, <[scopeName := classString]> classNamesByScopeName)
  end.

(** Every entry of the table is what [classNameForScopeName] computes. *)
Definition tableSound (classNamesByScopeName : gmap jsstring jsstring) : Prop :=
  forall scopeName classString,
    classNamesByScopeName !! scopeName = Some classString ->
    classString = LineComponent.classNameForScopeName scopeName.

(** ** Vocabulary for the measurement of a line *)

(** The text node a column falls in, the first one that ends at or after
    the column, and the offset of the column in it.  [index] and
    [startColumn] are those of the first of [textNodes]. *)
Fixpoint locateColumn (textNodes : list jsstring) (index : nat)
    (startColumn column : Z) : option (nat * Z) :=
  match textNodes with
  | [] => None
  | textNode :: rest =>
      let endColumn := startColumn + Z.of_nat (length textNode) in
      if column <=? endColumn then Some (index, column - startColumn)
      else locateColumn rest (S index) endColumn column
  end.

(** The position a measurement of a column gives: 0 for column 0, else
    the right edge of the range from the start of the column's text
    node to the column, from the left edge of the line. *)
Definition measuredPosition (surf : Measure.LineSurface)
    (textNodes : list jsstring) (column : Z) : option Q :=
  if column =? 0 then
    match textNodes with
    | [] => None
    | _ :: _ => Some 0%Q
    end
  else
    match locateColumn textNodes 0 0 column with
    | Some (index, offset) =>
        Some (Measure.rangeClientRight surf index 0 offset
              - Measure.lineClientLeft surf)%Q
    | None => None
    end.

(** A range read that starts at 0 and ends inside its text node, after at
    least one code unit. *)
Definition inBounds (textNodes : list jsstring) (q : Measure.Query) : Prop :=
  match q with
  | Measure.RangeQuery index startOffset endOffset =>
      startOffset = 0
      /\ exists textNode,
           textNodes !! index = Some textNode
           /\ 0 < endOffset <= Z.of_nat (length textNode)
  | Measure.LineRectQuery => True
  end.

Definition isRangeQuery (q : Measure.Query) : bool :=
  match q with
  | Measure.RangeQuery _ _ _ => true
  | Measure.LineRectQuery => false
  end.

(** The state of a measurement pass over [textNodes] is in step with the
    text nodes it has passed, all of which end before [lowest], the least
    column still to come; it has read the left edge of the line when it
    has a value for it; and its reads so far are in bounds. *)
Definition scanInStep (surf : Measure.LineSurface) (textNodes : list jsstring)
    (lowest : Z) (s : Measure.Scan) : Prop :=
  exists passed,
    textNodes = passed ++ Measure.nodesLeft s
    /\ length passed = Measure.textNodesIndex s
    /\ Measure.textNodeStartColumn s = Measure.textLength passed
    /\ (passed = [] \/ Measure.textNodeStartColumn s < lowest)
    /\ (Qeq_bool (Measure.lineNodeClientLeft s) (-1) = false ->
        Measure.lineNodeClientLeft s = Measure.lineClientLeft surf)
    /\ Forall (inBounds textNodes) (Measure.queries s).

(** The number of range reads among the reads of a pass. *)
Definition rangeReads (queries : list Measure.Query) : nat :=
  length (filter (fun q => isRangeQuery q = true) queries).

(** ** The other entry points of the component *)

(** [getScrollTop ()], [getScrollLeft ()] and [getBaseCharacterWidth ()]:
    [null] before the first measurements. *)
Definition getScrollTop (this : Component) : option Q :=
  match measurements this with
  | Some m => Some (scrollTop m)
  | None => None
  end.

Definition getScrollLeft (this : Component) : option Q :=
  match measurements this with
  | Some m => Some (scrollLeft m)
  | None => None
  end.

Definition getBaseCharacterWidth (this : Component) : option Q :=
  match measurements this with
  | Some m => Some (baseCharacterWidth m)
  | None => None
  end.

(** [isVisible ()] for an element of the given [offsetWidth] and
    [offsetHeight]. *)
Definition isVisible (offsetWidth offsetHeight : Q) : bool :=
  negb (Qle_bool offsetWidth 0) || negb (Qle_bool offsetHeight 0).

Section Handlers.

Context {E : Type} (H : Host E).
Variable ZERO_WIDTH_NBSP : jsstring.

(** The constructor: the fields are initialised and the component is
    rendered once, without measurements. *)
Definition constructed (rowsPerTile : option Z) (e : E)
    : option (unit * World E) :=
  etchUpdateSync H ZERO_WIDTH_NBSP
    {| comp := newComponent rowsPerTile; ext := e; trace := [];
       promises := []; microtasks := [] |}.

(** The callback [didAttach] gives the intersection observer: the last
    entry decides; [entries] are the widths and heights of the
    intersection rectangles.  Without an entry the destructuring throws. *)
Definition intersectionObserved (entries : list (Q * Q)) : M E unit :=
  match last entries with
  | None => throw
  | Some intersectionRect =>
      if negb (Qle_bool intersectionRect.1 0)
         || negb (Qle_bool intersectionRect.2 0)
      then didShow H ZERO_WIDTH_NBSP
      else didHide H
  end.

(** [didAttach ()], for an element of the given size. *)
Definition didAttach (offsetWidth offsetHeight : Q) : M E unit :=
  if isVisible offsetWidth offsetHeight then didShow H ZERO_WIDTH_NBSP
  else ret tt.

(** The position [renderInput] gives the hidden input, [top] and [left]:
    the cursor's position, kept inside the viewport, when the editor is
    focused and has an input position, and else the corner of the
    viewport.  [left] is [None] when it is [NaN], which it is when the
    column has no measured position. *)
Definition renderInputPosition : M E (Q * option Q) :=
  let* this := getComp in
  match measurements this with
  | None => throw
  | Some m =>
      match focused this, inputScreenPosition this with
      | true, Some p =>
          let maxTop := (scrollTop m + scrollerHeight m - lineHeight m)%Q in
          let maxLeft := (scrollLeft m + scrollerWidth m)%Q in
          let top :=
            Qmax (scrollTop m) (Qmin maxTop (pixelTopForScreenRow m (row p))) in
          let* pixelLeft :=
            pixelLeftForScreenRowAndColumn H (row p) (column p) in
          ret (top,
               match pixelLeft with
               | Some x => Some (Qmax (scrollLeft m) (Qmin maxLeft x))
               | None => None
               end)
      | _, _ => ret (scrollTop m, Some (scrollLeft m))
      end
  end.

(** What can happen to a component: a call of one of its handlers, or a
    change of its collaborators. *)
Inductive Action :=
| Update (rowsPerTile : option Z)
| DidAttach (offsetWidth offsetHeight : Q)
| IntersectionObserved (entries : list (Q * Q))
| DidShow
| DidHide
| DidFocusHiddenInput
| DidBlurHiddenInput (toEditor : bool)
| DidScroll
| DidResize
| DidUpdateSelections
| ScheduledUpdate
| AwaitNextUpdate (waiter : nat)
| Elsewhere (change : E -> E).

Definition handler (a : Action) : M E unit :=
  match a with
  | Update rowsPerTile => update H ZERO_WIDTH_NBSP rowsPerTile
  | DidAttach offsetWidth offsetHeight => didAttach offsetWidth offsetHeight
  | IntersectionObserved entries => intersectionObserved entries
  | DidShow => didShow H ZERO_WIDTH_NBSP
  | DidHide => didHide H
  | DidFocusHiddenInput => didFocusHiddenInput H ZERO_WIDTH_NBSP
  | DidBlurHiddenInput toEditor => didBlurHiddenInput H ZERO_WIDTH_NBSP toEditor
  | DidScroll => didScroll H ZERO_WIDTH_NBSP
  | DidResize => didResize H ZERO_WIDTH_NBSP
  | DidUpdateSelections => didUpdateSelections H ZERO_WIDTH_NBSP
  | ScheduledUpdate => scheduledUpdate H ZERO_WIDTH_NBSP
  | AwaitNextUpdate waiter => awaitNextUpdate waiter
  | Elsewhere change => modifyExt change
  end.

(** A handler runs as one call from the runtime: to its end, and then the
    continuations it has queued. *)
Definition perform (a : Action) : M E unit := runTask (handler a).

(** The worlds a component can be in when no handler is running: the one
    its constructor leaves, and those that handlers that returned have
    led to. *)
Inductive Reachable : World E -> Prop :=
| reachable_constructed (rowsPerTile : option Z) (e : E) (w : World E) :
    constructed rowsPerTile e = Some (tt, w) -> Reachable w
| reachable_step (a : Action) (w w' : World E) :
    Reachable w -> perform a w = Some (tt, w') -> Reachable w'.

End Handlers.

(** ** Vocabulary for the handlers *)

(** The measurements an update cycle does not take again. *)
Definition sameMeasured (m m' : option Measurements) : Prop :=
  match m, m' with
  | Some a, Some b =>
      scrollTop b = scrollTop a
      /\ scrollLeft b = scrollLeft a
      /\ lineHeight b = lineHeight a
      /\ baseCharacterWidth b = baseCharacterWidth a
      /\ doubleWidthCharacterWidth b = doubleWidthCharacterWidth a
      /\ halfWidthCharacterWidth b = halfWidthCharacterWidth a
      /\ koreanCharacterWidth b = koreanCharacterWidth a
      /\ lineNumberGutterWidth b = lineNumberGutterWidth a
  | None, None => True
  | _, _ => False
  end.

(** Every cached line has 0 for column 0, when it has it. *)
Definition cacheZeroed (c : Component) : Prop :=
  forall lineId positions,
    horizontalPixelPositionsByScreenLineId c !! lineId = Some positions ->
    Measure.zeroAtZero positions.

(** The two registries name the same lines, and every registered line has
    a text node. *)
Definition registered (c : Component) : Prop :=
  dom (lineNodesByScreenLineId c) = dom (textNodesByScreenLineId c)
  /\ forall lineId textNodes,
       textNodesByScreenLineId c !! lineId = Some textNodes ->
       textNodes <> [].

(** What the steps of an update cycle leave of the component: its flags
    and properties, the measurements they do not take, and the soundness
    of the cache and the registries; they may clear [updateScheduled]. *)
Definition steady (c c' : Component) : Prop :=
  visible c' = visible c
  /\ focused c' = focused c
  /\ rowsPerTileProp c' = rowsPerTileProp c
  /\ updatedSynchronously c' = updatedSynchronously c
  /\ staleMeasurements c' = staleMeasurements c
  /\ (updateScheduled c' = true -> updateScheduled c = true)
  /\ sameMeasured (measurements c) (measurements c')
  /\ (cacheZeroed c -> cacheZeroed c')
  /\ (registered c -> registered c').

(** The events an update cycle does not cause. *)
Definition outsideCycle (e : Event) : bool :=
  match e with
  | EvScheduleCallback | EvNotify _ | EvSetModelVisible _
  | EvReadScrollPosition | EvReadCharacterDimensions
  | EvReadGutterDimensions => true
  | _ => false
  end.

(** A computation that changes the component along [R] only and causes no
    event of the class [P]. *)
Definition Respects {E A} (R : Component -> Component -> Prop)
    (P : Event -> bool) (m : M E A) : Prop :=
  forall w a w', m w = Some (a, w') ->
    R (comp w) (comp w')
    /\ exists evs, trace w' = trace w ++ evs
                   /\ Forall (fun e => P e = false) evs.

(** The visibility the model was told last; it starts hidden. *)
Definition lastVisibility (events : list Event) : bool :=
  fold_left (fun shown e =>
               match e with
               | EvSetModelVisible visible => visible
               | _ => shown
               end) events false.

Definition isSetModelVisible (e : Event) : bool :=
  match e with EvSetModelVisible _ => true | _ => false end.

Definition isInitialRead (e : Event) : bool :=
  match e with
  | EvReadCharacterDimensions | EvReadGutterDimensions => true
  | _ => false
  end.

Definition isScheduleCallback (e : Event) : bool :=
  match e with EvScheduleCallback => true | _ => false end.

(** What the handlers keep of the component: its [visible] flag is what
    the model was told last; a visible component has measurements; the
    record of stale measurements is there exactly when the measurements
    are, and marks nothing stale; no line is left to be measured; the
    handle on the next-update promise is sound; and so are the cache and
    the registries. *)
Definition settled {E} (w : World E) : Prop :=
  visible (comp w) = lastVisibility (trace w)
  /\ (visible (comp w) = true -> is_Some (measurements (comp w)))
  /\ staleMeasurements (comp w)
     = match measurements (comp w) with
       | Some _ => Some {| editorDimensions := false |}
       | None => None
       end
  /\ updatedSynchronously (comp w) = false
  /\ longestLineToMeasure (comp w) = None
  /\ handleConsistent w
  /\ cacheZeroed (comp w)
  /\ registered (comp w).

(** What holds of a component between two handler calls: it is settled
    and no continuation is left in the queue. *)
Definition consistent {E} (w : World E) : Prop :=
  settled w /\ microtasks w = [].

Definition isReadLongestLineWidth (e : Event) : bool :=
  match e with EvReadLongestLineWidth _ => true | _ => false end.

(** What the steps of an update cycle other than
    [measureLongestLineWidth] leave of the component: its measurements and
    the longest line it remembers. *)
Definition keepsMeasured (c c' : Component) : Prop :=
  measurements c' = measurements c
  /\ previousLongestLine c' = previousLongestLine c.

(** ** A small editor to try the definitions on *)

Module Examples.

Definition exampleMeasurements (top height : Q) : Measurements :=
  {| scrollTop := top; scrollLeft := 0; scrollerWidth := 300;
     scrollerHeight := height; lineHeight := 20; baseCharacterWidth := 8;
     doubleWidthCharacterWidth := 16; halfWidthCharacterWidth := 4;
     koreanCharacterWidth := None; scrollWidth := None;
     lineNumberGutterWidth := 40 |}.

(** A view with lines of 20 pixels and tiles of [rows] rows. *)
Definition exampleView (top height : Q) (rows total : Z) : Planner.View :=
  {| Planner.measurements := exampleMeasurements top height;
     Planner.rowsPerTile := Some rows;
     Planner.approximateScreenLineCount := total |}.

(** Ten rows high, at the top of a document of 100 rows. *)
Definition viewAtTop : Planner.View := exampleView 0 200 6 100.

(** The same view scrolled to row 7. *)
Definition viewAtRow7 : Planner.View := exampleView 140 200 6 100.

(** Six rows high, in a document of 20 rows: at the top, and scrolled to
    the end. *)
Definition shortViewAtTop : Planner.View := exampleView 0 120 6 20.
Definition shortViewAtEnd : Planner.View := exampleView 280 120 6 20.

Definition FOLD : jsstring := [8943].
Definition ZWNBSP : jsstring := [65279].

(** Row 0 is ["ab"] in a scope followed by a fold marker, row 3 is empty,
    the other rows are ["hello"]. *)
Definition exampleLine (r : Z) : ScreenLine :=
  if r =? 0 then
    {| id := 0; lineText := [97; 98; 8943]; tagCodes := [-1; 2; -2; 1] |}
  else if r =? 3 then
    {| id := 3; lineText := []; tagCodes := [] |}
  else
    {| id := r; lineText := [104; 101; 108; 108; 111]; tagCodes := [5] |}.

Definition exampleLines : list ScreenLine :=
  map exampleLine (seqZ 0 30).

Definition exampleDisplayLayer : DisplayLayer :=
  {| isCloseTagCode := fun code => (code <? 0) && Z.even code;
     isOpenTagCode := fun code => (code <? 0) && Z.odd code;
     tagForCode := fun _ => [115; 46; 46; 116];
     foldCharacter := FOLD |}.

Definition lineAt (r : Z) : option ScreenLine :=
  if r <? 0 then None else exampleLines !! Z.to_nat r.

(** Two cursors: one at the end of row 1, one inside row 2. *)
Definition exampleMarkers : list Marker :=
  [ {| markerId := 1; headScreenPosition := {| row := 1; column := 5 |} |};
    {| markerId := 2; headScreenPosition := {| row := 2; column := 1 |} |} ].

(** Every character is 8 pixels wide and lines start 40 pixels from the
    left. *)
Definition exampleSurface : Measure.LineSurface :=
  {| Measure.lineClientLeft := 40;
     Measure.rangeClientLeft := fun _ a _ => (40 + 8 * inject_Z a)%Q;
     Measure.rangeClientRight := fun _ _ b => (40 + 8 * inject_Z b)%Q |}.

Definition frameLines (tileNodes : list (option Tiles.VNode))
    : list ScreenLine :=
  flat_map (fun node =>
              match node with
              | Some (Tiles.VTile tile) => Tiles.lineNodes tile
              | Some (Tiles.VLine screenLine) => [screenLine]
              | None => []
              end) tileNodes.

(** The state of the collaborators is the row up to which the spatial
    index is populated.  The diffing mechanism of this host builds every
    line of a frame anew. *)
Definition exampleHost : Host Z :=
  {| displayLayer := exampleDisplayLayer;
     getApproximateScreenLineCount := fun _ => 30;
     populateSpatialIndexIfNeeded := fun maxRow e => Z.max e maxRow;
     getApproximateLongestScreenRow := fun _ => 1;
     screenLineForScreenRow := fun _ r => lineAt r;
     getScreenLine := fun _ r => lineAt r;
     getScreenLines := fun _ startRow endRow =>
       take (Z.to_nat (endRow - startRow)) (drop (Z.to_nat startRow) exampleLines);
     lineLengthForScreenRow := fun _ r =>
       Z.of_nat (length (lineText (exampleLine r)));
     setVisible := fun _ e => e;
     findMarkers := fun _ startRow endRow =>
       List.filter (fun marker =>
                      (startRow <=? row (headScreenPosition marker))
                      && (row (headScreenPosition marker) <=? endRow))
         exampleMarkers;
     getLastCursorMarker := fun _ => 2;
     scrollerOffsetHeight := fun _ => 200%Q;
     scrollerOffsetWidth := fun _ => 300%Q;
     scrollerScrollTop := fun _ => 0%Q;
     scrollerScrollLeft := fun _ => 0%Q;
     characterMeasurementLineHeight := fun _ => 20%Q;
     normalWidthCharacterWidth := fun _ => 8%Q;
     doubleWidthCharacterSpanWidth := fun _ => 16%Q;
     halfWidthCharacterSpanWidth := fun _ => 4%Q;
     lineNumberGutterOffsetWidth := fun _ => 40%Q;
     lineOffsetWidth := fun _ _ => 40%Q;
     lineSurface := fun _ _ => exampleSurface;
     patch := fun _ tileNodes => map Construct (frameLines tileNodes);
     committed := fun _ e => e |}.

(** The world a computation leaves, or the world it started in when it
    throws. *)
Definition worldAfter {A} (m : M Z A) (w : World Z) : World Z :=
  match m w with
  | Some (_, w') => w'
  | None => w
  end.

Definition newWorld : World Z :=
  {| comp := newComponent (Some 6); ext := 0; trace := [];
     promises := []; microtasks := [] |}.

(** The editor has been shown. *)
Definition shownWorld : World Z :=
  worldAfter (didShow exampleHost ZWNBSP) newWorld.

(** Caller 7 awaits the next update. *)
Definition awaitingWorld : World Z :=
  worldAfter (awaitNextUpdate 7) shownWorld.

Definition updatedWorld : World Z :=
  worldAfter (runTask (updateSync exampleHost ZWNBSP)) awaitingWorld.

(** The view the planner has of the shown editor. *)
Definition shownView : Planner.View :=
  match getView exampleHost shownWorld with
  | Some (v, _) => v
  | None => viewAtTop
  end.

(** The longest screen line is asked for. *)
Definition longestQueriedWorld : World Z :=
  worldAfter (getLongestScreenLine exampleHost) shownWorld.


(** A selection change schedules an update, then the editor is hidden, and
    then the scheduler runs the callback. *)
Definition scheduledWorld : World Z :=
  worldAfter (didUpdateSelections exampleHost ZWNBSP) shownWorld.

Definition hiddenWorld : World Z :=
  worldAfter (didHide exampleHost) scheduledWorld.

Definition hiddenUpdatedWorld : World Z :=
  worldAfter (scheduledUpdate exampleHost ZWNBSP) hiddenWorld.

(** Row 1 scrolls away and its line component is destroyed; later the
    editor updates. *)
Definition evictedWorld : World Z :=
  worldAfter (applyPatchOp exampleHost ZWNBSP (Destroy (exampleLine 1)))
    shownWorld.

Definition evictedUpdatedWorld : World Z :=
  worldAfter (updateSync exampleHost ZWNBSP) evictedWorld.


(** The view of ten rows scrolled far past the end of a document of 20
    rows. *)
Definition viewPastTheEnd : Planner.View := exampleView 1000 200 6 20.

(** A model of 15 lines, every one wrapped into two screen rows; the lines
    with an even row can be folded. *)
Definition exampleLineNumbers : Gutter.LineNumbers :=
  {| Gutter.getLineCount := 15;
     Gutter.bufferRowForScreenRow := fun r => r / 2;
     Gutter.isFoldableAtBufferRow := Z.even |}.

(** The view of ten rows at row 7 of the 30 screen rows of that model. *)
Definition wrappedView : Planner.View := exampleView 140 200 6 30.

(** The text nodes of a line of two runs, ["ab"] and ["cde"]. *)
Definition exampleTextNodes : list jsstring := [[97; 98]; [99; 100; 101]].

(** The editor as its constructor leaves it. *)
Definition constructedWorld : World Z :=
  match constructed exampleHost ZWNBSP (Some 6) 0 with
  | Some (_, w) => w
  | None => newWorld
  end.

(** The constructed editor is shown by a call from the runtime. *)
Definition firstShownWorld : World Z :=
  worldAfter (perform exampleHost ZWNBSP DidShow) constructedWorld.

(** The shown editor updates once more. *)
Definition reupdatedWorld : World Z :=
  worldAfter (updateSync exampleHost ZWNBSP) shownWorld.

(** The shown editor is scrolled, and it is resized. *)
Definition scrolledWorld : World Z :=
  worldAfter (didScroll exampleHost ZWNBSP) shownWorld.

Definition resizedWorld : World Z :=
  worldAfter (didResize exampleHost ZWNBSP) shownWorld.

(** The hidden input of the shown editor gets the focus. *)
Definition focusedWorld : World Z :=
  worldAfter (didFocusHiddenInput exampleHost ZWNBSP) shownWorld.

(** The measurements of the shown editor: the longest line has been
    measured. *)
Definition shownMeasurements : Measurements :=
  set_scrollWidth (Some 40%Q) (exampleMeasurements 0 200).

(** Row 1 after an edit: a new screen line with the id of the old one,
    built in a new editor. *)
Definition editedLine : ScreenLine :=
  {| id := 1; lineText := [120]; tagCodes := [1] |}.

Definition rebuiltWorld : World Z :=
  worldAfter (applyPatchOp exampleHost ZWNBSP (Construct editedLine)) newWorld.

End Examples.

(** * Properties *)

Section PlannerFacts.
Import Planner.

Lemma tileLoop_seqZ (step : Z) (Hstep : 0 < step) :
  forall fuel t last,
    (Z.to_nat (last - t + 1) <= fuel)%nat ->
    tileLoop fuel t last step
    = (fun k => t + k * step) <$> seqZ 0 ((last - t) / step + 1).
Proof.
  induction fuel as [|fuel IH]; intros t last Hfuel; simpl.
  - rewrite seqZ_nil; [reflexivity|].
    assert ((last - t) / step < 0) by (apply Z.div_lt_upper_bound; lia). lia.
  - destruct (Z.leb_spec t last) as [Hle|Hgt].
    + assert (Hq : 0 <= (last - t) / step) by (apply Z.div_pos; lia).
      rewrite seqZ_cons by lia. rewrite fmap_cons. f_equal; [lia|].
      rewrite IH by lia.
      replace (Z.succ 0) with (1 + 0) by lia.
      rewrite <- fmap_add_seqZ, <- list_fmap_compose.
      replace ((last - (t + step)) / step + 1) with (Z.pred ((last - t) / step + 1)).
      * apply list_fmap_ext. intros _ k _. simpl. lia.
      * replace (last - (t + step)) with ((last - t) + (-1) * step) by lia.
        rewrite Z.div_add by lia. lia.
    + rewrite seqZ_nil; [reflexivity|].
      assert ((last - t) / step < 0) by (apply Z.div_lt_upper_bound; lia). lia.
Qed.

Lemma tileStartRows_seqZ (v : View) :
  0 < getRowsPerTile v ->
  tileStartRows v
  = (fun k => getFirstTileStartRow v + k * getRowsPerTile v)
      <$> seqZ 0 (getVisibleTileCount v).
Proof.
  intros Hr. unfold tileStartRows. rewrite tileLoop_seqZ by lia.
  unfold getLastTileStartRow. f_equal. f_equal.
  replace (getFirstTileStartRow v + (getVisibleTileCount v - 1) * getRowsPerTile v
           - getFirstTileStartRow v)
    with ((getVisibleTileCount v - 1) * getRowsPerTile v) by lia.
  rewrite Z.div_mul by lia. lia.
Qed.

Lemma elem_of_tileStartRows (v : View) (T : Z) :
  0 < getRowsPerTile v ->
  T ∈ tileStartRows v
  <-> exists k, 0 <= k < getVisibleTileCount v
                /\ T = getFirstTileStartRow v + k * getRowsPerTile v.
Proof.
  intros Hr. rewrite tileStartRows_seqZ by assumption.
  rewrite list_elem_of_fmap. split.
  - intros (k & -> & Hk). apply elem_of_seqZ in Hk. exists k. lia.
  - intros (k & Hk & ->). exists k. split; [reflexivity|].
    apply elem_of_seqZ. lia.
Qed.

(** The tile a row starts in. *)
Lemma getTileStartRow_quot (v : View) (r : Z) :
  0 < getRowsPerTile v ->
  getTileStartRow v r = getRowsPerTile v * Z.quot r (getRowsPerTile v).
Proof.
  intros Hr. unfold getTileStartRow.
  pose proof (Z.quot_rem' r (getRowsPerTile v)). lia.
Qed.

Lemma getTileStartRow_nonneg (v : View) (r : Z) :
  0 < getRowsPerTile v -> 0 <= r ->
  getTileStartRow v r = getRowsPerTile v * (r / getRowsPerTile v)
  /\ getTileStartRow v r <= r < getTileStartRow v r + getRowsPerTile v.
Proof.
  intros Hr H0. unfold getTileStartRow.
  rewrite Z.rem_mod_nonneg by lia.
  pose proof (Z.mod_pos_bound r (getRowsPerTile v) Hr).
  pose proof (Z_div_mod_eq_full r (getRowsPerTile v)). lia.
Qed.

Lemma getTileStartRow_neg (v : View) (r : Z) :
  0 < getRowsPerTile v -> r < 0 ->
  r <= getTileStartRow v r <= 0.
Proof.
  intros Hr H0. unfold getTileStartRow.
  assert (Hrem : Z.rem r (getRowsPerTile v)
                 = - ((- r) mod getRowsPerTile v)).
  { replace r with (- (- r)) at 1 by lia.
    rewrite Z.rem_opp_l', Z.rem_mod_nonneg by lia. reflexivity. }
  rewrite Hrem.
  pose proof (Z.mod_pos_bound (- r) (getRowsPerTile v) Hr).
  pose proof (Z_div_mod_eq_full (- r) (getRowsPerTile v)).
  assert (0 <= (- r) / getRowsPerTile v) by (apply Z.div_pos; lia).
  nia.
Qed.

Lemma firstTile_bounds (v : View) :
  0 < getRowsPerTile v ->
  (0 <= getFirstVisibleRow v ->
     0 <= getFirstTileStartRow v <= getFirstVisibleRow v)
  /\ (getFirstVisibleRow v < 0 ->
       getFirstVisibleRow v <= getFirstTileStartRow v <= 0)
  /\ getFirstVisibleRow v < getFirstTileStartRow v + getRowsPerTile v.
Proof.
  intros Hr. unfold getFirstTileStartRow.
  destruct (Z_lt_le_dec (getFirstVisibleRow v) 0) as [Hneg|Hpos].
  - pose proof (getTileStartRow_neg v _ Hr Hneg). lia.
  - pose proof (getTileStartRow_nonneg v _ Hr Hpos) as [He Hb].
    assert (0 <= getFirstVisibleRow v / getRowsPerTile v)
      by (apply Z.div_pos; lia).
    nia.
Qed.

Lemma lastVisibleRow_before_renderedEnd (v : View) :
  0 < getRowsPerTile v ->
  getLastVisibleRow v < getRenderedEndRow v.
Proof.
  intros Hr. unfold getRenderedEndRow, getVisibleTileCount.
  pose proof (firstTile_bounds v Hr) as (_ & _ & Hlt).
  pose proof (Z.mod_pos_bound (getLastVisibleRow v - getFirstVisibleRow v) _ Hr).
  pose proof (Z_div_mod_eq_full (getLastVisibleRow v - getFirstVisibleRow v)
                (getRowsPerTile v)).
  nia.
Qed.

(** C1: every row between the first and the last visible row lies in
    exactly one of the tiles whose start rows the tile loop visits, and
    therefore in the rendered range from [getRenderedStartRow] up to, not
    including, [getRenderedEndRow]. *)
Theorem visible_row_in_exactly_one_tile (v : View) (R : Z) :
  wellFormed v ->
  0 <= R ->
  getFirstVisibleRow v <= R <= getLastVisibleRow v ->
  (exists T,
      T ∈ tileStartRows v
      /\ T <= R < T + getRowsPerTile v
      /\ forall T', T' ∈ tileStartRows v ->
                    T' <= R < T' + getRowsPerTile v -> T' = T)
  /\ getRenderedStartRow v <= R < getRenderedEndRow v.
Proof.
  intros [_ Hr] H0 [Hfirst Hlast].
  pose proof (firstTile_bounds v Hr) as (Hpos & Hneg & _).
  pose proof (lastVisibleRow_before_renderedEnd v Hr) as Hend.
  assert (Hstart : getFirstTileStartRow v <= R) by lia.
  split; [|unfold getRenderedStartRow; lia].
  set (k := (R - getFirstTileStartRow v) / getRowsPerTile v).
  pose proof (Z.mod_pos_bound (R - getFirstTileStartRow v) _ Hr) as Hm.
  pose proof (Z_div_mod_eq_full (R - getFirstTileStartRow v)
                (getRowsPerTile v)) as Hd.
  fold k in Hd.
  assert (Hk0 : 0 <= k) by (apply Z.div_pos; lia).
  exists (getFirstTileStartRow v + k * getRowsPerTile v).
  split; [|split].
  - apply elem_of_tileStartRows; [assumption|]. exists k.
    split; [|reflexivity]. unfold getRenderedEndRow in Hend. nia.
  - lia.
  - intros T' HT' Hin.
    apply elem_of_tileStartRows in HT' as (k' & _ & ->); [|assumption].
    assert (k' = k) by nia. subst k'. reflexivity.
Qed.

Lemma Qdiv_nonneg (a b : Q) : (0 <= a)%Q -> (0 < b)%Q -> (0 <= a / b)%Q.
Proof.
  intros Ha Hb. apply Qle_shift_div_l; [assumption|].
  rewrite Qmult_0_l. assumption.
Qed.

Lemma firstVisibleRow_nonneg (v : View) :
  wellFormed v -> (0 <= scrollTop (measurements v))%Q ->
  0 <= getFirstVisibleRow v.
Proof.
  intros [Hl _] Ht. unfold getFirstVisibleRow.
  change 0 with (Qfloor 0). apply Qfloor_resp_le, Qdiv_nonneg; assumption.
Qed.

Lemma lastVisibleRow_lower (v : View) :
  wellFormed v -> nonNegative v -> -1 <= getLastVisibleRow v.
Proof.
  intros Hwf (Ht & Hh & Hc).
  pose proof (firstVisibleRow_nonneg v Hwf Ht).
  destruct Hwf as [Hl _]. unfold getLastVisibleRow.
  assert (0 <= Qceiling (scrollerHeight (measurements v)
                         / lineHeight (measurements v))).
  { change 0 with (Qceiling 0). apply Qceiling_resp_le, Qdiv_nonneg; assumption. }
  lia.
Qed.

Lemma populateBound_bounds (v : View) :
  wellFormed v -> nonNegative v ->
  getLastVisibleRow v < longestLinePopulateBound v <= getRenderedEndRow v.
Proof.
  intros Hwf Hnn.
  pose proof (lastVisibleRow_lower v Hwf Hnn) as Hlv.
  pose proof (firstVisibleRow_nonneg v Hwf (proj1 Hnn)) as Hfv.
  destruct Hwf as [_ Hr].
  unfold longestLinePopulateBound, getRenderedEndRow, getVisibleTileCount,
    getFirstTileStartRow.
  pose proof (getTileStartRow_nonneg v _ Hr Hfv) as [Hf _].
  pose proof (Z.mod_pos_bound (getFirstVisibleRow v) _ Hr).
  pose proof (Z_div_mod_eq_full (getFirstVisibleRow v) (getRowsPerTile v)).
  pose proof (Z.mod_pos_bound (getLastVisibleRow v - getFirstVisibleRow v) _ Hr).
  pose proof (Z_div_mod_eq_full (getLastVisibleRow v - getFirstVisibleRow v)
                (getRowsPerTile v)).
  destruct (Z_lt_le_dec (getLastVisibleRow v) 0) as [Hneg|Hpos].
  - pose proof (getTileStartRow_neg v _ Hr Hneg) as Hb.
    rewrite Hf.
    set (q := getFirstVisibleRow v / getRowsPerTile v) in *.
    set (d := (getLastVisibleRow v - getFirstVisibleRow v) / getRowsPerTile v) in *.
    assert (Hl : getLastVisibleRow v = -1) by lia.
    set (m := getFirstVisibleRow v mod getRowsPerTile v) in *.
    set (m' := (getLastVisibleRow v - getFirstVisibleRow v)
               mod getRowsPerTile v) in *.
    assert (He : getRowsPerTile v * (d + q) = -1 - m - m') by lia.
    assert (Hdq : d + q = -1).
    { destruct (Z_lt_le_dec (d + q) 0) as [Hlt|Hge].
      - destruct (Z_lt_le_dec (-2) (d + q)) as [Hgt|Hle]; [lia|].
        pose proof (Z.mul_le_mono_nonneg_l _ _ (getRowsPerTile v)
                      ltac:(lia) Hle). lia.
      - pose proof (Z.mul_nonneg_nonneg (getRowsPerTile v) (d + q)
                      ltac:(lia) Hge). lia. }
    split; [lia|]. nia.
  - pose proof (getTileStartRow_nonneg v _ Hr Hpos) as [Hl Hb].
    pose proof (Z.mod_pos_bound (getLastVisibleRow v) _ Hr).
    pose proof (Z_div_mod_eq_full (getLastVisibleRow v) (getRowsPerTile v)).
    rewrite Hf, Hl. split; [lia|].
    set (q := getFirstVisibleRow v / getRowsPerTile v) in *.
    set (d := (getLastVisibleRow v - getFirstVisibleRow v) / getRowsPerTile v) in *.
    set (ql := getLastVisibleRow v / getRowsPerTile v) in *.
    assert (Hq : ql - q - d <= 1).
    { destruct (Z_lt_le_dec (ql - q - d) 2) as [Hlt|Hge]; [lia|].
      pose proof (Z.mul_le_mono_nonneg_l _ _ (getRowsPerTile v)
                    ltac:(lia) Hge). lia. }
    nia.
Qed.

(** Slots. *)
Lemma tileIndex_of_tile (v : View) (k : Z) :
  0 < getRowsPerTile v -> 0 <= getFirstVisibleRow v ->
  0 <= k -> 0 < getVisibleTileCount v ->
  tileIndex v (getFirstTileStartRow v + k * getRowsPerTile v)
  = (getFirstVisibleRow v / getRowsPerTile v + k) mod getVisibleTileCount v.
Proof.
  intros Hr Hfv Hk Hn. unfold tileIndex, getFirstTileStartRow.
  pose proof (getTileStartRow_nonneg v _ Hr Hfv) as [-> _].
  assert (0 <= getFirstVisibleRow v / getRowsPerTile v)
    by (apply Z.div_pos; lia).
  replace (getRowsPerTile v * (getFirstVisibleRow v / getRowsPerTile v)
           + k * getRowsPerTile v)
    with ((getFirstVisibleRow v / getRowsPerTile v + k) * getRowsPerTile v)
    by lia.
  rewrite Z.quot_mul by lia.
  apply Z.rem_mod_nonneg; lia.
Qed.

Lemma mod_shift_inj (q n k k' : Z) :
  0 < n -> 0 <= k < n -> 0 <= k' < n ->
  (q + k) mod n = (q + k') mod n -> k = k'.
Proof.
  intros Hn Hk Hk' He.
  pose proof (Z_div_mod_eq_full (q + k) n).
  pose proof (Z_div_mod_eq_full (q + k') n).
  assert (Hd : k - k' = n * ((q + k) / n - (q + k') / n)) by lia.
  destruct (Z.eq_dec ((q + k) / n) ((q + k') / n)) as [Heq|Hne]; [lia|].
  exfalso.
  destruct (Z_lt_le_dec ((q + k) / n - (q + k') / n) 0) as [Hlt|Hge].
  - assert (Hle : (q + k) / n - (q + k') / n <= -1) by lia.
    pose proof (Z.mul_le_mono_nonneg_l _ _ n ltac:(lia) Hle). lia.
  - assert (Hle : 1 <= (q + k) / n - (q + k') / n) by lia.
    pose proof (Z.mul_le_mono_nonneg_l _ _ n ltac:(lia) Hle). lia.
Qed.

Lemma tileIndex_range (v : View) (T : Z) :
  0 < getRowsPerTile v -> 0 <= getFirstVisibleRow v ->
  T ∈ tileStartRows v ->
  0 <= tileIndex v T < getVisibleTileCount v.
Proof.
  intros Hr Hfv HT.
  apply elem_of_tileStartRows in HT as (k & Hk & ->); [|assumption].
  rewrite tileIndex_of_tile by lia.
  apply Z.mod_pos_bound. lia.
Qed.

Lemma tileIndex_NoDup (v : View) :
  0 < getRowsPerTile v -> 0 <= getFirstVisibleRow v ->
  NoDup (tileIndex v <$> tileStartRows v).
Proof.
  intros Hr Hfv. apply NoDup_fmap_2_strong.
  - intros T T' HT HT' He.
    apply elem_of_tileStartRows in HT as (k & Hk & ->); [|assumption].
    apply elem_of_tileStartRows in HT' as (k' & Hk' & ->); [|assumption].
    rewrite !tileIndex_of_tile in He by lia.
    apply mod_shift_inj in He; [subst; reflexivity|lia..].
  - rewrite tileStartRows_seqZ by assumption.
    apply NoDup_fmap_2_strong; [|apply NoDup_seqZ].
    intros k k' _ _ He. nia.
Qed.

Lemma tileIndex_onto (v : View) (i : Z) :
  0 < getRowsPerTile v -> 0 <= getFirstVisibleRow v ->
  0 <= i < getVisibleTileCount v ->
  exists T, T ∈ tileStartRows v /\ tileIndex v T = i.
Proof.
  intros Hr Hfv Hi.
  set (q := getFirstVisibleRow v / getRowsPerTile v).
  set (k := (i - q) mod getVisibleTileCount v).
  assert (Hk : 0 <= k < getVisibleTileCount v) by (apply Z.mod_pos_bound; lia).
  exists (getFirstTileStartRow v + k * getRowsPerTile v). split.
  - apply elem_of_tileStartRows; [assumption|]. exists k. auto.
  - rewrite tileIndex_of_tile by lia. fold q. unfold k.
    rewrite Z.add_mod_idemp_r by lia.
    replace (q + (i - q)) with i by lia. apply Z.mod_small. lia.
Qed.
End PlannerFacts.

Section TilesFacts.
Import Planner Tiles.

Lemma arrayGet_arraySet_eq {A} (i : Z) (x : A) (arr : list (option A)) :
  0 <= i < Z.of_nat (length arr) ->
  arrayGet i (arraySet i x arr) = Some x.
Proof.
  intros Hi. unfold arrayGet, arraySet.
  destruct (Z.ltb_spec i 0); [lia|].
  destruct (Nat.ltb_spec (Z.to_nat i) (length arr)); [|lia].
  rewrite list_lookup_insert_eq by assumption. reflexivity.
Qed.

Lemma arrayGet_arraySet_ne {A} (i j : Z) (x : A) (arr : list (option A)) :
  0 <= i < Z.of_nat (length arr) -> i <> j ->
  arrayGet j (arraySet i x arr) = arrayGet j arr.
Proof.
  intros Hi Hne. unfold arrayGet, arraySet.
  destruct (Z.ltb_spec i 0); [lia|].
  destruct (Nat.ltb_spec (Z.to_nat i) (length arr)); [|lia].
  destruct (Z.ltb_spec j 0); [reflexivity|].
  rewrite list_lookup_insert_ne by lia. reflexivity.
Qed.

Lemma length_arraySet {A} (i : Z) (x : A) (arr : list (option A)) :
  0 <= i < Z.of_nat (length arr) ->
  length (arraySet i x arr) = length arr.
Proof.
  intros Hi. unfold arraySet.
  destruct (Z.ltb_spec i 0); [lia|].
  destruct (Nat.ltb_spec (Z.to_nat i) (length arr)); [|lia].
  apply length_insert.
Qed.

Lemma arrayGet_app_l {A} (i : Z) (arr more : list (option A)) :
  i < Z.of_nat (length arr) ->
  arrayGet i (arr ++ more) = arrayGet i arr.
Proof.
  intros Hi. unfold arrayGet.
  destruct (Z.ltb_spec i 0); [reflexivity|].
  rewrite lookup_app_l by lia. reflexivity.
Qed.

(** What the outer loop of [renderLineTiles] leaves in the array when the
    slots of the tiles are distinct and inside it. *)
Lemma fold_renderTile_slots (v : View) (screenLines : list ScreenLine) :
  getVisibleTileCount v <> 0 ->
  forall (rows : list Z) (acc : list (option VNode) * option ScreenLine),
    (forall T, T ∈ rows -> 0 <= tileIndex v T < Z.of_nat (length acc.1)) ->
    NoDup (tileIndex v <$> rows) ->
    let r := fold_left (renderTile v screenLines) rows acc in
    length r.1 = length acc.1
    /\ (forall T, T ∈ rows ->
          exists tile, arrayGet (tileIndex v T) r.1 = Some (VTile tile)
                       /\ tileStartRow tile = T
                       /\ key tile = tileIndex v T)
    /\ (forall i, i ∉ tileIndex v <$> rows -> arrayGet i r.1 = arrayGet i acc.1).
Proof.
  intros Hn. induction rows as [|T0 rows IH]; intros acc Hin Hnd; simpl.
  - split; [reflexivity|]. split; [|reflexivity].
    intros T HT. inversion HT.
  - rewrite fmap_cons in Hnd. apply NoDup_cons in Hnd as [Hnot Hnd].
    assert (Hin0 : 0 <= tileIndex v T0 < Z.of_nat (length acc.1))
      by (apply Hin; left).
    set (acc' := renderTile v screenLines acc T0).
    assert (Hacc' : acc'.1 = arraySet (tileIndex v T0)
              (VTile {| key := tileIndex v T0; tileStartRow := T0;
                        tileHeight := (inject_Z (getRowsPerTile v)
                                       * lineHeight (measurements v))%Q;
                        tileWidth := scrollWidth (measurements v);
                        translateY := topPixelPositionForRow v T0;
                        lineNodes := (tileLines (Z.to_nat (getRowsPerTile v))
                          T0 (T0 + getRowsPerTile v) (getFirstTileStartRow v)
                          screenLines acc.2).1 |}) acc.1).
    { unfold acc', renderTile. simpl.
      destruct (Z.eqb_spec (getVisibleTileCount v) 0); [contradiction|].
      reflexivity. }
    assert (Hlen : length acc'.1 = length acc.1)
      by (rewrite Hacc'; apply length_arraySet; assumption).
    destruct (IH acc') as (HL & Hslots & Hrest).
    { intros T HT. rewrite Hlen. apply Hin. right. assumption. }
    { assumption. }
    split; [congruence|]. split.
    + intros T HT. apply elem_of_cons in HT as [->|HT].
      * rewrite Hrest by assumption. rewrite Hacc'.
        rewrite arrayGet_arraySet_eq by assumption.
        eexists. split; [reflexivity|]. split; reflexivity.
      * apply Hslots. assumption.
    + intros i Hi. try rewrite fmap_cons in Hi.
      apply not_elem_of_cons in Hi as [Hne Hi].
      rewrite Hrest by assumption. rewrite Hacc'.
      apply arrayGet_arraySet_ne; [assumption|congruence].
Qed.

(** The frame [renderLineTiles] produces: one tile in every slot. *)
Lemma renderLineTiles_slots (v : View) (screenLines : list ScreenLine)
    (longest : option ScreenLine) :
  0 < getRowsPerTile v -> 0 <= getFirstVisibleRow v ->
  0 <= getVisibleTileCount v ->
  exists r,
    renderLineTiles v screenLines longest = Some r
    /\ (forall T, T ∈ tileStartRows v ->
          exists tile, arrayGet (tileIndex v T) r.1 = Some (VTile tile)
                       /\ tileStartRow tile = T
                       /\ key tile = tileIndex v T).
Proof.
  intros Hr Hfv Hn. unfold renderLineTiles, newArray.
  destruct (Z.ltb_spec (getVisibleTileCount v) 0); [lia|].
  destruct (Z.eq_dec (getVisibleTileCount v) 0) as [Hz|Hnz].
  - assert (Hrows : tileStartRows v = []).
    { rewrite tileStartRows_seqZ by assumption. rewrite Hz. reflexivity. }
    rewrite Hrows. simpl.
    destruct longest; eexists; (split; [reflexivity|]);
      intros T HT; inversion HT.
  - pose proof (fold_renderTile_slots v screenLines Hnz (tileStartRows v)
                  (replicate (Z.to_nat (getVisibleTileCount v)) None, longest))
      as Hfold.
    simpl in Hfold. rewrite length_replicate in Hfold.
    destruct Hfold as (Hlen & Hslots & _).
    { intros T HT. pose proof (tileIndex_range v T Hr Hfv HT). lia. }
    { apply tileIndex_NoDup; assumption. }
    set (r := fold_left _ _ _) in *.
    destruct r.2 as [l|]; eexists; (split; [reflexivity|]); simpl;
      intros T HT; destruct (Hslots T HT) as (tile & Hget & Hrow & Hkey);
      exists tile; (split; [|split; assumption]).
    + rewrite arrayGet_app_l; [assumption|].
      pose proof (tileIndex_range v T Hr Hfv HT). lia.
    + assumption.
Qed.

Lemma slotStartRow_of_tile (tileNodes : list (option VNode)) (i : Z)
    (tile : TileNode) :
  arrayGet i tileNodes = Some (VTile tile) ->
  slotStartRow tileNodes i = Some (tileStartRow tile).
Proof. intros Hget. unfold slotStartRow. rewrite Hget. reflexivity. Qed.

(** C8, as amended: in every rendered frame the slot indices of the tiles
    are without collisions and are exactly the numbers from 0 up to, not
    including, [getVisibleTileCount], and every such slot of the array
    holds the tile with that index; and [getVisibleTileCount] is the same
    at two scroll positions with the same viewport height, line height and
    tile size whenever at neither of them the last visible row is cut off
    by the end of the document. *)
Theorem tile_count_and_slots (v : View) (screenLines : list ScreenLine)
    (longest : option ScreenLine)
    (r : list (option VNode) * option ScreenLine) :
  wellFormed v ->
  (0 <= scrollTop (measurements v))%Q ->
  renderLineTiles v screenLines longest = Some r ->
  NoDup (tileIndex v <$> tileStartRows v)
  /\ (forall i, i ∈ tileIndex v <$> tileStartRows v
                <-> 0 <= i < getVisibleTileCount v)
  /\ (forall i, 0 <= i < getVisibleTileCount v ->
        exists T, T ∈ tileStartRows v /\ tileIndex v T = i
                  /\ slotStartRow r.1 i = Some T)
  /\ (forall v' : View,
        (scrollerHeight (measurements v') == scrollerHeight (measurements v))%Q ->
        (lineHeight (measurements v') == lineHeight (measurements v))%Q ->
        getRowsPerTile v' = getRowsPerTile v ->
        lastRowNotClamped v -> lastRowNotClamped v' ->
        getVisibleTileCount v' = getVisibleTileCount v).
Proof.
  intros Hwf Htop Hrender.
  pose proof (firstVisibleRow_nonneg v Hwf Htop) as Hfv.
  destruct Hwf as [Hl Hr].
  assert (Hn : 0 <= getVisibleTileCount v).
  { unfold renderLineTiles, newArray in Hrender.
    destruct (Z.ltb_spec (getVisibleTileCount v) 0); [discriminate|lia]. }
  split; [apply tileIndex_NoDup; assumption|]. split; [|split].
  - intros i. split.
    + intros Hi. apply list_elem_of_fmap in Hi as (T & -> & HT).
      apply tileIndex_range; assumption.
    + intros Hi. destruct (tileIndex_onto v i Hr Hfv Hi) as (T & HT & <-).
      apply list_elem_of_fmap. exists T. auto.
  - intros i Hi. destruct (tileIndex_onto v i Hr Hfv Hi) as (T & HT & Hidx).
    exists T. split; [assumption|]. split; [assumption|].
    destruct (renderLineTiles_slots v screenLines longest Hr Hfv Hn)
      as (r' & Hr' & Hslots).
    rewrite Hrender in Hr'. injection Hr' as <-.
    destruct (Hslots T HT) as (tile & Hget & <- & _).
    rewrite <- Hidx. apply slotStartRow_of_tile. assumption.
  - intros v' Hh Hlh Hrows Hc Hc'.
    unfold lastRowNotClamped in *. unfold getVisibleTileCount, getLastVisibleRow.
    rewrite Hrows.
    assert (Hceil : Qceiling (scrollerHeight (measurements v')
                              / lineHeight (measurements v'))
                    = Qceiling (scrollerHeight (measurements v)
                                / lineHeight (measurements v))).
    { apply Qceiling_comp. rewrite Hh, Hlh. reflexivity. }
    rewrite Hceil in *.
    rewrite !Z.min_r by lia. f_equal. f_equal. lia.
Qed.

Lemma Qdiv_scaled (n : Z) (L h : Q) :
  (0 < L)%Q -> (h == inject_Z n * L)%Q -> (h / L == inject_Z n)%Q.
Proof.
  intros HL Hh. rewrite Hh. apply Qdiv_mult_l.
  intros Hz. rewrite Hz in HL. apply (Qlt_irrefl 0). assumption.
Qed.

(** C3, as amended: with line height [L], a viewport of height [10 * L],
    tiles of 6 rows and a long enough document, at [scrollTop = 0] there
    are 3 tiles, starting at rows 0, 6 and 12; once the first visible row
    is 7 the first tile starts at row 6, the tiles start at rows 6, 12
    and 18, and the slot that held the tile of row 0 holds the tile of
    row 18, while the tiles of rows 6 and 12 keep their slots. *)
Theorem ten_row_viewport_tiles (L : Q) (v v' : View)
    (screenLines screenLines' : list ScreenLine)
    (longest longest' : option ScreenLine) :
  (0 < L)%Q ->
  (lineHeight (measurements v) == L)%Q ->
  (scrollerHeight (measurements v) == inject_Z 10 * L)%Q ->
  (scrollTop (measurements v) == 0)%Q ->
  rowsPerTile v = Some 6 ->
  18 <= approximateScreenLineCount v ->
  (lineHeight (measurements v') == L)%Q ->
  (scrollerHeight (measurements v') == inject_Z 10 * L)%Q ->
  rowsPerTile v' = Some 6 ->
  18 <= approximateScreenLineCount v' ->
  getFirstVisibleRow v' = 7 ->
  getVisibleTileCount v = 3
  /\ tileStartRows v = [0; 6; 12]
  /\ getVisibleTileCount v' = 3
  /\ getFirstTileStartRow v' = 6
  /\ tileStartRows v' = [6; 12; 18]
  /\ exists r r',
       renderLineTiles v screenLines longest = Some r
       /\ renderLineTiles v' screenLines' longest' = Some r'
       /\ slotStartRow r.1 0 = Some 0
       /\ slotStartRow r.1 1 = Some 6
       /\ slotStartRow r.1 2 = Some 12
       /\ slotStartRow r'.1 0 = Some 18
       /\ slotStartRow r'.1 1 = Some 6
       /\ slotStartRow r'.1 2 = Some 12.
Proof.
  intros HL Hlh Hsh Htop Hrows Hcount Hlh' Hsh' Hrows' Hcount' Hfirst'.
  assert (Hr : getRowsPerTile v = 6) by (unfold getRowsPerTile; rewrite Hrows; reflexivity).
  assert (Hr' : getRowsPerTile v' = 6) by (unfold getRowsPerTile; rewrite Hrows'; reflexivity).
  assert (Hfirst : getFirstVisibleRow v = 0).
  { unfold getFirstVisibleRow.
    rewrite (Qfloor_comp _ 0); [reflexivity|].
    rewrite Htop. unfold Qdiv. apply Qmult_0_l. }
  assert (Hceil : Qceiling (scrollerHeight (measurements v)
                            / lineHeight (measurements v)) = 10).
  { rewrite (Qceiling_comp _ (inject_Z 10)); [apply Qceiling_Z|].
    rewrite Hlh. apply Qdiv_scaled; assumption. }
  assert (Hceil' : Qceiling (scrollerHeight (measurements v')
                             / lineHeight (measurements v')) = 10).
  { rewrite (Qceiling_comp _ (inject_Z 10)); [apply Qceiling_Z|].
    rewrite Hlh'. apply Qdiv_scaled; assumption. }
  assert (Hlast : getLastVisibleRow v = 10)
    by (unfold getLastVisibleRow; rewrite Hfirst, Hceil; lia).
  assert (Hlast' : getLastVisibleRow v' = 17)
    by (unfold getLastVisibleRow; rewrite Hfirst', Hceil'; lia).
  assert (Hn : getVisibleTileCount v = 3)
    by (unfold getVisibleTileCount; rewrite Hlast, Hfirst, Hr; reflexivity).
  assert (Hn' : getVisibleTileCount v' = 3)
    by (unfold getVisibleTileCount; rewrite Hlast', Hfirst', Hr'; reflexivity).
  assert (Hfts : getFirstTileStartRow v = 0)
    by (unfold getFirstTileStartRow, getTileStartRow; rewrite Hfirst, Hr; reflexivity).
  assert (Hfts' : getFirstTileStartRow v' = 6)
    by (unfold getFirstTileStartRow, getTileStartRow; rewrite Hfirst', Hr'; reflexivity).
  assert (Htiles : tileStartRows v = [0; 6; 12]).
  { unfold tileStartRows, getLastTileStartRow. rewrite Hfts, Hn, Hr. reflexivity. }
  assert (Htiles' : tileStartRows v' = [6; 12; 18]).
  { unfold tileStartRows, getLastTileStartRow. rewrite Hfts', Hn', Hr'. reflexivity. }
  assert (Hidx : forall T, tileIndex v T = Z.rem (Z.quot T 6) 3)
    by (intros T; unfold tileIndex; rewrite Hr, Hn; reflexivity).
  assert (Hidx' : forall T, tileIndex v' T = Z.rem (Z.quot T 6) 3)
    by (intros T; unfold tileIndex; rewrite Hr', Hn'; reflexivity).
  do 5 (split; [assumption|]).
  destruct (renderLineTiles_slots v screenLines longest) as (r & Hrender & Hslots);
    [lia..|].
  destruct (renderLineTiles_slots v' screenLines' longest') as (r' & Hrender' & Hslots');
    [lia..|].
  exists r, r'. do 2 (split; [assumption|]).
  rewrite Htiles in Hslots. rewrite Htiles' in Hslots'.
  assert (Hslot : forall T, T ∈ [0; 6; 12] ->
            slotStartRow r.1 (Z.rem (Z.quot T 6) 3) = Some T).
  { intros T HT. destruct (Hslots T HT) as (tile & Hget & <- & _).
    rewrite <- Hidx. apply slotStartRow_of_tile. assumption. }
  assert (Hslot' : forall T, T ∈ [6; 12; 18] ->
            slotStartRow r'.1 (Z.rem (Z.quot T 6) 3) = Some T).
  { intros T HT. destruct (Hslots' T HT) as (tile & Hget & <- & _).
    rewrite <- Hidx'. apply slotStartRow_of_tile. assumption. }
  split; [apply (Hslot 0); set_solver|].
  split; [apply (Hslot 6); set_solver|].
  split; [apply (Hslot 12); set_solver|].
  split; [apply (Hslot' 18); set_solver|].
  split; [apply (Hslot' 6); set_solver|].
  apply (Hslot' 12); set_solver.
Qed.
End TilesFacts.

Section LineFacts.
Import LineComponent.

Lemma appendToOpenScope_fields (node : DomNode) (w w' : Walk) :
  appendToOpenScope node w = Some w' ->
  startIndex w' = startIndex w /\ textNodes w' = textNodes w.
Proof.
  unfold appendToOpenScope. intros Hw.
  destruct (scopeIsNull w); [discriminate|].
  destruct (openSpans w); injection Hw as <-; split; reflexivity.
Qed.

Lemma walkTag_text_nodes (dl : DisplayLayer) (text : jsstring)
    (w w' : Walk) (code : Z) :
  walkTag dl text w code = Some w' ->
  (startIndex w' = startIndex w /\ textNodes w' = textNodes w)
  \/ (((code =? 0) || isCloseTagCode dl code || isOpenTagCode dl code = false)
      /\ textNodes w' = textNodes w ++ [substr text (startIndex w) code]).
Proof.
  unfold walkTag. intros Hw.
  destruct (code =? 0); [injection Hw as <-; left; split; reflexivity|].
  destruct (isCloseTagCode dl code).
  { left. unfold closeScope in Hw.
    destruct (scopeIsNull w); [discriminate|].
    destruct (openSpans w).
    - injection Hw as <-. split; reflexivity.
    - apply appendToOpenScope_fields in Hw. exact Hw. }
  destruct (isOpenTagCode dl code).
  { left. unfold openScope in Hw.
    destruct (scopeIsNull w); [discriminate|].
    injection Hw as <-. split; reflexivity. }
  right. split; [reflexivity|].
  unfold textRun in Hw.
  destruct (appendToOpenScope _ w); [|discriminate].
  injection Hw as <-. reflexivity.
Qed.

(** A walk that has advanced [startIndex] has registered a text node. *)
Lemma walkTags_text_nodes (dl : DisplayLayer) (text : jsstring)
    (codes : list Z) :
  forall w w',
    walkTags dl text w codes = Some w' ->
    (startIndex w <> 0 -> textNodes w <> []) ->
    (startIndex w' <> 0 -> textNodes w' <> []).
Proof.
  induction codes as [|code codes IH]; intros w w' Hw Hinv; simpl in Hw.
  - injection Hw as <-. assumption.
  - destruct (walkTag dl text w code) as [w1|] eqn:Hstep; [|discriminate].
    apply (IH w1 w' Hw).
    destruct (walkTag_text_nodes _ _ _ _ _ Hstep) as [[Hs Ht]|[_ Ht]].
    + rewrite Hs, Ht. assumption.
    + intros _. rewrite Ht. intros Hnil. apply app_eq_nil in Hnil as [_ Hnil].
      discriminate.
Qed.

Lemma walkTags_noTextRun (dl : DisplayLayer) (text : jsstring)
    (codes : list Z) :
  noTextRun dl codes = true ->
  forall w w',
    walkTags dl text w codes = Some w' ->
    startIndex w' = startIndex w /\ textNodes w' = textNodes w.
Proof.
  induction codes as [|code codes IH]; intros Hno w w' Hw; simpl in *.
  - injection Hw as <-. split; reflexivity.
  - apply andb_prop in Hno as [Hcode Hno].
    destruct (walkTag dl text w code) as [w1|] eqn:Hstep; [|discriminate].
    destruct (IH Hno w1 w' Hw) as [Hs Ht].
    destruct (walkTag_text_nodes _ _ _ _ _ Hstep) as [[Hs1 Ht1]|[Hc _]].
    + split; congruence.
    + rewrite Hc in Hcode. discriminate.
Qed.

Lemma construct_text_nodes (zw : jsstring) (dl : DisplayLayer)
    (screenLine : ScreenLine) (r : Rendered) :
  construct zw dl screenLine = Some r ->
  lineTextNodes r <> []
  /\ (noTextRun dl (tagCodes screenLine) = true ->
      lineTextNodes r
      = SPACE :: (if endsWith (lineText screenLine) (foldCharacter dl)
                  then [zw] else []))
  /\ (endsWith (lineText screenLine) (foldCharacter dl) = true ->
      last (lineTextNodes r) = Some zw
      /\ last (lineChildren r) = Some (TextNode zw)).
Proof.
  unfold construct. intros Hc.
  destruct (walkTags dl (lineText screenLine) _ (tagCodes screenLine))
    as [w|] eqn:Hw; [|discriminate].
  injection Hc as <-. simpl.
  pose proof (walkTags_text_nodes _ _ _ _ _ Hw) as Hinv. simpl in Hinv.
  specialize (Hinv ltac:(intros Hne; exfalso; apply Hne; reflexivity)).
  split; [|split].
  - destruct (endsWith _ _); destruct (Z.eqb_spec (startIndex w) 0); simpl;
      try (intros Hnil; apply app_eq_nil in Hnil as [_ Hnil]; discriminate).
    apply Hinv. assumption.
  - intros Hno.
    destruct (walkTags_noTextRun _ _ _ Hno _ _ Hw) as [Hs Ht].
    simpl in Hs, Ht. rewrite Hs, Ht. simpl.
    destruct (endsWith _ _); reflexivity.
  - intros Hfold. rewrite Hfold. unfold appendToElement. simpl.
    split; apply last_snoc.
Qed.
End LineFacts.

Section MeasureFacts.
Import Measure.
Variable surf : LineSurface.

Lemma scan_eta (s : Scan) :
  {| nodesLeft := nodesLeft s; textNodesIndex := textNodesIndex s;
     textNodeStartColumn := textNodeStartColumn s;
     lineNodeClientLeft := lineNodeClientLeft s;
     positions := positions s; queries := queries s |} = s.
Proof. destruct s. reflexivity. Qed.


Lemma measureColumn_zeroAtZero (column : Z) :
  forall nodes s,
    zeroAtZero (positions s) ->
    zeroAtZero (positions (measureColumn surf column nodes s)).
Proof.
  induction nodes as [|node rest IH]; intros s Hs; simpl.
  - assumption.
  - destruct (Z.eqb_spec column 0) as [->|Hne]; simpl.
    { intros x. rewrite lookup_insert_eq. congruence. }
    destruct (decide (is_Some (positions s !! column))) as [Hc|Hc]; simpl.
    { assumption. }
    destruct (column <=? _); simpl.
    + intros x. rewrite lookup_insert_ne by congruence. apply Hs.
    + apply IH. simpl. assumption.
Qed.

(** A cached column costs nothing. *)
Lemma measureColumn_cached (column : Z) (s : Scan) :
  zeroAtZero (positions s) ->
  is_Some (positions s !! column) ->
  measureColumn surf column (nodesLeft s) s = s.
Proof.
  intros Hzero [x Hx]. destruct s as [nodes i start left pos qs]. simpl in *.
  destruct nodes as [|node rest]; simpl; [reflexivity|].
  destruct (Z.eqb_spec column 0) as [->|Hne]; simpl.
  - rewrite insert_id; [reflexivity|]. rewrite Hx, (Hzero x Hx). reflexivity.
  - destruct (decide (is_Some (pos !! column))) as [Hc|Hc]; [reflexivity|].
    exfalso. apply Hc. eauto.
Qed.




Lemma measureColumns_zeroAtZero :
  forall columns s,
    zeroAtZero (positions s) ->
    zeroAtZero (positions (measureColumns surf columns s)).
Proof.
  induction columns as [|column columns IH]; intros s Hs.
  - assumption.
  - apply IH. apply measureColumn_zeroAtZero. assumption.
Qed.



Lemma sortColumns_sorted (columns : list Z) :
  StronglySorted Z.le (sortColumns columns).
Proof.
  apply StronglySorted_merge_sort.
  - intros x y z ? ?. lia.
  - intros x y. lia.
Qed.






Lemma measureColumns_cons (column : Z) (columns : list Z) (s : Scan) :
  measureColumns surf (column :: columns) s
  = measureColumns surf columns (measureColumn surf column (nodesLeft s) s).
Proof. reflexivity. Qed.



End MeasureFacts.

Section MonadFacts.
Context {E : Type}.

Lemma bind_Some {A B} (m : M E A) (k : A -> M E B) (w : World E) r :
  bind m k w = Some r <->
  exists a w1, m w = Some (a, w1) /\ k a w1 = Some r.
Proof.
  unfold bind. split.
  - destruct (m w) as [[a w1]|]; [|discriminate]. eauto.
  - intros (a & w1 & -> & Hk). assumption.
Qed.

Lemma sameRuntime_refl (w : World E) : sameRuntime w w.
Proof. repeat split. Qed.

Lemma sameRuntime_trans (w1 w2 w3 : World E) :
  sameRuntime w1 w2 -> sameRuntime w2 w3 -> sameRuntime w1 w3.
Proof.
  intros (? & ? & ? & ?) (? & ? & ? & ?). repeat split; congruence.
Qed.

Lemma Emits_nothing {A} (m : M E A) :
  (forall w a w', m w = Some (a, w') ->
     sameRuntime w w' /\ trace w' = trace w) ->
  Emits 0 m.
Proof.
  intros Hm w a w' Hr. destruct (Hm _ _ _ Hr) as [Hs Ht].
  split; [assumption|]. exists []. rewrite app_nil_r. auto.
Qed.

Lemma Emits_ret {A} (a : A) : Emits 0 (@ret E A a).
Proof.
  apply Emits_nothing. intros w a' w' Hr. injection Hr as <- <-.
  split; [apply sameRuntime_refl|reflexivity].
Qed.

Lemma Emits_throw {A} (n : nat) : Emits n (@throw E A).
Proof. intros w a w' Hr. discriminate. Qed.

Lemma Emits_bind {A B} (n k : nat) (m : M E A) (f : A -> M E B) :
  Emits n m -> (forall a, Emits k (f a)) -> Emits (n + k) (bind m f).
Proof.
  intros Hm Hf w b w' Hr. apply bind_Some in Hr as (a & w1 & Hm1 & Hf1).
  destruct (Hm _ _ _ Hm1) as (Hs1 & evs1 & Ht1 & Hq1 & Hc1).
  destruct (Hf _ _ _ _ Hf1) as (Hs2 & evs2 & Ht2 & Hq2 & Hc2).
  split; [eapply sameRuntime_trans; eassumption|].
  exists (evs1 ++ evs2). rewrite Ht2, Ht1, app_assoc.
  split; [reflexivity|]. split; [apply Forall_app; auto|].
  rewrite filter_app, length_app. congruence.
Qed.

Lemma Emits_getComp : Emits 0 (@getComp E).
Proof.
  apply Emits_nothing. intros w a w' Hr. injection Hr as <- <-.
  split; [apply sameRuntime_refl|reflexivity].
Qed.

Lemma Emits_getExt : Emits 0 (@getExt E).
Proof.
  apply Emits_nothing. intros w a w' Hr. injection Hr as <- <-.
  split; [apply sameRuntime_refl|reflexivity].
Qed.

Lemma Emits_modifyExt (f : E -> E) : Emits 0 (modifyExt f).
Proof.
  apply Emits_nothing. intros w a w' Hr. injection Hr as <- <-.
  split; [repeat split|reflexivity].
Qed.

Lemma Emits_modifyComp (f : Component -> Component) :
  (forall c, nextUpdatePromise (f c) = nextUpdatePromise c
             /\ resolveNextUpdatePromise (f c) = resolveNextUpdatePromise c) ->
  Emits 0 (@modifyComp E f).
Proof.
  intros Hf. apply Emits_nothing. intros w a w' Hr. injection Hr as <- <-.
  split; [repeat split; simpl; apply Hf|reflexivity].
Qed.

Lemma Emits_emit (e : Event) :
  isNotify e = false ->
  Emits (if isCommit e then 1 else 0) (@emit E e).
Proof.
  intros He w a w' Hr. injection Hr as <- <-.
  split; [repeat split|]. exists [e]. simpl.
  split; [reflexivity|]. split; [auto|].
  rewrite filter_cons. destruct (isCommit e); simpl.
  - destruct (decide (true = true)); [reflexivity|contradiction].
  - destruct (decide (false = true)); [discriminate|reflexivity].
Qed.

Lemma Emits_forEach {A} (f : A -> M E unit) (l : list A) :
  (forall a, Emits 0 (f a)) -> Emits 0 (forEach f l).
Proof.
  intros Hf. induction l as [|a l IH]; simpl.
  - apply Emits_ret.
  - apply (Emits_bind 0 0); [apply Hf|]. intros _. assumption.
Qed.
End MonadFacts.

Section CacheFacts.
Context {E : Type}.

Lemma KeepsCache_ret {A} (a : A) : KeepsCache (@ret E A a).
Proof. intros w a' w' Hr. injection Hr as <- <-. reflexivity. Qed.

Lemma KeepsCache_throw {A} : KeepsCache (@throw E A).
Proof. intros w a w' Hr. discriminate. Qed.

Lemma KeepsCache_bind {A B} (m : M E A) (f : A -> M E B) :
  KeepsCache m -> (forall a, KeepsCache (f a)) -> KeepsCache (bind m f).
Proof.
  intros Hm Hf w b w' Hr. apply bind_Some in Hr as (a & w1 & Hm1 & Hf1).
  etransitivity; [eapply Hm|eapply Hf]; eassumption.
Qed.

Lemma KeepsCache_same_comp {A} (m : M E A) :
  (forall w a w', m w = Some (a, w') -> comp w' = comp w) ->
  KeepsCache m.
Proof. intros Hm w a w' Hr. rewrite (Hm _ _ _ Hr). reflexivity. Qed.

Lemma KeepsCache_modifyComp (f : Component -> Component) :
  (forall c, dom (horizontalPixelPositionsByScreenLineId c)
             ⊆ dom (horizontalPixelPositionsByScreenLineId (f c))) ->
  KeepsCache (@modifyComp E f).
Proof. intros Hf w a w' Hr. injection Hr as <- <-. simpl. apply Hf. Qed.

Lemma KeepsCache_forEach {A} (f : A -> M E unit) (l : list A) :
  (forall a, KeepsCache (f a)) -> KeepsCache (forEach f l).
Proof.
  intros Hf. induction l as [|a l IH]; simpl.
  - apply KeepsCache_ret.
  - apply KeepsCache_bind; [apply Hf|]. intros _. assumption.
Qed.
End CacheFacts.

Ltac keeps_step :=
  match goal with
  | |- KeepsCache (bind _ _) => apply KeepsCache_bind; [|intros ?]
  | |- KeepsCache (ret _) => apply KeepsCache_ret
  | |- KeepsCache throw => apply KeepsCache_throw
  | |- KeepsCache (modifyComp _) =>
      apply KeepsCache_modifyComp; intros ?; simpl;
      first [reflexivity | rewrite dom_insert_L; set_solver]
  | |- KeepsCache (forEach _ _) => apply KeepsCache_forEach; intros ?
  | |- KeepsCache (match ?x with _ => _ end) => destruct x
  | |- KeepsCache _ =>
      apply KeepsCache_same_comp; intros ? ? ? Hsame;
      injection Hsame as <- <-; reflexivity
  end.

Ltac keeps := repeat keeps_step.

Ltac quiet_step :=
  match goal with
  | |- Emits 0 (bind _ _) => apply (Emits_bind 0 0); [|intros ?]
  | |- Emits 0 (ret _) => apply Emits_ret
  | |- Emits _ throw => apply Emits_throw
  | |- Emits 0 getComp => apply Emits_getComp
  | |- Emits 0 getExt => apply Emits_getExt
  | |- Emits 0 (modifyExt _) => apply Emits_modifyExt
  | |- Emits 0 (modifyComp _) =>
      apply Emits_modifyComp; intros ?; split; reflexivity
  | |- Emits 0 (emit ?e) => apply (Emits_emit e); reflexivity
  | |- Emits 0 (forEach _ _) => apply Emits_forEach; intros ?
  | |- Emits _ (match ?x with _ => _ end) => destruct x
  end.

Ltac quiet := repeat quiet_step.

Section EditorFacts.
Context {E : Type} (H : Host E) (ZW : jsstring).

Lemma Emits_getView : Emits 0 (getView H).
Proof. unfold getView. quiet. Qed.

Lemma Emits_measureEditorDimensions : Emits 0 (measureEditorDimensions H).
Proof. unfold measureEditorDimensions. quiet. Qed.

Lemma Emits_measureScrollPosition : Emits 0 (measureScrollPosition H).
Proof. unfold measureScrollPosition. quiet. Qed.

Lemma Emits_performInitialMeasurements : Emits 0 (performInitialMeasurements H).
Proof. unfold performInitialMeasurements. quiet. Qed.

Lemma Emits_measureLongestLineWidth l : Emits 0 (measureLongestLineWidth H l).
Proof. unfold measureLongestLineWidth. quiet. Qed.

Lemma Emits_getLongestScreenLine : Emits 0 (getLongestScreenLine H).
Proof. unfold getLongestScreenLine. quiet. apply Emits_getView. Qed.

Lemma Emits_pixelLeft r c : Emits 0 (pixelLeftForScreenRowAndColumn H r c).
Proof. unfold pixelLeftForScreenRowAndColumn. quiet. Qed.

Lemma Emits_renderInput : Emits 0 (renderInput H).
Proof. unfold renderInput. quiet; apply Emits_pixelLeft. Qed.

Lemma Emits_render : Emits 0 (render H).
Proof.
  unfold render. quiet; try apply Emits_getView; try apply Emits_renderInput.
Qed.

Lemma Emits_applyPatchOp op : Emits 0 (applyPatchOp H ZW op).
Proof. unfold applyPatchOp. quiet. Qed.

Lemma Emits_queryCursorsToRender : Emits 0 (queryCursorsToRender H).
Proof. unfold queryCursorsToRender. quiet. apply Emits_getView. Qed.

Lemma Emits_measureRow entry : Emits 0 (measureRow H entry).
Proof. unfold measureRow. quiet. Qed.

Lemma Emits_measureHorizontalPositions : Emits 0 (measureHorizontalPositions H).
Proof. unfold measureHorizontalPositions. quiet. apply Emits_measureRow. Qed.

Lemma Emits_positionCursor m c : Emits 0 (positionCursor H m c).
Proof. unfold positionCursor. quiet; apply Emits_pixelLeft. Qed.

Lemma Emits_positionCursors m cs : Emits 0 (positionCursors H m cs).
Proof.
  induction cs as [|c cs IH]; simpl; quiet;
    [apply Emits_positionCursor|assumption].
Qed.

Lemma Emits_positionCursorsToRender : Emits 0 (positionCursorsToRender H).
Proof. unfold positionCursorsToRender. quiet. apply Emits_positionCursors. Qed.

Lemma Emits_etchUpdateSync : Emits 1 (etchUpdateSync H ZW).
Proof.
  unfold etchUpdateSync.
  apply (Emits_bind 0 1); [apply Emits_render|intros tiles].
  apply (Emits_bind 0 1); [quiet|intros e].
  apply (Emits_bind 0 1); [quiet; apply Emits_applyPatchOp|intros _].
  apply (Emits_bind 0 1); [quiet|intros _].
  apply (Emits_bind 0 1); [quiet|intros this].
  apply (Emits_emit (EvCommit tiles (cursorsToRender this))). reflexivity.
Qed.

(** The part of [updateSync] after the promise has been dealt with. *)
Lemma Emits_cycle_steps (k : M E unit) :
  k = (let* this := getComp in
       let* stale :=
         match staleMeasurements this with
         | Some stale => ret stale
         | None => throw
         end in
       let* _ :=
         if editorDimensions stale
         then let* _ := measureEditorDimensions H in ret tt
         else ret tt in
       let* longestLine := getLongestScreenLine H in
       let* this := getComp in
       let measureLongestLine :=
         negb (sameScreenLine longestLine (previousLongestLine this)) in
       let* _ :=
         if measureLongestLine
         then modifyComp (fun this =>
                set_previousLongestLine longestLine
                  (set_longestLineToMeasure longestLine this))
         else ret tt in
       let* _ := modifyComp (set_horizontalPositionsToMeasure []) in
       let* _ := etchUpdateSync H ZW in
       let* _ :=
         if measureLongestLine then measureLongestLineWidth H longestLine
         else ret tt in
       let* _ := queryCursorsToRender H in
       let* _ := measureHorizontalPositions H in
       let* _ := positionCursorsToRender H in
       etchUpdateSync H ZW) ->
  Emits 2 k.
Proof.
  intros ->.
  apply (Emits_bind 0 2); [quiet|intros this].
  apply (Emits_bind 0 2); [quiet|intros stale].
  apply (Emits_bind 0 2);
    [quiet; apply Emits_measureEditorDimensions|intros _].
  apply (Emits_bind 0 2); [apply Emits_getLongestScreenLine|intros longestLine].
  apply (Emits_bind 0 2); [quiet|intros this'].
  cbv zeta.
  apply (Emits_bind 0 2); [quiet|intros _].
  apply (Emits_bind 0 2); [quiet|intros _].
  apply (Emits_bind 1 1); [apply Emits_etchUpdateSync|intros _].
  apply (Emits_bind 0 1);
    [quiet; apply Emits_measureLongestLineWidth|intros _].
  apply (Emits_bind 0 1); [apply Emits_queryCursorsToRender|intros _].
  apply (Emits_bind 0 1); [apply Emits_measureHorizontalPositions|intros _].
  apply (Emits_bind 0 1); [apply Emits_positionCursorsToRender|intros _].
  apply Emits_etchUpdateSync.
Qed.

Lemma EndsWithCommit_bind {A B} (m : M E A) (f : A -> M E B) :
  (forall a, EndsWithCommit (f a)) -> EndsWithCommit (bind m f).
Proof.
  intros Hf w b w' Hr. apply bind_Some in Hr as (a & w1 & _ & Hf1).
  eapply Hf. eassumption.
Qed.

Lemma EndsWithCommit_etchUpdateSync : EndsWithCommit (etchUpdateSync H ZW).
Proof.
  unfold etchUpdateSync.
  do 5 (apply EndsWithCommit_bind; intros ?).
  intros w u w' Hr. injection Hr as <- <-. simpl. eauto.
Qed.

Lemma EndsWithCommit_updateSync : EndsWithCommit (updateSync H ZW).
Proof.
  unfold updateSync.
  do 15 (apply EndsWithCommit_bind; intros ?).
  apply EndsWithCommit_etchUpdateSync.
Qed.

Lemma ends_with_commit_suffix (before cycle all : list Event) tiles cursors :
  before ++ cycle = all ++ [EvCommit tiles cursors] ->
  cycle <> [] ->
  exists evs, cycle = evs ++ [EvCommit tiles cursors].
Proof.
  intros Heq Hne.
  destruct (exists_last Hne) as (evs & x & ->).
  rewrite app_assoc in Heq. apply app_inj_tail in Heq as [_ ->].
  exists evs. reflexivity.
Qed.

(** The shape of a completed cycle: the promise is dealt with first, then
    come the steps with their two commits, the second one last. *)
Lemma updateSync_cycle (w w' : World E) :
  updateSync H ZW w = Some (tt, w') ->
  exists cycle,
    match nextUpdatePromise (comp w) with
    | Some _ =>
        exists p cell,
          resolveNextUpdatePromise (comp w) = Some p
          /\ promises w !! p = Some cell
          /\ trace w' = trace w ++ [EvResolve p] ++ cycle
          /\ promises w'
             = (if fulfilled cell then promises w
                else <[p := {| fulfilled := true; reactions := [] |}]>
                       (promises w))
          /\ microtasks w'
             = microtasks w ++ (if fulfilled cell then [] else reactions cell)
    | None =>
        trace w' = trace w ++ cycle
        /\ promises w' = promises w
        /\ microtasks w' = microtasks w
    end
    /\ nextUpdatePromise (comp w') = None
    /\ Forall (fun e => isNotify e = false) cycle
    /\ length (filter (fun e => isCommit e = true) cycle) = 2%nat
    /\ exists evs tiles cursors, cycle = evs ++ [EvCommit tiles cursors].
Proof.
  intros Hrun.
  pose proof (EndsWithCommit_updateSync _ _ _ Hrun) as (all & tiles & cursors & Hlast).
  unfold updateSync in Hrun.
  apply bind_Some in Hrun as (u0 & wa & Hset & Hrun).
  injection Hset as <- <-.
  apply bind_Some in Hrun as (this & wb & Hget & Hrun).
  injection Hget as <- <-.
  apply bind_Some in Hrun as (u1 & w1 & Hresolve & Hrun).
  pose proof (Emits_cycle_steps _ eq_refl _ _ _ Hrun)
    as ((Hp & Hm & Hn & _) & cycle & Htrace & Hquiet & Hcount).
  exists cycle. simpl in Hresolve.
  assert (Hne : cycle <> []) by (intros ->; discriminate).
  assert (Hend : exists evs tiles cursors, cycle = evs ++ [EvCommit tiles cursors]).
  { rewrite Htrace in Hlast.
    destruct (ends_with_commit_suffix _ _ _ _ _ Hlast Hne) as (evs & ->).
    eauto. }
  destruct (nextUpdatePromise (comp w)) as [p0|] eqn:Hhandle.
  - destruct (resolveNextUpdatePromise (comp w)) as [p|]; [|discriminate].
    apply bind_Some in Hresolve as (u2 & wc & Hres & Hmod).
    injection Hmod as Hu Hw1.
    unfold resolvePromise in Hres. simpl in Hres.
    destruct (promises w !! p) as [cell|] eqn:Hcell; [|discriminate].
    assert (Hn1 : nextUpdatePromise (comp w1) = None)
      by (rewrite <- Hw1; reflexivity).
    split; [|split; [congruence|auto]].
    exists p, cell. split; [reflexivity|]. split; [exact Hcell|].
    rewrite Htrace, Hp, Hm, <- Hw1. simpl.
    destruct (fulfilled cell); injection Hres as Hu2 Hwc; subst wc; simpl;
      rewrite <- ?app_assoc, ?app_nil_r; auto.
  - injection Hresolve as Hu Hw1. subst w1. simpl in *.
    split; [auto|]. split; [rewrite Hn; assumption|]. auto.
Qed.

Lemma awaitNextUpdate_registers (w0 w1 : World E) (waiter : nat) :
  handleConsistent w0 ->
  awaitNextUpdate waiter w0 = Some (tt, w1) ->
  exists p waiting,
    nextUpdatePromise (comp w1) = Some p
    /\ resolveNextUpdatePromise (comp w1) = Some p
    /\ promises w1 !! p
       = Some {| fulfilled := false; reactions := waiting ++ [waiter] |}
    /\ microtasks w1 = microtasks w0
    /\ trace w1 = trace w0.
Proof.
  unfold handleConsistent, awaitNextUpdate, getNextUpdatePromise.
  intros Hc Hrun.
  apply bind_Some in Hrun as (p & wa & Hget & Hawait).
  apply bind_Some in Hget as (this & wb & Hthis & Hget).
  injection Hthis as <- <-.
  destruct (nextUpdatePromise (comp w0)) as [p0|] eqn:Hhandle.
  - injection Hget as <- <-. destruct Hc as (Hres & waiting & Hcell).
    unfold awaitPromise in Hawait. rewrite Hcell in Hawait. simpl in Hawait.
    injection Hawait as <-. exists p0, waiting. simpl.
    split; [assumption|]. split; [assumption|].
    split; [|split; reflexivity].
    apply list_lookup_insert_eq. apply lookup_lt_Some in Hcell. assumption.
  - apply bind_Some in Hget as (p' & wc & Hnew & Hget).
    injection Hnew as <- <-.
    apply bind_Some in Hget as (u & wd & Hmod & Hret).
    injection Hmod as <- <-. injection Hret as <- <-.
    unfold awaitPromise in Hawait. simpl in Hawait.
    rewrite lookup_app_r in Hawait by lia.
    rewrite Nat.sub_diag in Hawait. simpl in Hawait.
    injection Hawait as <-. exists (length (promises w0)), []. simpl.
    split; [reflexivity|]. split; [reflexivity|].
    split; [|split; reflexivity].
    rewrite list_lookup_insert_eq; [reflexivity|].
    rewrite length_app. simpl. lia.
Qed.

(** C2: a caller that awaits the next-update promise is notified by the
    cycle that follows: the promise is resolved when the cycle starts, the
    two commits of the cycle come next, the second one as the last event of
    the cycle, and only then every continuation waiting on the promise is
    run, once for each time it awaited; after the cycle the component has
    no promise, and the next call of [getNextUpdatePromise] makes a new,
    pending one without continuations. *)
Theorem awaiting_caller_notified_once_after_second_commit
    (w0 w1 w2 : World E) (waiter : nat) :
  handleConsistent w0 ->
  microtasks w0 = [] ->
  awaitNextUpdate waiter w0 = Some (tt, w1) ->
  runTask (updateSync H ZW) w1 = Some (tt, w2) ->
  exists p waiting cycle,
    nextUpdatePromise (comp w1) = Some p
    /\ promises w1 !! p
       = Some {| fulfilled := false; reactions := waiting ++ [waiter] |}
    /\ trace w2
       = trace w1 ++ [EvResolve p] ++ cycle
         ++ map EvNotify (waiting ++ [waiter])
    /\ Forall (fun e => isNotify e = false) cycle
    /\ length (filter (fun e => isCommit e = true) cycle) = 2%nat
    /\ (exists evs tiles cursors, cycle = evs ++ [EvCommit tiles cursors])
    /\ microtasks w2 = []
    /\ promises w2 !! p = Some {| fulfilled := true; reactions := [] |}
    /\ nextUpdatePromise (comp w2) = None
    /\ handleConsistent w2
    /\ exists p' w3,
         getNextUpdatePromise w2 = Some (p', w3)
         /\ p' <> p
         /\ nextUpdatePromise (comp w3) = Some p'
         /\ promises w3 !! p' = Some {| fulfilled := false; reactions := [] |}
         /\ promises w3 !! p = Some {| fulfilled := true; reactions := [] |}
         /\ handleConsistent w3.
Proof.
  intros Hc Hq Hawait Hrun.
  destruct (awaitNextUpdate_registers _ _ _ Hc Hawait)
    as (p & waiting & Hhandle & Hres & Hcell & Hm1 & Ht1).
  unfold runTask in Hrun.
  apply bind_Some in Hrun as (u & wm & Hupdate & Hmicro). destruct u.
  injection Hmicro as <-.
  destruct (updateSync_cycle _ _ Hupdate)
    as (cycle & Hshape & Hnone & Hquiet & Hcount & Hend).
  rewrite Hhandle in Hshape.
  destruct Hshape as (p' & cell & Hres' & Hcell' & Htrace & Hproms & Hmicros).
  rewrite Hres in Hres'. injection Hres' as <-.
  rewrite Hcell in Hcell'. injection Hcell' as <-. simpl in Hproms, Hmicros.
  rewrite Hm1, Hq in Hmicros. simpl in Hmicros.
  assert (Hlt : (p < length (promises w1))%nat)
    by (apply lookup_lt_Some in Hcell; assumption).
  exists p, waiting, cycle. simpl.
  split; [assumption|]. split; [assumption|].
  split; [rewrite Htrace, Hmicros, <- !app_assoc; reflexivity|].
  split; [assumption|]. split; [assumption|]. split; [assumption|].
  split; [reflexivity|].
  split; [rewrite Hproms; apply list_lookup_insert_eq; assumption|].
  split; [assumption|].
  split; [unfold handleConsistent; simpl; rewrite Hnone; exact I|].
  unfold getNextUpdatePromise, bind, getComp, newPromise, modifyComp, ret.
  simpl. rewrite Hnone. simpl.
  eexists _, _. split; [reflexivity|]. simpl.
  rewrite Hproms, length_insert.
  split; [lia|]. split; [reflexivity|].
  split; [rewrite lookup_app_r, length_insert, Nat.sub_diag by
            (rewrite length_insert; lia); reflexivity|].
  split; [rewrite lookup_app_l by (rewrite length_insert; lia);
          apply list_lookup_insert_eq; assumption|].
  unfold handleConsistent. simpl. split; [reflexivity|].
  exists []. rewrite lookup_app_r, length_insert, Nat.sub_diag by
            (rewrite length_insert; lia). reflexivity.
Qed.

Lemma KeepsCache_resolvePromise p : KeepsCache (@resolvePromise E p).
Proof.
  apply KeepsCache_same_comp. intros w a w' Hr. unfold resolvePromise in Hr.
  destruct (promises w !! p) as [cell|]; [|discriminate].
  destruct (fulfilled cell); injection Hr as _ <-; reflexivity.
Qed.

Lemma KeepsCache_etchUpdateSync : KeepsCache (etchUpdateSync H ZW).
Proof.
  unfold etchUpdateSync, render, renderInput, getView,
    pixelLeftForScreenRowAndColumn, applyPatchOp.
  keeps.
Qed.

Lemma KeepsCache_positionCursors m cs : KeepsCache (positionCursors H m cs).
Proof.
  induction cs as [|c cs IH]; simpl; keeps.
  - unfold positionCursor, pixelLeftForScreenRowAndColumn. keeps.
  - assumption.
Qed.

Lemma KeepsCache_updateSync : KeepsCache (updateSync H ZW).
Proof.
  unfold updateSync.
  apply KeepsCache_bind; [keeps|intros _].
  apply KeepsCache_bind; [keeps|intros this].
  apply KeepsCache_bind;
    [destruct (nextUpdatePromise this); [|keeps];
     destruct (resolveNextUpdatePromise this); [|keeps];
     apply KeepsCache_bind; [apply KeepsCache_resolvePromise|intros _]; keeps
    |intros _].
  apply KeepsCache_bind; [keeps|intros this'].
  apply KeepsCache_bind; [keeps|intros stale].
  apply KeepsCache_bind; [unfold measureEditorDimensions; keeps|intros _].
  apply KeepsCache_bind; [unfold getLongestScreenLine, getView; keeps|intros l].
  apply KeepsCache_bind; [keeps|intros this''].
  cbv zeta.
  apply KeepsCache_bind; [keeps|intros _].
  apply KeepsCache_bind; [keeps|intros _].
  apply KeepsCache_bind; [apply KeepsCache_etchUpdateSync|intros _].
  apply KeepsCache_bind; [unfold measureLongestLineWidth; keeps|intros _].
  apply KeepsCache_bind; [unfold queryCursorsToRender, getView; keeps|intros _].
  apply KeepsCache_bind;
    [unfold measureHorizontalPositions, measureRow; keeps|intros _].
  apply KeepsCache_bind; [|intros _; apply KeepsCache_etchUpdateSync].
  unfold positionCursorsToRender. keeps. apply KeepsCache_positionCursors.
Qed.

(** C6, as amended: [getLongestScreenLine] populates the spatial index
    before it asks for the longest screen row, and the row bound it passes
    lies beyond the last visible row (it is the end of the tile of the last
    visible row) and is at most [getRenderedEndRow]. *)
Theorem populate_bound_before_longest_line (w w' : World E)
    (v : Planner.View) (longest : option ScreenLine) :
  getView H w = Some (v, w) ->
  getLongestScreenLine H w = Some (longest, w') ->
  Planner.wellFormed v ->
  Planner.nonNegative v ->
  trace w'
  = trace w ++ [EvPopulateSpatialIndex (Planner.longestLinePopulateBound v);
                EvQueryLongestScreenRow]
  /\ ext w' = populateSpatialIndexIfNeeded H
                (Planner.longestLinePopulateBound v) (ext w)
  /\ longest = screenLineForScreenRow H (ext w')
                 (getApproximateLongestScreenRow H (ext w'))
  /\ Planner.getLastVisibleRow v < Planner.longestLinePopulateBound v
  /\ Planner.longestLinePopulateBound v <= Planner.getRenderedEndRow v.
Proof.
  unfold getLongestScreenLine. intros Hview Hrun Hwf Hnn.
  apply bind_Some in Hrun as (v0 & wa & Hview0 & Hrun).
  rewrite Hview in Hview0. injection Hview0 as <- <-.
  apply bind_Some in Hrun as (u1 & w1 & Hemit1 & Hrun). injection Hemit1 as _ <-.
  apply bind_Some in Hrun as (u2 & w2 & Hmod & Hrun). injection Hmod as _ <-.
  apply bind_Some in Hrun as (u3 & w3 & Hemit2 & Hrun). injection Hemit2 as _ <-.
  apply bind_Some in Hrun as (e & w4 & Hext & Hrun). injection Hext as <- <-.
  injection Hrun as <- <-. simpl.
  split; [rewrite <- app_assoc; reflexivity|].
  split; [reflexivity|]. split; [reflexivity|].
  apply populateBound_bounds; assumption.
Qed.

Lemma didHide_effect (w : World E) :
  exists wh,
    didHide H w = Some (tt, wh)
    /\ visible (comp wh) = false
    /\ updateScheduled (comp wh) = updateScheduled (comp w)
    /\ measurements (comp wh) = measurements (comp w)
    /\ newEvents w wh
       = (if visible (comp w) then [EvSetModelVisible false] else []).
Proof.
  unfold didHide, bind, getComp, newEvents. simpl.
  destruct (visible (comp w)) eqn:Hv; simpl.
  - eexists. split; [reflexivity|]. simpl.
    rewrite drop_app_length. auto.
  - eexists. split; [reflexivity|]. rewrite drop_all. auto.
Qed.

Lemma updateSync_commits (w w' : World E) :
  updateSync H ZW w = Some (tt, w') ->
  length (filter (fun e => isCommit e = true) (newEvents w w')) = 2%nat.
Proof.
  intros Hrun. unfold newEvents.
  destruct (updateSync_cycle _ _ Hrun) as (cycle & Hshape & _ & _ & Hcount & _).
  destruct (nextUpdatePromise (comp w)).
  - destruct Hshape as (p & cell & _ & _ & -> & _).
    rewrite drop_app_length. simpl.
    rewrite filter_cons.
    destruct (decide (isCommit (EvResolve p) = true)); [discriminate|].
    assumption.
  - destruct Hshape as (-> & _). rewrite drop_app_length. assumption.
Qed.

(** C7, as amended: hiding the view only clears the flag and tells the
    model: it renders and measures nothing and leaves a scheduled update
    scheduled.  The update cycle does not look at the flag: a scheduled
    update and a scroll that run to their end while the view is hidden
    commit twice, as they do while it is visible, and a change that asks
    for an update while the view is hidden schedules one. *)
Theorem hidden_view_still_updates (w wh : World E) :
  didHide H w = Some (tt, wh) ->
  visible (comp wh) = false
  /\ updateScheduled (comp wh) = updateScheduled (comp w)
  /\ newEvents w wh
     = (if visible (comp w) then [EvSetModelVisible false] else [])
  /\ (forall w',
        updateScheduled (comp wh) = true ->
        scheduledUpdate H ZW wh = Some (tt, w') ->
        length (filter (fun e => isCommit e = true) (newEvents wh w'))
        = 2%nat)
  /\ (forall w',
        didScroll H ZW wh = Some (tt, w') ->
        length (filter (fun e => isCommit e = true) (newEvents wh w'))
        = 2%nat)
  /\ (forall w',
        updatedSynchronously (comp wh) = false ->
        updateScheduled (comp wh) = false ->
        scheduleUpdate H ZW wh = Some (tt, w') ->
        updateScheduled (comp w') = true
        /\ newEvents wh w' = [EvScheduleCallback]).
Proof.
  intros Hhidden.
  destruct (didHide_effect w) as (wh0 & Hhide & Hv & Hs & _ & Hev).
  rewrite Hhidden in Hhide. injection Hhide as <-.
  do 3 (split; [assumption|]). split; [|split].
  3: { intros w' Hsync Hnone Hrun.
       unfold scheduleUpdate, bind, getComp in Hrun. simpl in Hrun.
       rewrite Hsync, Hnone in Hrun. simpl in Hrun. injection Hrun as <-.
       unfold newEvents. simpl. rewrite drop_app_length. auto. }
  - intros w' Hsched Hrun. unfold scheduledUpdate, bind, getComp in Hrun.
      simpl in Hrun. rewrite Hsched in Hrun.
      apply updateSync_commits. assumption.
    - intros w' Hrun. unfold didScroll in Hrun.
      apply bind_Some in Hrun as (u & wa & Hscroll & Hrun).
      destruct (Emits_measureScrollPosition _ _ _ Hscroll)
        as (_ & evs & Htrace & _ & Hnone).
      pose proof (updateSync_commits _ _ Hrun) as Hcount.
      unfold newEvents in *.
      destruct (updateSync_cycle _ _ Hrun) as (cycle & Hshape & _).
      assert (Hext : exists more, trace w' = trace wa ++ more).
      { destruct (nextUpdatePromise (comp wa)).
        - destruct Hshape as (p & cell & _ & _ & -> & _). eauto.
        - destruct Hshape as (-> & _). eauto. }
      destruct Hext as (more & Hmore).
      rewrite Hmore, drop_app_length in Hcount.
      rewrite Hmore, Htrace, <- app_assoc, drop_app_length.
      rewrite filter_app, length_app, Hnone, Hcount. reflexivity.
Qed.

(** C9, as amended: destroying the line component of an evicted screen
    line removes the line from the maps of line nodes and of text nodes,
    and leaves the horizontal position cache as it is; a later update
    cycle drops no line from the cache either. *)
Theorem evicted_line_keeps_cached_positions (w w' : World E)
    (screenLine : ScreenLine) :
  applyPatchOp H ZW (Destroy screenLine) w = Some (tt, w') ->
  lineNodesByScreenLineId (comp w') !! id screenLine = None
  /\ textNodesByScreenLineId (comp w') !! id screenLine = None
  /\ horizontalPixelPositionsByScreenLineId (comp w')
     = horizontalPixelPositionsByScreenLineId (comp w)
  /\ (forall w'',
        updateSync H ZW w' = Some (tt, w'') ->
        dom (horizontalPixelPositionsByScreenLineId (comp w'))
        ⊆ dom (horizontalPixelPositionsByScreenLineId (comp w''))).
Proof.
  intros Hdestroy. injection Hdestroy as <-. simpl.
  split; [apply lookup_delete_eq|]. split; [apply lookup_delete_eq|].
  split; [reflexivity|].
  intros w'' Hrun. apply (KeepsCache_updateSync _ _ _ Hrun).
Qed.

End EditorFacts.

Section CursorFacts.
Context {E : Type} (H : Host E).



Lemma forEach_emit {A} (f : A -> Event) (l : list A) (w : World E) :
  forEach (fun a => emit (f a)) l w
  = Some (tt, {| comp := comp w; ext := ext w;
                 trace := trace w ++ map f l;
                 promises := promises w; microtasks := microtasks w |}).
Proof.
  revert w. induction l as [|a l IH]; intros w; simpl.
  - rewrite app_nil_r. destruct w; reflexivity.
  - unfold bind, emit at 1. rewrite IH. simpl. rewrite <- app_assoc. reflexivity.
Qed.








Lemma pixelLeft_effect (r c : Z) (w w' : World E) (x : option Q) :
  pixelLeftForScreenRowAndColumn H r c w = Some (x, w') ->
  w' = w /\ x = cachedOffset H w r c.
Proof.
  unfold pixelLeftForScreenRowAndColumn, cachedOffset, bind, getExt, getComp.
  destruct (c =? 0); simpl.
  - intros Hr. injection Hr as <- <-. auto.
  - destruct (getScreenLine H (ext w) r) as [screenLine|]; [|discriminate].
    destruct (horizontalPixelPositionsByScreenLineId (comp w) !! id screenLine);
      [|discriminate].
    intros Hr. injection Hr as <- <-. auto.
Qed.


Lemma getView_effect (w w' : World E) (v : Planner.View) :
  getView H w = Some (v, w') ->
  w' = w
  /\ exists m, measurements (comp w) = Some m
               /\ v = {| Planner.measurements := m;
                         Planner.rowsPerTile := rowsPerTileProp (comp w);
                         Planner.approximateScreenLineCount :=
                           getApproximateScreenLineCount H (ext w) |}.
Proof.
  unfold getView, bind, getComp, getExt. simpl.
  destruct (measurements (comp w)) as [m|]; [|discriminate].
  intros Hr. injection Hr as <- <-. eauto.
Qed.



End CursorFacts.

Section MorePlannerFacts.
Import Planner Tiles.

Lemma tileStart_multiple (v : View) (T : Z) :
  0 < getRowsPerTile v -> 0 <= getFirstVisibleRow v ->
  T ∈ tileStartRows v ->
  exists q, 0 <= q /\ T = getRowsPerTile v * q.
Proof.
  intros Hr Hfv HT.
  apply elem_of_tileStartRows in HT as (k & Hk & ->); [|assumption].
  unfold getFirstTileStartRow.
  pose proof (getTileStartRow_nonneg v _ Hr Hfv) as [-> _].
  exists (getFirstVisibleRow v / getRowsPerTile v + k). split; [|lia].
  assert (0 <= getFirstVisibleRow v / getRowsPerTile v) by (apply Z.div_pos; lia).
  lia.
Qed.

Lemma getTileStartRow_of_multiple (v : View) (q r : Z) :
  0 < getRowsPerTile v -> 0 <= q ->
  getRowsPerTile v * q <= r < getRowsPerTile v * q + getRowsPerTile v ->
  getTileStartRow v r = getRowsPerTile v * q.
Proof.
  intros Hr Hq Hb.
  assert (H0 : 0 <= r) by nia.
  pose proof (getTileStartRow_nonneg v r Hr H0) as [-> _].
  f_equal. symmetry. apply (Z.div_unique r (getRowsPerTile v) q (r - getRowsPerTile v * q)); lia.
Qed.

(** X1: every tile of a frame starts at a row that is a multiple of the
    tile size, a visible row lies in the tile that starts at
    [getTileStartRow] of the row, and a row that is visible at two scroll
    positions with the same tile size lies in a tile with the same start
    row at both. *)
Theorem tile_of_row_is_stable (v : View) :
  wellFormed v ->
  (0 <= scrollTop (measurements v))%Q ->
  (forall T, T ∈ tileStartRows v ->
     0 <= T /\ Z.rem T (getRowsPerTile v) = 0 /\ getTileStartRow v T = T)
  /\ (forall R, getFirstVisibleRow v <= R <= getLastVisibleRow v ->
        getTileStartRow v R ∈ tileStartRows v
        /\ getTileStartRow v R <= R < getTileStartRow v R + getRowsPerTile v)
  /\ (forall (v' : View) R,
        wellFormed v' ->
        (0 <= scrollTop (measurements v'))%Q ->
        getRowsPerTile v' = getRowsPerTile v ->
        getFirstVisibleRow v <= R <= getLastVisibleRow v ->
        getFirstVisibleRow v' <= R <= getLastVisibleRow v' ->
        exists T, T ∈ tileStartRows v /\ T ∈ tileStartRows v'
                  /\ T <= R < T + getRowsPerTile v).
Proof.
  intros Hwf Ht.
  pose proof (firstVisibleRow_nonneg v Hwf Ht) as Hfv.
  assert (Hr : 0 < getRowsPerTile v) by apply Hwf.
  assert (Hvisible : forall u : View, wellFormed u ->
            (0 <= scrollTop (measurements u))%Q ->
            forall R, getFirstVisibleRow u <= R <= getLastVisibleRow u ->
            getTileStartRow u R ∈ tileStartRows u
            /\ getTileStartRow u R <= R < getTileStartRow u R + getRowsPerTile u).
  { clear. intros u Hwf Ht R [Hfirst Hlast].
    pose proof (firstVisibleRow_nonneg u Hwf Ht) as Hfv.
    assert (Hr : 0 < getRowsPerTile u) by apply Hwf.
    assert (H0 : 0 <= R) by lia.
    pose proof (getTileStartRow_nonneg u R Hr H0) as [He Hb].
    split; [|assumption].
    pose proof (lastVisibleRow_before_renderedEnd u Hr) as Hend.
    pose proof (firstTile_bounds u Hr) as (Hpos & _ & _).
    specialize (Hpos Hfv).
    unfold getFirstTileStartRow in *.
    pose proof (getTileStartRow_nonneg u _ Hr Hfv) as [Hf Hfb].
    apply elem_of_tileStartRows; [assumption|].
    exists (R / getRowsPerTile u - getFirstVisibleRow u / getRowsPerTile u).
    unfold getFirstTileStartRow. rewrite He, Hf.
    split; [|lia].
    assert (Hmono : getFirstVisibleRow u / getRowsPerTile u <= R / getRowsPerTile u)
      by (apply Z.div_le_mono; lia).
    split; [lia|].
    unfold getRenderedEndRow, getFirstTileStartRow in Hend. rewrite Hf in Hend.
    assert (Hlt : getRowsPerTile u * (R / getRowsPerTile u)
                  < getRowsPerTile u
                    * (getFirstVisibleRow u / getRowsPerTile u + getVisibleTileCount u))
      by lia.
    apply Z.mul_lt_mono_pos_l in Hlt; lia. }
  split; [|split].
  - intros T HT.
    destruct (tileStart_multiple v T Hr Hfv HT) as (q & Hq & ->).
    split; [lia|]. split.
    + rewrite Z.mul_comm. apply Z.rem_mul. lia.
    + apply getTileStartRow_of_multiple; lia.
  - apply Hvisible; assumption.
  - intros v' R Hwf' Ht' Hsame HR HR'.
    exists (getTileStartRow v R).
    destruct (Hvisible v Hwf Ht R HR) as [Hin Hb].
    destruct (Hvisible v' Hwf' Ht' R HR') as [Hin' _].
    split; [assumption|]. split; [|assumption].
    replace (getTileStartRow v R) with (getTileStartRow v' R); [assumption|].
    unfold getTileStartRow. rewrite Hsame. reflexivity.
Qed.







(** X3: [renderLineTiles] throws (the array length is negative) exactly
    when the first visible row lies more than two tiles past the last row
    of the document; while the first visible row is a row of the document
    there are at least two tiles. *)
Theorem renderLineTiles_throws_past_the_end (v : View)
    (screenLines : list ScreenLine) (longest : option ScreenLine) :
  wellFormed v ->
  nonNegative v ->
  (renderLineTiles v screenLines longest = None
   <-> approximateScreenLineCount v - 1 + 2 * getRowsPerTile v
       < getFirstVisibleRow v)
  /\ (getFirstVisibleRow v <= approximateScreenLineCount v - 1 ->
      2 <= getVisibleTileCount v).
Proof.
  intros [HL Hr] (Ht & Hh & Hc).
  assert (Hceil : 0 <= Qceiling (scrollerHeight (measurements v)
                                 / lineHeight (measurements v))).
  { change 0 with (Qceiling 0). apply Qceiling_resp_le, Qdiv_nonneg; assumption. }
  pose proof (Z.mod_pos_bound (getLastVisibleRow v - getFirstVisibleRow v) _ Hr) as Hm.
  pose proof (Z_div_mod_eq_full (getLastVisibleRow v - getFirstVisibleRow v)
                (getRowsPerTile v)) as Hd.
  split.
  - assert (Hnone : renderLineTiles v screenLines longest = None
                    <-> getVisibleTileCount v < 0).
    { unfold renderLineTiles, newArray.
      destruct (Z.ltb_spec (getVisibleTileCount v) 0) as [Hlt|Hge].
      - split; [intros _; assumption|reflexivity].
      - split; [|lia].
        destruct (fold_left _ _ _).2; discriminate. }
    rewrite Hnone. unfold getVisibleTileCount.
    set (d := (getLastVisibleRow v - getFirstVisibleRow v) / getRowsPerTile v) in *.
    unfold getLastVisibleRow in *.
    split; intros Hlt; nia.
  - intros Hin. unfold getVisibleTileCount.
    assert (0 <= (getLastVisibleRow v - getFirstVisibleRow v) / getRowsPerTile v);
      [|lia].
    apply Z.div_pos; [|lia]. unfold getLastVisibleRow. lia.
Qed.
End MorePlannerFacts.

Section MoreTilesFacts.
Import Planner Tiles.

Lemma stillToMeasure_app (l1 l2 : list ScreenLine) (longest : option ScreenLine) :
  stillToMeasure l2 (stillToMeasure l1 longest) = stillToMeasure (l1 ++ l2) longest.
Proof.
  destruct longest as [l|]; [|reflexivity]. unfold stillToMeasure, isAmong.
  rewrite existsb_app.
  destruct (existsb _ l1); reflexivity.
Qed.

Lemma tileLines_take_drop (firstTileStartRow tileEndRow : Z)
    (screenLines : list ScreenLine) :
  forall fuel row longest,
    firstTileStartRow <= row ->
    (Z.to_nat (tileEndRow - row) <= fuel)%nat ->
    let r := tileLines fuel row tileEndRow firstTileStartRow screenLines longest in
    r.1 = take (Z.to_nat (tileEndRow - row))
            (drop (Z.to_nat (row - firstTileStartRow)) screenLines)
    /\ r.2 = stillToMeasure r.1 longest.
Proof.
  induction fuel as [|fuel IH]; intros row longest Hrow Hfuel; simpl.
  - replace (Z.to_nat (tileEndRow - row)) with 0%nat by lia.
    split; [reflexivity|]. destruct longest; reflexivity.
  - destruct (Z.ltb_spec row tileEndRow) as [Hlt|Hge].
    + destruct (Z.ltb_spec (row - firstTileStartRow) 0) as [?|_]; [lia|].
      destruct (screenLines !! Z.to_nat (row - firstTileStartRow))
        as [screenLine|] eqn:Hline.
      * simpl.
        destruct (IH (row + 1)
                    (match longest with
                     | Some l => if id screenLine =? id l then None else longest
                     | None => None
                     end)) as [Hlines Hlongest]; [lia|lia|].
        replace (Z.to_nat (tileEndRow - row))
          with (S (Z.to_nat (tileEndRow - (row + 1)))) by lia.
        rewrite (drop_S _ _ _ Hline). simpl.
        replace (S (Z.to_nat (row - firstTileStartRow)))
          with (Z.to_nat (row + 1 - firstTileStartRow)) by lia.
        split; [f_equal; exact Hlines|].
        rewrite Hlongest. destruct longest as [l|]; [|reflexivity].
        unfold stillToMeasure, isAmong. simpl.
        destruct (id screenLine =? id l); [|reflexivity].
        destruct (existsb _ _); reflexivity.
      * simpl. apply lookup_ge_None in Hline.
        rewrite drop_ge by assumption. rewrite take_nil.
        split; [reflexivity|]. destruct longest; reflexivity.
    + replace (Z.to_nat (tileEndRow - row)) with 0%nat by lia.
      split; [reflexivity|]. destruct longest; reflexivity.
Qed.

Lemma renderTile_effect (v : View) (screenLines : list ScreenLine)
    (acc : list (option VNode) * option ScreenLine) (T : Z) :
  0 < getRowsPerTile v ->
  getVisibleTileCount v <> 0 ->
  getFirstTileStartRow v <= T ->
  renderTile v screenLines acc T
  = (arraySet (tileIndex v T)
       (VTile {| key := tileIndex v T; tileStartRow := T;
                 tileHeight := (inject_Z (getRowsPerTile v)
                                * lineHeight (measurements v))%Q;
                 tileWidth := scrollWidth (measurements v);
                 translateY := topPixelPositionForRow v T;
                 lineNodes := linesOfTile v screenLines T |}) acc.1,
     stillToMeasure (linesOfTile v screenLines T) acc.2).
Proof.
  intros Hr Hn HT. unfold renderTile.
  destruct (tileLines_take_drop (getFirstTileStartRow v) (T + getRowsPerTile v)
              screenLines (Z.to_nat (getRowsPerTile v)) T acc.2)
    as [Hlines Hlongest]; [lia|lia|].
  replace (T + getRowsPerTile v - T) with (getRowsPerTile v) in Hlines by lia.
  fold (linesOfTile v screenLines T) in Hlines.
  rewrite Hlongest, Hlines.
  destruct (Z.eqb_spec (getVisibleTileCount v) 0); [contradiction|].
  reflexivity.
Qed.

Lemma fold_renderTile_tiles (v : View) (screenLines : list ScreenLine) :
  0 < getRowsPerTile v ->
  getVisibleTileCount v <> 0 ->
  forall (rows : list Z) (acc : list (option VNode) * option ScreenLine),
    (forall T, T ∈ rows ->
       0 <= tileIndex v T < Z.of_nat (length acc.1)
       /\ getFirstTileStartRow v <= T) ->
    NoDup (tileIndex v <$> rows) ->
    let r := fold_left (renderTile v screenLines) rows acc in
    length r.1 = length acc.1
    /\ (forall T, T ∈ rows ->
          arrayGet (tileIndex v T) r.1
          = Some (VTile {| key := tileIndex v T; tileStartRow := T;
                           tileHeight := (inject_Z (getRowsPerTile v)
                                          * lineHeight (measurements v))%Q;
                           tileWidth := scrollWidth (measurements v);
                           translateY := topPixelPositionForRow v T;
                           lineNodes := linesOfTile v screenLines T |}))
    /\ (forall i, i ∉ tileIndex v <$> rows -> arrayGet i r.1 = arrayGet i acc.1)
    /\ r.2 = stillToMeasure (concat (linesOfTile v screenLines <$> rows)) acc.2.
Proof.
  intros Hr Hn. induction rows as [|T0 rows IH]; intros acc Hin Hnd; simpl.
  - split; [reflexivity|]. split; [intros T HT; inversion HT|].
    split; [reflexivity|]. destruct acc.2; reflexivity.
  - rewrite fmap_cons in Hnd. apply NoDup_cons in Hnd as [Hnot Hnd].
    destruct (Hin T0) as [Hin0 HT0]; [left|].
    rewrite (renderTile_effect v screenLines acc T0 Hr Hn HT0).
    set (acc' := (arraySet _ _ _, _)).
    assert (Hlen : length acc'.1 = length acc.1)
      by (apply length_arraySet; assumption).
    destruct (IH acc') as (HL & Hslots & Hrest & Hlongest).
    { intros T HT. rewrite Hlen. apply Hin. right. assumption. }
    { assumption. }
    split; [congruence|]. split; [|split].
    + intros T HT. apply elem_of_cons in HT as [->|HT].
      * rewrite Hrest by assumption. unfold acc'. simpl.
        apply arrayGet_arraySet_eq. assumption.
      * apply Hslots. assumption.
    + intros i Hi. try rewrite fmap_cons in Hi.
      apply not_elem_of_cons in Hi as [Hne Hi].
      rewrite Hrest by assumption. unfold acc'. simpl.
      apply arrayGet_arraySet_ne; [assumption|congruence].
    + rewrite Hlongest. unfold acc'. simpl. apply stillToMeasure_app.
Qed.

Lemma concat_chunks {A} (m : nat) (l : list A) :
  forall n : nat,
    concat ((fun k => take m (drop (k * m) l)) <$> seq 0 n) = take (n * m) l.
Proof.
  induction n as [|n IH].
  - reflexivity.
  - rewrite seq_S, fmap_app, concat_app, IH. simpl.
    rewrite app_nil_r.
    replace (m + n * m)%nat with (n * m + m)%nat by lia.
    rewrite <- take_take_drop. reflexivity.
Qed.

Lemma concat_linesOfTile (v : View) (screenLines : list ScreenLine) :
  0 < getRowsPerTile v ->
  concat (linesOfTile v screenLines <$> tileStartRows v)
  = renderedScreenLines v screenLines.
Proof.
  intros Hr. rewrite tileStartRows_seqZ by assumption.
  unfold renderedScreenLines.
  destruct (Z_lt_le_dec (getVisibleTileCount v) 0) as [Hneg|Hpos].
  - rewrite seqZ_nil by lia.
    replace (Z.to_nat (getVisibleTileCount v * getRowsPerTile v)) with 0%nat by nia.
    reflexivity.
  - unfold seqZ. rewrite <- !list_fmap_compose.
    replace (Z.to_nat (getVisibleTileCount v * getRowsPerTile v))
      with (Z.to_nat (getVisibleTileCount v) * Z.to_nat (getRowsPerTile v))%nat
      by nia.
    rewrite <- concat_chunks. f_equal.
    apply list_fmap_ext. intros _ k _. simpl. unfold linesOfTile.
    f_equal. f_equal. nia.
Qed.

Lemma renderLineTiles_frame (v : View) (screenLines : list ScreenLine)
    (longest : option ScreenLine)
    (r : list (option VNode) * option ScreenLine) :
  0 < getRowsPerTile v -> 0 <= getFirstVisibleRow v ->
  renderLineTiles v screenLines longest = Some r ->
  exists tiles,
    length tiles = Z.to_nat (getVisibleTileCount v)
    /\ (forall T, T ∈ tileStartRows v ->
          arrayGet (tileIndex v T) tiles
          = Some (VTile {| key := tileIndex v T; tileStartRow := T;
                           tileHeight := (inject_Z (getRowsPerTile v)
                                          * lineHeight (measurements v))%Q;
                           tileWidth := scrollWidth (measurements v);
                           translateY := topPixelPositionForRow v T;
                           lineNodes := linesOfTile v screenLines T |}))
    /\ r = (tiles ++ match stillToMeasure (renderedScreenLines v screenLines)
                             longest with
                     | Some l => [Some (VLine l)]
                     | None => []
                     end, None).
Proof.
  intros Hr Hfv. unfold renderLineTiles, newArray.
  destruct (Z.ltb_spec (getVisibleTileCount v) 0) as [|Hn]; [discriminate|].
  destruct (Z.eq_dec (getVisibleTileCount v) 0) as [Hz|Hnz].
  - assert (Hrows : tileStartRows v = []).
    { rewrite tileStartRows_seqZ by assumption. rewrite Hz. reflexivity. }
    rewrite Hrows, Hz. simpl. unfold renderedScreenLines. rewrite Hz. simpl.
    intros Hrun. exists []. split; [reflexivity|].
    split; [intros T HT; inversion HT|].
    destruct longest; injection Hrun as <-; reflexivity.
  - pose proof (fold_renderTile_tiles v screenLines Hr Hnz (tileStartRows v)
                  (replicate (Z.to_nat (getVisibleTileCount v)) None, longest))
      as Hfold.
    simpl in Hfold. rewrite length_replicate in Hfold.
    destruct Hfold as (Hlen & Hslots & _ & Hlongest).
    { intros T HT. pose proof (tileIndex_range v T Hr Hfv HT). split; [lia|].
      apply elem_of_tileStartRows in HT as (k & Hk & ->); [|assumption]. nia. }
    { apply tileIndex_NoDup; assumption. }
    rewrite concat_linesOfTile in Hlongest by assumption.
    set (r' := fold_left _ _ _) in *.
    intros Hrun. exists r'.1. split; [assumption|]. split; [assumption|].
    rewrite <- Hlongest.
    destruct r'.2; injection Hrun as <-; [reflexivity|].
    rewrite app_nil_r. reflexivity.
Qed.

(** X4: in a frame every tile is in the slot of its index and holds the
    fetched screen lines of its rows, with the height of a tile and the
    vertical offset of its start row; the lines of the tiles, in the order
    of the tiles, are the fetched lines up to the end of the last tile. *)
Theorem tiles_hold_the_fetched_lines (v : View) (screenLines : list ScreenLine)
    (longest : option ScreenLine)
    (r : list (option VNode) * option ScreenLine) :
  wellFormed v ->
  (0 <= scrollTop (measurements v))%Q ->
  renderLineTiles v screenLines longest = Some r ->
  (forall T, T ∈ tileStartRows v ->
     exists tile,
       arrayGet (tileIndex v T) r.1 = Some (VTile tile)
       /\ key tile = tileIndex v T
       /\ lineNodes tile
          = take (Z.to_nat (getRowsPerTile v))
              (drop (Z.to_nat (T - getFirstTileStartRow v)) screenLines)
       /\ tileHeight tile
          = (inject_Z (getRowsPerTile v) * lineHeight (measurements v))%Q
       /\ translateY tile = (inject_Z T * lineHeight (measurements v))%Q
       /\ tileWidth tile = scrollWidth (measurements v))
  /\ concat (linesOfTile v screenLines <$> tileStartRows v)
     = take (Z.to_nat (getVisibleTileCount v * getRowsPerTile v)) screenLines.
Proof.
  intros Hwf Ht Hrun.
  pose proof (firstVisibleRow_nonneg v Hwf Ht) as Hfv.
  destruct Hwf as [_ Hr].
  destruct (renderLineTiles_frame v screenLines longest r Hr Hfv Hrun)
    as (tiles & Hlen & Hslots & ->).
  split; [|apply concat_linesOfTile; assumption].
  intros T HT. eexists. split.
  - simpl. rewrite arrayGet_app_l; [apply Hslots; assumption|].
    pose proof (tileIndex_range v T Hr Hfv HT). lia.
  - simpl. repeat split; reflexivity.
Qed.

(** X5: [renderLineTiles] leaves no line to measure behind: every slot of
    the frame holds a tile, and the longest line to measure is appended
    after the tiles exactly when it is not one of the lines in them. *)
Theorem longest_line_rendered_once (v : View) (screenLines : list ScreenLine)
    (longest : option ScreenLine)
    (r : list (option VNode) * option ScreenLine) :
  wellFormed v ->
  (0 <= scrollTop (measurements v))%Q ->
  renderLineTiles v screenLines longest = Some r ->
  r.2 = None
  /\ exists tiles,
       length tiles = Z.to_nat (getVisibleTileCount v)
       /\ Forall (fun node => exists tile, node = Some (VTile tile)) tiles
       /\ r.1 = tiles
                ++ match longest with
                   | Some l =>
                       if isAmong l (renderedScreenLines v screenLines)
                       then [] else [Some (VLine l)]
                   | None => []
                   end.
Proof.
  intros Hwf Ht Hrun.
  pose proof (firstVisibleRow_nonneg v Hwf Ht) as Hfv.
  destruct Hwf as [_ Hr].
  destruct (renderLineTiles_frame v screenLines longest r Hr Hfv Hrun)
    as (tiles & Hlen & Hslots & ->).
  split; [reflexivity|]. exists tiles. split; [assumption|]. split.
  - apply Forall_lookup. intros i node Hi.
    assert (Hi' : (i < length tiles)%nat) by (eapply lookup_lt_Some; eassumption).
    destruct (tileIndex_onto v (Z.of_nat i) Hr Hfv) as (T & HT & Hidx); [lia|].
    specialize (Hslots T HT). rewrite Hidx in Hslots.
    unfold arrayGet in Hslots.
    destruct (Z.ltb_spec (Z.of_nat i) 0); [lia|].
    rewrite Nat2Z.id, Hi in Hslots. simpl in Hslots. subst node.
    eexists. reflexivity.
  - simpl. f_equal. destruct longest as [l|]; [|reflexivity].
    simpl. destruct (isAmong l _); reflexivity.
Qed.
End MoreTilesFacts.

Section GutterFacts.
Import Planner Gutter.

Lemma digitsOf_fuel (f : nat) :
  forall n (f' : nat),
    (1 <= f <= f')%nat -> 0 <= n < 10 ^ Z.of_nat f ->
    digitsOf f' n = digitsOf f n.
Proof.
  induction f as [|f IH]; intros n f' Hf Hn; [lia|].
  destruct f' as [|f']; [lia|]. simpl.
  destruct (Z.ltb_spec n 10) as [Hlt|Hge]; [reflexivity|].
  f_equal. apply IH.
  - destruct f as [|f]; [|lia]. simpl in Hn. lia.
  - split; [apply Z.div_pos; lia|].
    apply Z.div_lt_upper_bound; [lia|].
    rewrite Nat2Z.inj_succ, Z.pow_succ_r in Hn by lia. lia.
Qed.

Lemma length_digitsOf_mono (f : nat) :
  forall a b,
    0 <= a <= b -> b < 10 ^ Z.of_nat f ->
    (length (digitsOf f a) <= length (digitsOf f b))%nat.
Proof.
  induction f as [|f IH]; intros a b Hab Hb; [reflexivity|]. simpl.
  rewrite !length_app. simpl.
  destruct (Z.ltb_spec a 10) as [Ha|Ha]; [simpl; lia|].
  destruct (Z.ltb_spec b 10) as [Hb'|Hb']; [lia|].
  assert (length (digitsOf f (a / 10)) <= length (digitsOf f (b / 10)))%nat;
    [|lia].
  apply IH.
  - split; [apply Z.div_pos; lia|]. apply Z.div_le_mono; lia.
  - apply Z.div_lt_upper_bound; [lia|].
    rewrite Nat2Z.inj_succ, Z.pow_succ_r in Hb by lia. lia.
Qed.

Lemma numberToString_digits (n : Z) (f : nat) :
  0 <= n -> (1 <= f)%nat -> n < 10 ^ Z.of_nat f ->
  numberToString n = digitsOf f n.
Proof.
  intros Hn Hf Hlt. unfold numberToString.
  destruct (Z.ltb_spec n 0); [lia|].
  destruct (Z.eq_dec n 0) as [->|Hnz].
  - simpl. destruct f; [lia|]. reflexivity.
  - assert (Hlog : n < 10 ^ Z.of_nat (S (Z.to_nat (Z.log2 n)))).
    { pose proof (Z.log2_nonneg n).
      rewrite Nat2Z.inj_succ, Z2Nat.id by assumption.
      pose proof (Z.log2_spec n ltac:(lia)) as [_ Hup].
      eapply Z.lt_le_trans; [exact Hup|].
      apply Z.pow_le_mono_l. lia. }
    destruct (Nat.le_ge_cases f (S (Z.to_nat (Z.log2 n)))) as [Hle|Hle].
    + apply digitsOf_fuel; [lia|lia].
    + symmetry. apply digitsOf_fuel; [lia|lia].
Qed.

Lemma numberToString_bound (n : Z) :
  0 <= n -> n < 10 ^ Z.of_nat (S (Z.to_nat n)).
Proof.
  intros Hn. rewrite Nat2Z.inj_succ, Z2Nat.id by assumption.
  pose proof (Z.pow_gt_lin_r 10 (Z.succ n) ltac:(lia) ltac:(lia)). lia.
Qed.

Lemma length_numberToString_mono (a b : Z) :
  0 <= a <= b ->
  (length (numberToString a) <= length (numberToString b))%nat.
Proof.
  intros Hab.
  pose proof (numberToString_bound b ltac:(lia)) as Hb.
  rewrite (numberToString_digits a (S (Z.to_nat b))) by lia.
  rewrite (numberToString_digits b (S (Z.to_nat b))) by lia.
  apply length_digitsOf_mono; assumption.
Qed.

Lemma stringRepeat_unit (c count : Z) :
  0 <= count ->
  stringRepeat [c] count = Some (replicate (Z.to_nat count) c).
Proof.
  intros Hc. unfold stringRepeat.
  destruct (Z.ltb_spec count 0); [lia|]. f_equal.
  induction (Z.to_nat count) as [|n IH]; [reflexivity|].
  simpl. rewrite IH. reflexivity.
Qed.

Lemma label_fits (g : LineNumbers) (bufferRow : Z) (softWrapped : bool) :
  0 <= bufferRow < getLineCount g ->
  Z.of_nat (length (if softWrapped then BULLET
                    else numberToString (bufferRow + 1)))
  <= maxLineNumberDigits g.
Proof.
  intros Hb. unfold maxLineNumberDigits. destruct softWrapped; [simpl; lia|].
  pose proof (length_numberToString_mono (bufferRow + 1) (getLineCount g)
                ltac:(lia)).
  lia.
Qed.

Lemma lineNumberNodesFrom_done (g : LineNumbers) (fuel : nat)
    (row currentTileEndRow approximateLastScreenRow previousBufferRow : Z) :
  currentTileEndRow <= row ->
  lineNumberNodesFrom g fuel row currentTileEndRow approximateLastScreenRow
    previousBufferRow
  = Some ([], previousBufferRow).
Proof.
  intros Hge. destruct fuel; simpl; [reflexivity|].
  destruct (Z.ltb_spec row currentTileEndRow); [lia|]. reflexivity.
Qed.

Lemma lineNumberNodesFrom_rows (g : LineNumbers)
    (currentTileEndRow approximateLastScreenRow : Z) :
  forall (fuel : nat) (row previousBufferRow count : Z),
    0 <= row ->
    (Z.to_nat (currentTileEndRow - row) <= fuel)%nat ->
    (forall r, row <= r < currentTileEndRow -> r <= approximateLastScreenRow ->
               numbered g r) ->
    (row < currentTileEndRow -> row <= approximateLastScreenRow ->
     previousBufferRow = bufferRowBefore g row) ->
    count
    = Z.max 0 (Z.min currentTileEndRow (approximateLastScreenRow + 1) - row) ->
    exists previousBufferRow',
      lineNumberNodesFrom g fuel row currentTileEndRow approximateLastScreenRow
        previousBufferRow
      = Some (lineNumberNodeFor g <$> seqZ row count, previousBufferRow')
      /\ (approximateLastScreenRow < currentTileEndRow
          \/ previousBufferRow' = bufferRowBefore g currentTileEndRow
          \/ currentTileEndRow <= row).
Proof.
  induction fuel as [|fuel IH];
    intros row previousBufferRow count H0 Hfuel Hnum Hprev Hcount; simpl.
  - exists previousBufferRow. rewrite seqZ_nil by lia.
    split; [reflexivity|]. right. right. lia.
  - destruct (Z.ltb_spec row currentTileEndRow) as [Hlt|Hge]; simpl.
    + destruct (Z.leb_spec row approximateLastScreenRow) as [Hle|Hgt].
      * rewrite (Hprev Hlt Hle).
        pose proof (label_fits g (bufferRowForScreenRow g row)
                      (bufferRowForScreenRow g row =? bufferRowBefore g row)
                      (Hnum row ltac:(lia) Hle)) as Hfit.
        unfold NBSP_CHARACTER.
        rewrite stringRepeat_unit by (apply Z.le_0_sub; exact Hfit).
        destruct (IH (row + 1) (bufferRowForScreenRow g row) (count - 1))
          as (prev' & Hrun & Hprev'); [lia|lia| | |lia|].
        { intros r Hr Hr'. apply Hnum; [lia|assumption]. }
        { intros _ _. unfold bufferRowBefore.
          destruct (Z.ltb_spec 0 (row + 1)); [|lia].
          replace (row + 1 - 1) with row by lia. reflexivity. }
        rewrite Hrun. exists prev'. simpl. split.
        -- f_equal. f_equal.
           rewrite (seqZ_cons row) by lia. rewrite fmap_cons. reflexivity.
        -- destruct Hprev' as [Hcut|[Hfull|Hout]].
           ++ left. assumption.
           ++ right. left. assumption.
           ++ right. left. assert (currentTileEndRow = row + 1) by lia.
              subst currentTileEndRow.
              destruct (Z_lt_le_dec 0 count) as [Hpos|Hzero].
              ** rewrite lineNumberNodesFrom_done in Hrun by lia.
                 injection Hrun as _ <-. unfold bufferRowBefore.
                 destruct (Z.ltb_spec 0 (row + 1)); [|lia].
                 replace (row + 1 - 1) with row by lia. reflexivity.
              ** lia.
      * exists previousBufferRow. rewrite seqZ_nil by lia.
        split; [reflexivity|]. left. lia.
    + exists previousBufferRow. rewrite seqZ_nil by lia.
      split; [reflexivity|]. right. right. lia.
Qed.

Lemma seqZ_step (step : Z) (T : Z) (n : nat) :
  (fun k => T + k * step) <$> seqZ 0 (Z.of_nat (S n))
  = T :: ((fun k => (T + step) + k * step) <$> seqZ 0 (Z.of_nat n)).
Proof.
  rewrite seqZ_cons by lia. rewrite fmap_cons. f_equal; [lia|].
  replace (Z.succ 0) with (1 + 0) by lia.
  rewrite <- fmap_add_seqZ, <- list_fmap_compose.
  replace (Z.pred (Z.of_nat (S n))) with (Z.of_nat n) by lia.
  apply list_fmap_ext. intros _ k _. simpl. lia.
Qed.

Lemma fold_renderGutterTile (v : View) (g : LineNumbers) :
  0 < getRowsPerTile v ->
  getVisibleTileCount v <> 0 ->
  forall (n : nat) (T0 : Z) (children : list (option GutterTile))
         (previousBufferRow : Z),
    0 <= T0 ->
    let rows := (fun k => T0 + k * getRowsPerTile v) <$> seqZ 0 (Z.of_nat n) in
    (forall r, T0 <= r < T0 + Z.of_nat n * getRowsPerTile v ->
               r <= approximateScreenLineCount v - 1 -> numbered g r) ->
    (T0 <= approximateScreenLineCount v - 1 ->
     previousBufferRow = bufferRowBefore g T0) ->
    (forall T, T ∈ rows -> 0 <= tileIndex v T < Z.of_nat (length children)) ->
    NoDup (tileIndex v <$> rows) ->
    exists r,
      fold_left (renderGutterTile v g) rows (Some (children, previousBufferRow))
      = Some r
      /\ length r.1 = length children
      /\ (forall T, T ∈ rows ->
            Tiles.arrayGet (tileIndex v T) r.1 = Some (gutterTileFor v g T))
      /\ (forall i, i ∉ tileIndex v <$> rows ->
            Tiles.arrayGet i r.1 = Tiles.arrayGet i children).
Proof.
  intros Hr Hn. induction n as [|n IH];
    intros T0 children previousBufferRow H0 rows Hnum Hprev Hin Hnd.
  - exists (children, previousBufferRow). subst rows. simpl.
    split; [reflexivity|]. split; [reflexivity|].
    split; [intros T HT; inversion HT|reflexivity].
  - subst rows. rewrite seqZ_step in *. simpl.
    rewrite fmap_cons in Hnd. apply NoDup_cons in Hnd as [Hnot Hnd].
    assert (Hin0 : 0 <= tileIndex v T0 < Z.of_nat (length children))
      by (apply Hin; left).
    destruct (lineNumberNodesFrom_rows g (T0 + getRowsPerTile v)
                (approximateScreenLineCount v - 1)
                (Z.to_nat (getRowsPerTile v)) T0 previousBufferRow
                (Z.max 0 (Z.min (T0 + getRowsPerTile v)
                            (approximateScreenLineCount v) - T0)))
      as (prev' & Hrun & Hprev'); [lia|lia| | |f_equal; f_equal; lia|].
    { intros r Hr' Hlast. apply Hnum; [nia|assumption]. }
    { intros _ Hle. apply Hprev. assumption. }
    rewrite Hrun. simpl.
    destruct (Z.eqb_spec (getVisibleTileCount v) 0); [contradiction|].
    fold (gutterTileFor v g T0).
    set (children' := Tiles.arraySet (tileIndex v T0) (gutterTileFor v g T0)
                        children).
    assert (Hlen : length children' = length children)
      by (apply length_arraySet; assumption).
    destruct (IH (T0 + getRowsPerTile v) children' prev')
      as (r & Hfold & HL & Hslots & Hrest).
    { lia. }
    { intros r Hr' Hlast. apply Hnum; [nia|assumption]. }
    { intros Hle. destruct Hprev' as [Hcut|[Hfull|Hout]]; [lia|assumption|lia]. }
    { intros T HT. rewrite Hlen. apply Hin. right. assumption. }
    { assumption. }
    exists r. split; [assumption|]. split; [congruence|]. split.
    + intros T HT. apply elem_of_cons in HT as [->|HT].
      * rewrite Hrest by assumption. unfold children'.
        apply arrayGet_arraySet_eq. assumption.
      * apply Hslots. assumption.
    + intros i Hi. apply not_elem_of_cons in Hi as [Hne Hi].
      rewrite Hrest by assumption. unfold children'.
      apply arrayGet_arraySet_ne; [assumption|congruence].
Qed.

(** X6: when the buffer rows of the rendered screen rows are lines of the
    model, [renderLineNumberGutter] returns; the tile of every start row
    is in the slot of its index and has one node for each of its rows up
    to the last screen row; the node of a row shows a bullet when the row
    continues the buffer row of the screen row before it, also across
    tiles, and else the number of its buffer row; and every label is
    padded to [maxLineNumberDigits] code units. *)
Theorem gutter_line_numbers (v : View) (g : LineNumbers) :
  wellFormed v ->
  (0 <= scrollTop (measurements v))%Q ->
  0 <= getVisibleTileCount v ->
  (forall row, getRenderedStartRow v <= row < getRenderedEndRow v ->
               row <= approximateScreenLineCount v - 1 ->
               0 <= bufferRowForScreenRow g row < getLineCount g) ->
  exists children,
    renderLineNumberGutter (Some v) g = Some (GutterTiles children)
    /\ length children = Z.to_nat (getVisibleTileCount v)
    /\ (forall T, T ∈ tileStartRows v ->
          exists tile,
            Tiles.arrayGet (tileIndex v T) children = Some tile
            /\ tileStartRow tile = T
            /\ lineNumberNodes tile
               = lineNumberNodeFor g
                 <$> seqZ T (Z.max 0 (Z.min (T + getRowsPerTile v)
                                        (approximateScreenLineCount v) - T)))
    /\ (forall row,
          0 <= bufferRowForScreenRow g row < getLineCount g ->
          Z.of_nat (length (lineNumber (lineNumberNodeFor g row)))
          = maxLineNumberDigits g).
Proof.
  intros Hwf Ht Hcount Hnum.
  pose proof (firstVisibleRow_nonneg v Hwf Ht) as Hfv.
  destruct Hwf as [_ Hr].
  pose proof (firstTile_bounds v Hr) as (Hpos & _ & _). specialize (Hpos Hfv).
  assert (Hlabel : forall row,
            0 <= bufferRowForScreenRow g row < getLineCount g ->
            Z.of_nat (length (lineNumber (lineNumberNodeFor g row)))
            = maxLineNumberDigits g).
  { intros row Hrow. unfold lineNumberNodeFor. simpl.
    remember (if bufferRowForScreenRow g row =? bufferRowBefore g row
              then BULLET
              else numberToString (bufferRowForScreenRow g row + 1)) as label.
    assert (Hfit : Z.of_nat (length label) <= maxLineNumberDigits g)
      by (subst label; apply label_fits; assumption).
    rewrite length_app, length_replicate. lia. }
  unfold renderLineNumberGutter, Tiles.newArray.
  destruct (Z.ltb_spec (getVisibleTileCount v) 0) as [|_]; [lia|].
  destruct (Z.eq_dec (getVisibleTileCount v) 0) as [Hz|Hnz].
  - assert (Hrows : tileStartRows v = []).
    { rewrite tileStartRows_seqZ by assumption. rewrite Hz. reflexivity. }
    rewrite Hrows, Hz. simpl. exists []. split; [reflexivity|].
    split; [reflexivity|]. split; [intros T HT; inversion HT|assumption].
  - rewrite tileStartRows_seqZ by assumption.
    replace (seqZ 0 (getVisibleTileCount v))
      with (seqZ 0 (Z.of_nat (Z.to_nat (getVisibleTileCount v))))
      by (rewrite Z2Nat.id by lia; reflexivity).
    destruct (fold_renderGutterTile v g Hr Hnz
                (Z.to_nat (getVisibleTileCount v)) (getFirstTileStartRow v)
                (replicate (Z.to_nat (getVisibleTileCount v)) None)
                (if 0 <? getFirstTileStartRow v
                 then bufferRowForScreenRow g (getFirstTileStartRow v - 1)
                 else -1))
      as (r & Hfold & Hlen & Hslots & _).
    { lia. }
    { intros row Hrow Hlast. apply Hnum; [|assumption].
      unfold getRenderedStartRow, getRenderedEndRow.
      rewrite Z2Nat.id in Hrow by lia. lia. }
    { intros _. reflexivity. }
    { intros T HT. rewrite length_replicate.
      rewrite Z2Nat.id in HT by lia.
      rewrite <- tileStartRows_seqZ in HT by assumption.
      pose proof (tileIndex_range v T Hr Hfv HT). lia. }
    { rewrite Z2Nat.id by lia. rewrite <- tileStartRows_seqZ by assumption.
      apply tileIndex_NoDup; assumption. }
    rewrite Hfold. exists r.1. split; [reflexivity|].
    rewrite length_replicate in Hlen.
    split; [assumption|]. split; [|assumption].
    intros T HT. exists (gutterTileFor v g T).
    split; [|split; reflexivity].
    apply Hslots. assumption.
Qed.
End GutterFacts.

Section MoreLineFacts.
Import LineComponent.

Variable dl : DisplayLayer.
Variable text : jsstring.








End MoreLineFacts.

Section MoreLineFacts2.
Import LineComponent.


End MoreLineFacts2.

Section LineTextFacts.
Import LineComponent.

Variable dl : DisplayLayer.
Variable text : jsstring.






End LineTextFacts.

Section LineTextFacts2.
Import LineComponent.


End LineTextFacts2.

Section ScopeFacts.
Import LineComponent.

Variable dl : DisplayLayer.
Variable text : jsstring.





End ScopeFacts.

Section ScopeFacts2.
Import LineComponent.


End ScopeFacts2.

Section ClassNameFacts.
Import LineComponent.

Lemma replaceDotRuns_no_dot (s : jsstring) :
  forall inRun, 46 ∉ replaceDotRuns inRun s.
Proof.
  induction s as [|ch rest IH]; intros inRun; simpl.
  - apply not_elem_of_nil.
  - destruct (Z.eqb_spec ch 46) as [->|Hne].
    + destruct inRun; [apply IH|].
      apply not_elem_of_cons. split; [lia|apply IH].
    + apply not_elem_of_cons. split; [congruence|apply IH].
Qed.

Lemma replaceDotRuns_dotless (s : jsstring) :
  46 ∉ s -> forall inRun, replaceDotRuns inRun s = s.
Proof.
  induction s as [|ch rest IH]; intros Hno inRun; simpl; [reflexivity|].
  apply not_elem_of_cons in Hno as [Hne Hno].
  destruct (Z.eqb_spec ch 46) as [->|_]; [contradiction|].
  rewrite IH by assumption. reflexivity.
Qed.

Lemma length_replaceDotRuns (s : jsstring) :
  forall inRun, (length (replaceDotRuns inRun s) <= length s)%nat.
Proof.
  induction s as [|ch rest IH]; intros inRun; simpl; [lia|].
  destruct (ch =? 46); [destruct inRun|]; simpl;
    [specialize (IH true)|specialize (IH true)|specialize (IH false)]; lia.
Qed.

(** X10: [classNameForScopeName] with a table whose entries it has stored
    itself returns what it computes without the table, stores it, and
    keeps the table's entries; the class string has no dot, is not longer
    than the scope name, is the scope name when that has no dot, and is
    left unchanged by a second application. *)
Theorem class_names_have_no_dots
    (classNamesByScopeName : gmap jsstring jsstring) (scopeName : jsstring) :
  tableSound classNamesByScopeName ->
  let r := classNameForScopeNameIn classNamesByScopeName scopeName in
  r.1 = classNameForScopeName scopeName
  /\ tableSound r.2
  /\ r.2 !! scopeName = Some r.1
  /\ classNamesByScopeName ⊆ r.2
  /\ (46 ∉ r.1)
  /\ (length r.1 <= length scopeName)%nat
  /\ (46 ∉ scopeName -> r.1 = scopeName)
  /\ classNameForScopeName r.1 = r.1.
Proof.
  intros Hsound.
  assert (Hpure : (46 ∉ classNameForScopeName scopeName)
                  /\ (length (classNameForScopeName scopeName)
                      <= length scopeName)%nat
                  /\ (46 ∉ scopeName -> classNameForScopeName scopeName = scopeName)
                  /\ classNameForScopeName (classNameForScopeName scopeName)
                     = classNameForScopeName scopeName).
  { unfold classNameForScopeName. split; [apply replaceDotRuns_no_dot|].
    split; [apply length_replaceDotRuns|].
    split; [intros Hno; apply replaceDotRuns_dotless; assumption|].
    apply replaceDotRuns_dotless, replaceDotRuns_no_dot. }
  unfold classNameForScopeNameIn.
  destruct (classNamesByScopeName !! scopeName) as [classString|] eqn:Hlookup;
    simpl.
  - pose proof (Hsound _ _ Hlookup) as ->.
    split; [reflexivity|]. split; [assumption|]. split; [assumption|].
    split; [reflexivity|]. exact Hpure.
  - split; [reflexivity|]. split.
    + intros k v Hk. destruct (decide (k = scopeName)) as [->|Hne].
      * rewrite lookup_insert_eq in Hk. injection Hk as <-. reflexivity.
      * rewrite lookup_insert_ne in Hk by congruence. apply Hsound. assumption.
    + split; [apply lookup_insert_eq|].
      split; [apply insert_subseteq; assumption|]. exact Hpure.
Qed.

End ClassNameFacts.

Section MeasuredFacts.
Import Measure.

Variable surf : LineSurface.

Lemma textLength_app (l1 l2 : list jsstring) :
  textLength (l1 ++ l2) = textLength l1 + textLength l2.
Proof.
  induction l1 as [|node l1 IH]; simpl; [reflexivity|].
  unfold textLength in *. simpl. rewrite IH. lia.
Qed.

Lemma textLength_nonneg (l : list jsstring) : 0 <= textLength l.
Proof.
  induction l as [|node l IH]; unfold textLength in *; simpl; lia.
Qed.

Lemma locateColumn_passed (rest : list jsstring) (column : Z) :
  forall (passed : list jsstring) (index : nat) (startColumn : Z),
    startColumn + textLength passed < column ->
    locateColumn (passed ++ rest) index startColumn column
    = locateColumn rest (index + length passed)
        (startColumn + textLength passed) column.
Proof.
  induction passed as [|node passed IH]; intros index startColumn Hlt; simpl.
  - unfold textLength. simpl. rewrite Nat.add_0_r, Z.add_0_r. reflexivity.
  - change (textLength (node :: passed))
      with (Z.of_nat (length node) + textLength passed) in *.
    pose proof (textLength_nonneg passed).
    destruct (Z.leb_spec column (startColumn + Z.of_nat (length node))); [lia|].
    rewrite IH by lia. f_equal; lia.
Qed.

Lemma scanInStep_lowest (textNodes : list jsstring) (lo lo' : Z) (s : Scan) :
  lo <= lo' -> scanInStep surf textNodes lo s -> scanInStep surf textNodes lo' s.
Proof.
  intros Hle (passed & Hall & Hlen & Hstart & Hlow & Hleft & Hq).
  exists passed. repeat split; try assumption.
  destruct Hlow; [left; assumption|right; lia].
Qed.

Lemma scanInStep_locate (textNodes : list jsstring) (column : Z) (s : Scan) :
  0 < column ->
  scanInStep surf textNodes column s ->
  textNodeStartColumn s < column
  /\ locateColumn textNodes 0 0 column
     = locateColumn (nodesLeft s) (textNodesIndex s) (textNodeStartColumn s)
         column.
Proof.
  intros Hc (passed & Hall & Hlen & Hstart & Hlow & _).
  assert (Hlt : textNodeStartColumn s < column).
  { destruct Hlow as [->|Hlt]; [|assumption].
    rewrite Hstart. unfold textLength. simpl. assumption. }
  split; [assumption|].
  rewrite Hall, locateColumn_passed by lia.
  rewrite Hlen, Hstart. reflexivity.
Qed.

Lemma rangeReads_app (l1 l2 : list Query) :
  rangeReads (l1 ++ l2) = (rangeReads l1 + rangeReads l2)%nat.
Proof. unfold rangeReads. rewrite filter_app, length_app. reflexivity. Qed.

(** One uncached column that is not 0. *)
Lemma measureColumn_measures (textNodes : list jsstring) (column : Z) :
  0 < column ->
  forall nodes s,
    nodes = nodesLeft s ->
    scanInStep surf textNodes column s ->
    positions s !! column = None ->
    let s' := measureColumn surf column nodes s in
    scanInStep surf textNodes column s'
    /\ positions s'
       = match locateColumn nodes (textNodesIndex s) (textNodeStartColumn s)
                 column with
         | Some (index, offset) =>
             <[column := (rangeClientRight surf index 0 offset
                          - lineClientLeft surf)%Q]> (positions s)
         | None => positions s
         end
    /\ (rangeReads (queries s') <= rangeReads (queries s) + 1)%nat.
Proof.
  intros Hc. induction nodes as [|node rest IH]; intros s Hnodes Hinv Hnone.
  - simpl. split; [|split; [reflexivity|lia]].
    destruct Hinv as (passed & Hall & Hlen & Hstart & Hlow & Hleft & Hq).
    exists passed. simpl. rewrite <- Hnodes in Hall. auto 10.
  - assert (Hlt : textNodeStartColumn s < column)
      by (apply (scanInStep_locate textNodes); assumption).
    destruct Hinv as (passed & Hall & Hlen & Hstart & Hlow & Hleft & Hq).
    rewrite <- Hnodes in Hall.
    cbn [measureColumn locateColumn].
    destruct (Z.eqb_spec column 0) as [?|_]; [lia|].
    destruct (decide (is_Some (positions s !! column))) as [[x Hx]|_];
      [congruence|].
    destruct (Z.leb_spec column
                (textNodeStartColumn s + Z.of_nat (length node))) as [Hin|Hout].
    + destruct (Z.eqb_spec column (textNodeStartColumn s)) as [?|_]; [lia|].
      cbn zeta. split; [|split].
      * exists passed. cbn [nodesLeft textNodesIndex textNodeStartColumn
                             lineNodeClientLeft queries].
        split; [assumption|]. split; [assumption|]. split; [assumption|].
        split; [assumption|]. split.
        -- intros Hread.
           destruct (Qeq_bool (lineNodeClientLeft s) (-1)) eqn:Hfirst;
             [reflexivity|]. apply Hleft. reflexivity.
        -- apply Forall_app. split; [assumption|].
           apply Forall_app. split.
           ++ constructor; [|constructor]. simpl. split; [reflexivity|].
              exists node. split; [|clear - Hlt Hin; lia].
              rewrite Hall, <- Hlen. apply list_lookup_middle. reflexivity.
           ++ destruct (Qeq_bool _ _); [|constructor].
              constructor; [exact I|constructor].
      * cbn [positions]. f_equal. f_equal.
        destruct (Qeq_bool (lineNodeClientLeft s) (-1)) eqn:Hfirst;
          [reflexivity|]. apply Hleft. reflexivity.
      * cbn [queries]. rewrite !rangeReads_app.
        destruct (Qeq_bool _ _); unfold rangeReads; simpl; lia.
    + set (s1 := {| nodesLeft := rest; textNodesIndex := S (textNodesIndex s);
                    textNodeStartColumn :=
                      textNodeStartColumn s + Z.of_nat (length node);
                    lineNodeClientLeft := lineNodeClientLeft s;
                    positions := positions s; queries := queries s |}).
      destruct (IH s1) as (Hinv' & Hpos & Hreads); [reflexivity| |assumption|].
      { exists (passed ++ [node]). unfold s1. simpl.
        split; [rewrite <- app_assoc; assumption|].
        split; [rewrite length_app; simpl; lia|].
        split; [rewrite textLength_app, Hstart; unfold textLength; simpl; lia|].
        split; [right; lia|]. split; assumption. }
      split; [assumption|]. split; [|assumption].
      rewrite Hpos. reflexivity.
Qed.

Lemma measureColumn_step (textNodes : list jsstring) (column : Z) (s : Scan) :
  0 <= column ->
  scanInStep surf textNodes column s ->
  zeroAtZero (positions s) ->
  let s' := measureColumn surf column (nodesLeft s) s in
  scanInStep surf textNodes column s'
  /\ (forall d,
        positions s' !! d
        = if decide (d = column)
          then match positions s !! column with
               | Some x => Some x
               | None => measuredPosition surf textNodes column
               end
          else positions s !! d)
  /\ (rangeReads (queries s') <= rangeReads (queries s) + 1)%nat.
Proof.
  intros H0 Hinv Hzero.
  destruct (positions s !! column) as [x|] eqn:Hcached.
  - destruct (Z.eq_dec column 0) as [->|Hne].
    + assert (Hx : x = 0%Q) by (apply Hzero; assumption). subst x.
      destruct (nodesLeft s) as [|node rest] eqn:Hnodes; simpl.
      * split; [|split; [|lia]].
        -- destruct Hinv as (passed & Hall & Hlen & Hstart & Hlow & Hleft & Hq).
           exists passed. simpl. rewrite Hnodes in Hall. auto 10.
        -- intros d. destruct (decide (d = 0)) as [->|]; [assumption|reflexivity].
      * split; [|split; [|lia]].
        -- destruct Hinv as (passed & Hall & Hlen & Hstart & Hlow & Hleft & Hq).
           exists passed. simpl. rewrite Hnodes in Hall. auto 10.
        -- intros d. destruct (decide (d = 0)) as [->|Hd].
           ++ apply lookup_insert_eq.
           ++ apply lookup_insert_ne. congruence.
    + rewrite measureColumn_cached; [|assumption|eexists; eassumption].
      split; [assumption|]. split; [|lia].
      intros d. destruct (decide (d = column)) as [->|]; [assumption|reflexivity].
  - destruct (Z.eq_dec column 0) as [->|Hne].
    + destruct Hinv as (passed & Hall & Hlen & Hstart & Hlow & Hleft & Hq).
      assert (Hpassed : passed = []).
      { destruct Hlow as [?|Hlt]; [assumption|].
        pose proof (textLength_nonneg passed). lia. }
      subst passed. simpl in Hall.
      destruct (nodesLeft s) as [|node rest] eqn:Hnodes; simpl.
      * split; [|split; [|lia]].
        -- exists []. simpl. auto 10.
        -- intros d. unfold measuredPosition. rewrite Hall. simpl.
           destruct (decide (d = 0)) as [->|]; [assumption|reflexivity].
      * split; [|split; [|lia]].
        -- exists []. simpl. auto 10.
        -- intros d. unfold measuredPosition. rewrite Hall. simpl.
           destruct (decide (d = 0)) as [->|Hd].
           ++ apply lookup_insert_eq.
           ++ apply lookup_insert_ne. congruence.
    + assert (Hc : 0 < column) by lia.
      destruct (measureColumn_measures textNodes column Hc (nodesLeft s) s
                  eq_refl Hinv Hcached) as (Hinv' & Hpos & Hreads).
      split; [assumption|]. split; [|assumption].
      destruct (scanInStep_locate textNodes column s Hc Hinv) as [_ Hloc].
      intros d. rewrite Hpos. unfold measuredPosition.
      destruct (Z.eqb_spec column 0); [contradiction|].
      rewrite Hloc.
      destruct (locateColumn _ _ _ _) as [[index offset]|].
      * destruct (decide (d = column)) as [->|Hd].
        -- apply lookup_insert_eq.
        -- apply lookup_insert_ne. congruence.
      * destruct (decide (d = column)) as [->|Hd]; [assumption|reflexivity].
Qed.

Lemma measureColumns_step (textNodes : list jsstring) :
  forall (columns : list Z) (s : Scan) (lowest : Z),
    StronglySorted Z.le columns ->
    Forall (fun column => lowest <= column) columns ->
    0 <= lowest ->
    scanInStep surf textNodes lowest s ->
    zeroAtZero (positions s) ->
    let s' := measureColumns surf columns s in
    Forall (inBounds textNodes) (queries s')
    /\ (forall d,
          positions s' !! d
          = match positions s !! d with
            | Some x => Some x
            | None => if decide (d ∈ columns)
                      then measuredPosition surf textNodes d else None
            end)
    /\ (rangeReads (queries s') <= rangeReads (queries s) + length columns)%nat.
Proof.
  induction columns as [|column columns IH];
    intros s lowest Hsorted Hlow H0 Hinv Hzero.
  - simpl. split; [destruct Hinv as (? & _ & _ & _ & _ & _ & Hq); exact Hq|].
    split; [|lia].
    intros d. destruct (positions s !! d); [reflexivity|].
    destruct (decide (d ∈ [])) as [Hin|]; [inversion Hin|reflexivity].
  - rewrite measureColumns_cons.
    apply StronglySorted_inv in Hsorted as [Hsorted Hle].
    apply Forall_cons in Hlow as [Hlow0 Hlow].
    destruct (measureColumn_step textNodes column s ltac:(lia)
                (scanInStep_lowest textNodes _ _ s Hlow0 Hinv) Hzero)
      as (Hinv1 & Hpos1 & Hreads1).
    set (s1 := measureColumn surf column (nodesLeft s) s) in *.
    destruct (IH s1 column Hsorted Hle ltac:(lia) Hinv1) as (Hq & Hpos & Hreads).
    { apply measureColumn_zeroAtZero. assumption. }
    split; [assumption|]. split; [|simpl; lia].
    intros d. rewrite Hpos, Hpos1.
    destruct (decide (d = column)) as [->|Hne].
    + destruct (positions s !! column) as [x|]; [reflexivity|].
      destruct (decide (column ∈ column :: columns)) as [_|Hnot];
        [|exfalso; apply Hnot; left].
      destruct (measuredPosition surf textNodes column); [reflexivity|].
      destruct (decide (column ∈ columns)); reflexivity.
    + destruct (positions s !! d) as [x|]; [reflexivity|].
      destruct (decide (d ∈ columns)) as [Hin|Hnot];
        destruct (decide (d ∈ column :: columns)) as [Hin'|Hnot'];
        try reflexivity.
      * exfalso. apply Hnot'. right. assumption.
      * exfalso. apply elem_of_cons in Hin' as [?|?]; contradiction.
Qed.

Lemma scanInStep_start (textNodes : list jsstring) (cached : gmap Z Q) :
  scanInStep surf textNodes 0
    {| nodesLeft := textNodes; textNodesIndex := 0; textNodeStartColumn := 0;
       lineNodeClientLeft := (-1)%Q; positions := cached; queries := [] |}.
Proof.
  exists []. simpl. repeat split; auto. discriminate.
Qed.

Lemma sortColumns_elem_of (columns : list Z) (c : Z) :
  c ∈ sortColumns columns <-> c ∈ columns.
Proof. unfold sortColumns. rewrite merge_sort_Permutation. reflexivity. Qed.

Lemma sortColumns_Forall (P : Z -> Prop) (columns : list Z) :
  Forall P columns -> Forall P (sortColumns columns).
Proof.
  intros HP. unfold sortColumns. rewrite merge_sort_Permutation. assumption.
Qed.

Lemma length_sortColumns (columns : list Z) :
  length (sortColumns columns) = length columns.
Proof. unfold sortColumns. rewrite merge_sort_Permutation. reflexivity. Qed.

(** X11: after a measurement pass over sorted columns that are not
    negative, a column that was cached has the value it had; a requested
    column that was not cached has position 0 when it is column 0, and
    else the right edge of the range from the start of the first text
    node that ends at or after it, less the left edge of the line; a
    column past the text nodes, or not requested, stays without a
    position. *)
Theorem measured_positions_are_range_edges (textNodes : list jsstring)
    (columns : list Z) (cached : gmap Z Q) :
  Forall (fun column => 0 <= column) columns ->
  zeroAtZero cached ->
  forall column,
    (measureHorizontalPositionsOnLine surf textNodes (sortColumns columns)
       cached).1 !! column
    = match cached !! column with
      | Some x => Some x
      | None => if decide (column ∈ columns)
                then measuredPosition surf textNodes column else None
      end.
Proof.
  intros Hnonneg Hzero column. unfold measureHorizontalPositionsOnLine.
  destruct (measureColumns_step textNodes (sortColumns columns) _ 0
              (sortColumns_sorted columns)
              (sortColumns_Forall _ _ Hnonneg) ltac:(lia)
              (scanInStep_start textNodes cached) Hzero) as (_ & Hpos & _).
  simpl. rewrite Hpos. simpl.
  destruct (cached !! column); [reflexivity|].
  destruct (decide (column ∈ sortColumns columns)) as [Hin|Hnot];
    destruct (decide (column ∈ columns)) as [Hin'|Hnot']; try reflexivity.
  - exfalso. apply Hnot'. apply sortColumns_elem_of. assumption.
  - exfalso. apply Hnot. apply sortColumns_elem_of. assumption.
Qed.

(** X12: every range read of a measurement pass over sorted columns that
    are not negative starts at offset 0 of an existing text node and ends
    after at least one and at most all of its code units, and a pass
    makes at most one range read for each requested column. *)
Theorem measurement_reads_stay_in_bounds (textNodes : list jsstring)
    (columns : list Z) (cached : gmap Z Q) :
  Forall (fun column => 0 <= column) columns ->
  zeroAtZero cached ->
  let reads := (measureHorizontalPositionsOnLine surf textNodes
                  (sortColumns columns) cached).2 in
  Forall (inBounds textNodes) reads
  /\ (length (filter (fun q => isRangeQuery q = true) reads)
      <= length columns)%nat.
Proof.
  intros Hnonneg Hzero. unfold measureHorizontalPositionsOnLine.
  destruct (measureColumns_step textNodes (sortColumns columns) _ 0
              (sortColumns_sorted columns)
              (sortColumns_Forall _ _ Hnonneg) ltac:(lia)
              (scanInStep_start textNodes cached) Hzero) as (Hq & _ & Hreads).
  simpl in *. split; [assumption|].
  rewrite length_sortColumns in Hreads. exact Hreads.
Qed.
End MeasuredFacts.

Section RespectsFacts.
Context {E : Type}.
Variable R : Component -> Component -> Prop.
Variable P : Event -> bool.
Hypothesis Rrefl : forall c, R c c.
Hypothesis Rtrans : forall a b c, R a b -> R b c -> R a c.

Lemma Respects_same {A} (m : M E A) :
  (forall w a w', m w = Some (a, w') -> comp w' = comp w /\ trace w' = trace w) ->
  Respects R P m.
Proof.
  intros Hm w a w' Hr. destruct (Hm _ _ _ Hr) as [Hc Ht].
  rewrite Hc. split; [apply Rrefl|]. exists []. rewrite app_nil_r. auto.
Qed.

Lemma Respects_ret {A} (a : A) : Respects R P (@ret E A a).
Proof.
  apply Respects_same. intros w a' w' Hr. injection Hr as <- <-. auto.
Qed.

Lemma Respects_throw {A} : Respects R P (@throw E A).
Proof. intros w a w' Hr. discriminate. Qed.

Lemma Respects_bind {A B} (m : M E A) (f : A -> M E B) :
  Respects R P m -> (forall a, Respects R P (f a)) -> Respects R P (bind m f).
Proof.
  intros Hm Hf w b w' Hr. apply bind_Some in Hr as (a & w1 & Hm1 & Hf1).
  destruct (Hm _ _ _ Hm1) as (HR1 & evs1 & Ht1 & Hq1).
  destruct (Hf _ _ _ _ Hf1) as (HR2 & evs2 & Ht2 & Hq2).
  split; [eapply Rtrans; eassumption|].
  exists (evs1 ++ evs2). rewrite Ht2, Ht1, app_assoc.
  split; [reflexivity|apply Forall_app; auto].
Qed.

Lemma Respects_getComp : Respects R P (@getComp E).
Proof.
  apply Respects_same. intros w a w' Hr. injection Hr as <- <-. auto.
Qed.

Lemma Respects_getExt : Respects R P (@getExt E).
Proof.
  apply Respects_same. intros w a w' Hr. injection Hr as <- <-. auto.
Qed.

Lemma Respects_modifyExt (f : E -> E) : Respects R P (modifyExt f).
Proof.
  apply Respects_same. intros w a w' Hr. injection Hr as <- <-. auto.
Qed.

Lemma Respects_modifyComp (f : Component -> Component) :
  (forall c, R c (f c)) -> Respects R P (@modifyComp E f).
Proof.
  intros Hf w a w' Hr. injection Hr as <- <-. simpl.
  split; [apply Hf|]. exists []. rewrite app_nil_r. auto.
Qed.

Lemma Respects_emit (e : Event) : P e = false -> Respects R P (@emit E e).
Proof.
  intros He w a w' Hr. injection Hr as <- <-. simpl.
  split; [apply Rrefl|]. exists [e]. auto.
Qed.

Lemma Respects_forEach {A} (f : A -> M E unit) (l : list A) :
  (forall a, Respects R P (f a)) -> Respects R P (forEach f l).
Proof.
  intros Hf. induction l as [|a l IH]; simpl.
  - apply Respects_ret.
  - apply Respects_bind; [apply Hf|]. intros _. assumption.
Qed.

Lemma Respects_resolvePromise (p : nat) :
  P (EvResolve p) = false -> Respects R P (@resolvePromise E p).
Proof.
  intros He w a w' Hr. unfold resolvePromise in Hr.
  destruct (promises w !! p) as [cell|]; [|discriminate].
  destruct (fulfilled cell); injection Hr as <- <-; simpl;
    (split; [apply Rrefl|]; exists [EvResolve p]; auto).
Qed.

End RespectsFacts.

Lemma sameMeasured_refl (m : option Measurements) : sameMeasured m m.
Proof. destruct m; simpl; auto 10. Qed.

Lemma sameMeasured_trans (a b c : option Measurements) :
  sameMeasured a b -> sameMeasured b c -> sameMeasured a c.
Proof.
  destruct a, b, c; simpl; try tauto.
  intros (? & ? & ? & ? & ? & ? & ? & ?) (? & ? & ? & ? & ? & ? & ? & ?).
  repeat split; congruence.
Qed.

Lemma steady_refl (c : Component) : steady c c.
Proof. unfold steady. pose proof (sameMeasured_refl (measurements c)). auto 10. Qed.

Lemma steady_trans (a b c : Component) : steady a b -> steady b c -> steady a c.
Proof.
  intros (Hv1 & Hf1 & Hr1 & Hs1 & Hst1 & Hu1 & Hm1 & Hc1 & Hg1)
         (Hv2 & Hf2 & Hr2 & Hs2 & Hst2 & Hu2 & Hm2 & Hc2 & Hg2).
  unfold steady.
  split; [congruence|]. split; [congruence|]. split; [congruence|].
  split; [congruence|]. split; [congruence|]. split; [auto|].
  split; [eapply sameMeasured_trans; eassumption|]. split; auto.
Qed.

(** A change of fields that [steady] does not look at. *)
Lemma steady_fields (c c' : Component) :
  visible c' = visible c ->
  focused c' = focused c ->
  rowsPerTileProp c' = rowsPerTileProp c ->
  updatedSynchronously c' = updatedSynchronously c ->
  staleMeasurements c' = staleMeasurements c ->
  (updateScheduled c' = true -> updateScheduled c = true) ->
  sameMeasured (measurements c) (measurements c') ->
  horizontalPixelPositionsByScreenLineId c'
  = horizontalPixelPositionsByScreenLineId c ->
  lineNodesByScreenLineId c' = lineNodesByScreenLineId c ->
  textNodesByScreenLineId c' = textNodesByScreenLineId c ->
  steady c c'.
Proof.
  intros Hv Hf Hr Hs Hst Hu Hm Hc Hl Ht. unfold steady.
  split; [assumption|]. split; [assumption|]. split; [assumption|].
  split; [assumption|]. split; [assumption|]. split; [assumption|].
  split; [assumption|]. split.
  - unfold cacheZeroed. rewrite Hc. auto.
  - unfold registered. rewrite Hl, Ht. auto.
Qed.

Ltac steady_change :=
  apply steady_fields; simpl;
  first [reflexivity | tauto | discriminate | apply sameMeasured_refl].

Ltac respects_step :=
  match goal with
  | |- Respects steady _ (bind _ _) =>
      apply (Respects_bind steady _ steady_trans); [|intros ?]
  | |- Respects steady _ (ret _) => apply (Respects_ret steady _ steady_refl)
  | |- Respects steady _ throw => apply Respects_throw
  | |- Respects steady _ getComp => apply (Respects_getComp steady _ steady_refl)
  | |- Respects steady _ getExt => apply (Respects_getExt steady _ steady_refl)
  | |- Respects steady _ (modifyExt _) =>
      apply (Respects_modifyExt steady _ steady_refl)
  | |- Respects steady _ (modifyComp _) =>
      apply Respects_modifyComp; intros ?; steady_change
  | |- Respects steady _ (emit ?e) =>
      apply (Respects_emit steady _ steady_refl e); reflexivity
  | |- Respects steady _ (forEach _ _) =>
      apply (Respects_forEach steady _ steady_refl steady_trans); intros ?
  | |- Respects steady _ (match ?x with _ => _ end) => destruct x
  end.

Ltac respects := repeat respects_step.

Section SteadyFacts.
Context {E : Type} (H : Host E) (ZW : jsstring).

Lemma Steady_getView : Respects steady outsideCycle (getView H).
Proof. unfold getView. respects. Qed.

Lemma Steady_measureEditorDimensions :
  Respects steady outsideCycle
    (measureEditorDimensions H).
Proof.
  intros w a w' Hr. unfold measureEditorDimensions in Hr.
  unfold bind, getComp, getExt, emit, modifyComp, ret in Hr. simpl in Hr.
  destruct (measurements (comp w)) as [m|] eqn:Hm; [|discriminate].
  injection Hr as <- <-. simpl. split.
  - apply steady_fields; simpl; try reflexivity; try tauto.
    rewrite Hm. destruct (negb _), (negb _); simpl; auto 10.
  - exists [EvReadEditorDimensions]. auto.
Qed.

Lemma Steady_getLongestScreenLine :
  Respects steady outsideCycle
    (getLongestScreenLine H).
Proof. unfold getLongestScreenLine. respects. apply Steady_getView. Qed.

Lemma Steady_pixelLeft r c :
  Respects steady outsideCycle
    (pixelLeftForScreenRowAndColumn H r c).
Proof. unfold pixelLeftForScreenRowAndColumn. respects. Qed.

Lemma Steady_renderInput : Respects steady outsideCycle (renderInput H).
Proof. unfold renderInput. respects; apply Steady_pixelLeft. Qed.

Lemma Steady_render : Respects steady outsideCycle (render H).
Proof.
  unfold render. respects; first [apply Steady_getView | apply Steady_renderInput].
Qed.

End SteadyFacts.

Section SteadyFacts.
Context {E : Type} (H : Host E) (ZW : jsstring).

Lemma Steady_applyPatchOp op :
  Respects steady outsideCycle (applyPatchOp H ZW op).
Proof.
  intros w a w' Hr. unfold applyPatchOp in Hr. destruct op as [l|l].
  - destruct (LineComponent.construct ZW (displayLayer H) l) as [r|] eqn:Hc;
      [|discriminate].
    injection Hr as <- <-. simpl.
    split; [|exists []; rewrite app_nil_r; auto].
    unfold steady. simpl.
    do 6 (split; [tauto|]). split; [apply sameMeasured_refl|].
    split; [tauto|].
    intros [Hdom Hne]. split.
    + simpl. rewrite !dom_insert_L, Hdom. reflexivity.
    + simpl. intros lineId textNodes Hl.
      destruct (decide (lineId = id l)) as [->|Hneq].
      * rewrite lookup_insert_eq in Hl. injection Hl as <-.
        apply (construct_text_nodes ZW (displayLayer H) l r Hc).
      * rewrite lookup_insert_ne in Hl by congruence. eapply Hne; eassumption.
  - injection Hr as <- <-. simpl.
    split; [|exists []; rewrite app_nil_r; auto].
    unfold steady. simpl.
    do 6 (split; [tauto|]). split; [apply sameMeasured_refl|].
    split; [tauto|].
    intros [Hdom Hne]. split.
    + simpl. rewrite !dom_delete_L, Hdom. reflexivity.
    + simpl. intros lineId textNodes Hl.
      apply lookup_delete_Some in Hl as [_ Hl]. eapply Hne; eassumption.
Qed.

Lemma Steady_etchUpdateSync :
  Respects steady outsideCycle (etchUpdateSync H ZW).
Proof.
  unfold etchUpdateSync. respects;
    first [apply Steady_render | apply Steady_applyPatchOp].
Qed.

Lemma Steady_measureLongestLineWidth l :
  Respects steady outsideCycle (measureLongestLineWidth H l).
Proof.
  intros w a w' Hr. unfold measureLongestLineWidth in Hr.
  unfold bind, getComp, getExt, emit, modifyComp, throw in Hr. simpl in Hr.
  destruct l as [l|]; [|discriminate].
  destruct (measurements (comp w)) as [m|] eqn:Hm; [|discriminate].
  destruct (lineNodesByScreenLineId (comp w) !! id l); [|discriminate].
  injection Hr as <- <-. simpl. split.
  - apply steady_fields; simpl; try reflexivity; try tauto.
    rewrite Hm. simpl. auto 10.
  - exists [EvReadLongestLineWidth (id l)]. auto.
Qed.

Lemma Steady_queryCursorsToRender :
  Respects steady outsideCycle (queryCursorsToRender H).
Proof. unfold queryCursorsToRender. respects. apply Steady_getView. Qed.

Lemma measureOnLine_zeroAtZero (surf : Measure.LineSurface)
    (textNodes : list jsstring) (columns : list Z) (positions : gmap Z Q) :
  Measure.zeroAtZero positions ->
  Measure.zeroAtZero
    (Measure.measureHorizontalPositionsOnLine surf textNodes columns
       positions).1.
Proof.
  intros Hz. unfold Measure.measureHorizontalPositionsOnLine. simpl.
  apply measureColumns_zeroAtZero. assumption.
Qed.

Lemma cacheZeroed_insert (c : Component) (lineId : Z) (positions : gmap Z Q) :
  cacheZeroed c ->
  Measure.zeroAtZero positions ->
  cacheZeroed
    (set_horizontalPixelPositionsByScreenLineId
       (<[lineId := positions]> (horizontalPixelPositionsByScreenLineId c)) c).
Proof.
  intros Hc Hz k p Hk. simpl in Hk.
  destruct (decide (k = lineId)) as [->|Hne].
  - rewrite lookup_insert_eq in Hk. injection Hk as <-. assumption.
  - rewrite lookup_insert_ne in Hk by congruence. eapply Hc; eassumption.
Qed.

Lemma cacheZeroed_default (c : Component) (lineId : Z) :
  cacheZeroed c ->
  Measure.zeroAtZero
    (default ∅ (horizontalPixelPositionsByScreenLineId c !! lineId)).
Proof.
  intros Hc.
  destruct (horizontalPixelPositionsByScreenLineId c !! lineId) as [p|] eqn:Hp;
    simpl.
  - eapply Hc; eassumption.
  - intros x Hx. rewrite lookup_empty in Hx. discriminate.
Qed.

Lemma Steady_measureRow entry :
  Respects steady outsideCycle (measureRow H entry).
Proof.
  intros w a w' Hr. unfold measureRow in Hr.
  apply bind_Some in Hr as (e & w1 & He & Hr). injection He as <- <-.
  apply bind_Some in Hr as (this & w1 & Hthis & Hr). injection Hthis as <- <-.
  destruct (getScreenLine H (ext w) entry.1) as [screenLine|]; [|discriminate].
  destruct (textNodesByScreenLineId (comp w) !! id screenLine)
    as [textNodes|].
  - apply bind_Some in Hr as (u & w1 & Hemit & Hr).
    rewrite forEach_emit in Hemit. injection Hemit as _ <-.
    injection Hr as <- <-. simpl. split.
    + unfold steady. simpl.
      do 6 (split; [tauto|]). split; [apply sameMeasured_refl|].
      split; [|tauto].
      intros Hc. apply cacheZeroed_insert; [assumption|].
      apply measureOnLine_zeroAtZero, cacheZeroed_default. assumption.
    + eexists. split; [reflexivity|].
      apply Forall_fmap, Forall_forall. intros q _. reflexivity.
  - destruct (Measure.sortColumns entry.2); [|discriminate].
    injection Hr as <- <-. simpl. split.
    + unfold steady. simpl.
      do 6 (split; [tauto|]). split; [apply sameMeasured_refl|].
      split; [|tauto].
      intros Hc. apply cacheZeroed_insert; [assumption|].
      apply cacheZeroed_default. assumption.
    + exists []. rewrite app_nil_r. auto.
Qed.

Lemma Steady_measureHorizontalPositions :
  Respects steady outsideCycle (measureHorizontalPositions H).
Proof.
  unfold measureHorizontalPositions. respects. apply Steady_measureRow.
Qed.

Lemma Steady_positionCursor m c :
  Respects steady outsideCycle (positionCursor H m c).
Proof. unfold positionCursor. respects; apply Steady_pixelLeft. Qed.

Lemma Steady_positionCursors m cs :
  Respects steady outsideCycle (positionCursors H m cs).
Proof.
  induction cs as [|c cs IH]; simpl; respects;
    [apply Steady_positionCursor|assumption].
Qed.

Lemma Steady_positionCursorsToRender :
  Respects steady outsideCycle (positionCursorsToRender H).
Proof.
  unfold positionCursorsToRender. respects. apply Steady_positionCursors.
Qed.

Lemma Steady_updateSync : Respects steady outsideCycle (updateSync H ZW).
Proof.
  unfold updateSync. respects;
    first [ apply Steady_measureEditorDimensions
          | apply Steady_getLongestScreenLine
          | apply Steady_etchUpdateSync
          | apply Steady_measureLongestLineWidth
          | apply Steady_queryCursorsToRender
          | apply Steady_measureHorizontalPositions
          | apply Steady_positionCursorsToRender
          | apply (Respects_resolvePromise steady _ steady_refl); reflexivity
          | idtac ].
Qed.

End SteadyFacts.

Ltac unbind Hr :=
  repeat (let a := fresh "a" in
          let w := fresh "w" in
          let Hs := fresh "Hstep" in
          apply bind_Some in Hr as (a & w & Hs & Hr)).

Section CycleFacts.
Context {E : Type} (H : Host E) (ZW : jsstring).

Lemma set_updateScheduled_same (c : Component) :
  updateScheduled c = false -> set_updateScheduled false c = c.
Proof. destruct c. simpl. intros ->. reflexivity. Qed.

Lemma updateSync_unscheduled (w w' : World E) :
  updateSync H ZW w = Some (tt, w') -> updateScheduled (comp w') = false.
Proof.
  intros Hr.
  set (w1 := {| comp := set_updateScheduled false (comp w); ext := ext w;
                trace := trace w; promises := promises w;
                microtasks := microtasks w |}).
  assert (Hr1 : updateSync H ZW w1 = Some (tt, w')).
  { unfold updateSync in *. unfold bind at 1. unfold bind at 1 in Hr.
    simpl in *. unfold w1. simpl.
    rewrite set_updateScheduled_same by reflexivity. exact Hr. }
  destruct (Steady_updateSync H ZW _ _ _ Hr1) as [(_ & _ & _ & _ & _ & Hu & _) _].
  destruct (updateScheduled (comp w')); [|reflexivity].
  specialize (Hu eq_refl). discriminate.
Qed.

Lemma renderLineTiles_clears (v : Planner.View) (screenLines : list ScreenLine)
    (longest : option ScreenLine) r :
  Tiles.renderLineTiles v screenLines longest = Some r -> r.2 = None.
Proof.
  unfold Tiles.renderLineTiles.
  destruct (Tiles.newArray _); [|discriminate].
  destruct (fold_left _ _ _).2; intros Hr; injection Hr as <-; reflexivity.
Qed.

Lemma applyPatchOps_frame (ops : list PatchOp) :
  forall w w',
    forEach (applyPatchOp H ZW) ops w = Some (tt, w') ->
    longestLineToMeasure (comp w') = longestLineToMeasure (comp w)
    /\ cursorsToRender (comp w') = cursorsToRender (comp w)
    /\ measurements (comp w') = measurements (comp w)
    /\ ext w' = ext w
    /\ trace w' = trace w.
Proof.
  induction ops as [|op ops IH]; intros w w' Hr; simpl in Hr.
  - injection Hr as <-. auto.
  - apply bind_Some in Hr as (u & w1 & Hop & Hr).
    destruct (IH _ _ Hr) as (Hl & Hc & Hm & He & Ht).
    rewrite Hl, Hc, Hm, He, Ht. clear - Hop.
    unfold applyPatchOp in Hop. destruct op as [l|l].
    + destruct (LineComponent.construct _ _ _); [|discriminate].
      injection Hop as _ <-. simpl. repeat split; reflexivity.
    + injection Hop as _ <-. simpl. repeat split; reflexivity.
Qed.

(** What [render] does to the component and the world. *)
Lemma render_frame (w w' : World E) tiles :
  render H w = Some (tiles, w') ->
  cursorsToRender (comp w') = cursorsToRender (comp w)
  /\ measurements (comp w') = measurements (comp w)
  /\ ext w' = ext w
  /\ trace w' = trace w
  /\ (is_Some (measurements (comp w)) -> longestLineToMeasure (comp w') = None)
  /\ (longestLineToMeasure (comp w) = None -> longestLineToMeasure (comp w') = None).
Proof.
  unfold render. intros Hr.
  apply bind_Some in Hr as (this & w1 & Hthis & Hr). injection Hthis as <- <-.
  destruct (measurements (comp w)) as [m|] eqn:Hm.
  - apply bind_Some in Hr as (v & w1 & Hv & Hr).
    apply getView_effect in Hv as (-> & _).
    apply bind_Some in Hr as (u & w2 & Hin & Hr).
    assert (Hw2 : w2 = w).
    { clear - Hin. unfold renderInput in Hin.
      apply bind_Some in Hin as (this & w1 & Hthis & Hin).
      injection Hthis as <- <-.
      destruct (focused (comp w)), (inputScreenPosition (comp w));
        try (unfold ret in Hin; simplify_eq; reflexivity).
      apply bind_Some in Hin as (x & w1 & Hp & Hin).
      unfold ret in Hin. simplify_eq.
      unfold pixelLeftForScreenRowAndColumn in Hp.
      destruct (column p =? 0); [unfold ret in Hp; simplify_eq; reflexivity|].
      apply bind_Some in Hp as (e & w1 & He & Hp). injection He as <- <-.
      apply bind_Some in Hp as (c & w1 & Hc & Hp). injection Hc as <- <-.
      destruct (getScreenLine H (ext w) (row p)); [|discriminate].
      destruct (_ !! _); [|discriminate].
      unfold ret in Hp. simplify_eq. reflexivity. }
    subst w2.
    apply bind_Some in Hr as (e & w1 & He & Hr). injection He as <- <-.
    destruct (Tiles.renderLineTiles _ _ _) as [r|] eqn:Hrender; [|discriminate].
    apply bind_Some in Hr as (u' & w1 & Hmod & Hr).
    unfold modifyComp in Hmod. unfold ret in Hr. simplify_eq. simpl.
    pose proof (renderLineTiles_clears _ _ _ _ Hrender) as Hnone.
    repeat split; auto.
  - injection Hr as _ <-. rewrite Hm.
    repeat split; auto. intros [x Hx]. discriminate.
Qed.

Lemma etchUpdateSync_frame (w w' : World E) :
  etchUpdateSync H ZW w = Some (tt, w') ->
  cursorsToRender (comp w') = cursorsToRender (comp w)
  /\ measurements (comp w') = measurements (comp w)
  /\ (is_Some (measurements (comp w)) -> longestLineToMeasure (comp w') = None)
  /\ (longestLineToMeasure (comp w) = None -> longestLineToMeasure (comp w') = None)
  /\ exists tiles,
       trace w' = trace w ++ [EvCommit tiles (cursorsToRender (comp w))].
Proof.
  unfold etchUpdateSync. intros Hr.
  apply bind_Some in Hr as (tiles & w1 & Hrender & Hr).
  apply render_frame in Hrender as (Hc1 & Hm1 & He1 & Ht1 & Hl1 & Hl1').
  apply bind_Some in Hr as (e & w2 & He & Hr). injection He as <- <-.
  apply bind_Some in Hr as (u & w2 & Hops & Hr). destruct u.
  apply applyPatchOps_frame in Hops as (Hl2 & Hc2 & Hm2 & He2 & Ht2).
  apply bind_Some in Hr as (u' & w3 & Hmod & Hr).
  apply bind_Some in Hr as (this & w4 & Hthis & Hr).
  unfold modifyExt in Hmod. unfold getComp in Hthis. unfold emit in Hr.
  simplify_eq. simpl.
  rewrite Hc2, Hc1, Hm2, Hm1, Hl2, Ht2, Ht1.
  split; [reflexivity|]. split; [reflexivity|]. split; [assumption|].
  split; [assumption|]. exists tiles. reflexivity.
Qed.

Lemma positionCursorsToRender_measured (w w' : World E) :
  positionCursorsToRender H w = Some (tt, w') ->
  is_Some (measurements (comp w')).
Proof.
  unfold positionCursorsToRender. intros Hr.
  apply bind_Some in Hr as (this & w1 & Hthis & Hr). injection Hthis as <- <-.
  destruct (measurements (comp w)) as [m|] eqn:Hm; [|discriminate].
  apply bind_Some in Hr as (cs & w1 & Hcs & Hr).
  injection Hr as <-. simpl.
  destruct (Steady_positionCursors H m _ _ _ _ Hcs)
    as [(_ & _ & _ & _ & _ & _ & Hsame & _) _].
  rewrite Hm in Hsame. destruct (measurements (comp w1)); [eauto|contradiction].
Qed.

Lemma updateSync_last (w w' : World E) :
  updateSync H ZW w = Some (tt, w') ->
  exists w1 w2,
    positionCursorsToRender H w1 = Some (tt, w2)
    /\ etchUpdateSync H ZW w2 = Some (tt, w').
Proof.
  unfold updateSync. intros Hr.
  do 15 (let a := fresh "a" in
         let w := fresh "w" in
         let Hs := fresh "Hstep" in
         apply bind_Some in Hr as (a & w & Hs & Hr)).
  match goal with
  | Hp : positionCursorsToRender H ?w1 = Some (?u, ?w2) |- _ =>
      destruct u; exists w1, w2; split; [exact Hp|exact Hr]
  end.
Qed.

End CycleFacts.

Section CycleTheorems.
Context {E : Type} (H : Host E) (ZW : jsstring).

Lemma newEvents_app (w w' : World E) (evs : list Event) :
  trace w' = trace w ++ evs -> newEvents w w' = evs.
Proof.
  intros Ht. unfold newEvents. rewrite Ht, drop_app_length. reflexivity.
Qed.

(** What a completed update cycle leaves. *)
Lemma updateSync_outcome (w w' : World E) :
  updateSync H ZW w = Some (tt, w') ->
  steady (comp w) (comp w')
  /\ updateScheduled (comp w') = false
  /\ nextUpdatePromise (comp w') = None
  /\ longestLineToMeasure (comp w') = None
  /\ is_Some (measurements (comp w'))
  /\ exists evs, trace w' = trace w ++ evs
                 /\ Forall (fun e => outsideCycle e = false) evs.
Proof.
  intros Hr.
  destruct (Steady_updateSync H ZW _ _ _ Hr) as [Hsteady Hevs].
  split; [assumption|].
  split; [eapply updateSync_unscheduled; eassumption|].
  destruct (updateSync_cycle H ZW _ _ Hr) as (cycle & _ & Hnone & _).
  split; [assumption|].
  destruct (updateSync_last H ZW _ _ Hr) as (w1 & w2 & Hpos & Hetch).
  apply positionCursorsToRender_measured in Hpos.
  apply etchUpdateSync_frame in Hetch as (_ & Hm & Hl & _).
  split; [auto|]. split; [rewrite Hm; assumption|assumption].
Qed.

(** X13: an update cycle that completes clears [updateScheduled], the
    handle on the next-update promise and the line to measure; it leaves
    the visibility, the focus, the tile size, the scroll position and the
    character and gutter measurements as they are; and it schedules
    nothing, tells the model nothing about visibility, and reads neither
    the scroll position nor the character or gutter dimensions. *)
Theorem update_cycle_leaves_settings (w w' : World E) :
  updateSync H ZW w = Some (tt, w') ->
  updateScheduled (comp w') = false
  /\ nextUpdatePromise (comp w') = None
  /\ longestLineToMeasure (comp w') = None
  /\ visible (comp w') = visible (comp w)
  /\ focused (comp w') = focused (comp w)
  /\ rowsPerTileProp (comp w') = rowsPerTileProp (comp w)
  /\ sameMeasured (measurements (comp w)) (measurements (comp w'))
  /\ is_Some (measurements (comp w'))
  /\ Forall (fun e => outsideCycle e = false) (newEvents w w').
Proof.
  intros Hr.
  destruct (updateSync_outcome w w' Hr)
    as ((Hv & Hf & Hrows & _ & _ & _ & Hsame & _) & Hu & Hp & Hl & Hm
        & evs & Ht & Hevs).
  rewrite (newEvents_app w w' evs Ht). auto 10.
Qed.

Lemma updateSync_unmeasured (w : World E) :
  measurements (comp w) = None -> updateSync H ZW w = None.
Proof.
  intros Hnone.
  destruct (updateSync H ZW w) as [[[] w']|] eqn:Hr; [|reflexivity].
  exfalso.
  destruct (updateSync_outcome w w' Hr)
    as ((_ & _ & _ & _ & _ & _ & Hsame & _) & _ & _ & _ & [m Hm] & _).
  rewrite Hnone, Hm in Hsame. exact Hsame.
Qed.

Lemma scheduleUpdate_deferred (w : World E) :
  updatedSynchronously (comp w) = false ->
  scheduleUpdate H ZW w
  = Some (tt, if updateScheduled (comp w) then w
              else {| comp := set_updateScheduled true (comp w);
                      ext := ext w;
                      trace := trace w ++ [EvScheduleCallback];
                      promises := promises w;
                      microtasks := microtasks w |}).
Proof.
  intros Hsync. unfold scheduleUpdate, bind, getComp. simpl.
  rewrite Hsync. destruct (updateScheduled (comp w)); reflexivity.
Qed.

Lemma scheduledUpdate_idle (w : World E) :
  updateScheduled (comp w) = false -> scheduledUpdate H ZW w = Some (tt, w).
Proof.
  intros Hu. unfold scheduledUpdate, bind, getComp. simpl. rewrite Hu.
  reflexivity.
Qed.

Lemma didScroll_effect (w w' : World E) :
  didScroll H ZW w = Some (tt, w') ->
  exists m,
    measurements (comp w) = Some m
    /\ updateSync H ZW
         {| comp := set_measurements
                      (Some (set_scrollLeft (scrollerScrollLeft H (ext w))
                               (set_scrollTop (scrollerScrollTop H (ext w)) m)))
                      (comp w);
            ext := ext w; trace := trace w ++ [EvReadScrollPosition];
            promises := promises w; microtasks := microtasks w |}
       = Some (tt, w').
Proof.
  unfold didScroll. intros Hr.
  apply bind_Some in Hr as (u & w1 & Hm & Hr).
  unfold measureScrollPosition, bind, getComp, getExt, emit in Hm.
  simpl in Hm.
  destruct (measurements (comp w)) as [m|] eqn:Hmeas; [|discriminate].
  unfold modifyComp in Hm. simpl in Hm. simplify_eq.
  exists m. split; [reflexivity|]. exact Hr.
Qed.

(** X14: while the component does not update synchronously, a request for
    an update schedules a callback only when none is scheduled, and a
    second request changes nothing; the callback runs one update cycle
    and clears the flag, after which running it again does nothing; and
    an update cycle that a scroll runs in between leaves the callback
    nothing to do. *)
Theorem scheduled_updates_coalesce (w : World E) :
  updatedSynchronously (comp w) = false ->
  exists w1,
    scheduleUpdate H ZW w = Some (tt, w1)
    /\ updateScheduled (comp w1) = true
    /\ newEvents w w1
       = (if updateScheduled (comp w) then [] else [EvScheduleCallback])
    /\ scheduleUpdate H ZW w1 = Some (tt, w1)
    /\ (forall w2,
          scheduledUpdate H ZW w1 = Some (tt, w2) ->
          updateScheduled (comp w2) = false
          /\ length (filter (fun e => isCommit e = true) (newEvents w1 w2))
             = 2%nat
          /\ scheduledUpdate H ZW w2 = Some (tt, w2))
    /\ (forall w2,
          didScroll H ZW w1 = Some (tt, w2) ->
          scheduledUpdate H ZW w2 = Some (tt, w2)).
Proof.
  intros Hsync. rewrite (scheduleUpdate_deferred w Hsync).
  eexists. split; [reflexivity|].
  set (w1 := if updateScheduled (comp w) then w else _).
  assert (Hu1 : updateScheduled (comp w1) = true).
  { unfold w1. destruct (updateScheduled (comp w)) eqn:Hu; [assumption|].
    reflexivity. }
  assert (Hsync1 : updatedSynchronously (comp w1) = false).
  { unfold w1. destruct (updateScheduled (comp w)); assumption. }
  split; [assumption|]. split.
  - unfold w1. destruct (updateScheduled (comp w)).
    + unfold newEvents. rewrite drop_all. reflexivity.
    + apply newEvents_app. reflexivity.
  - split.
    + rewrite (scheduleUpdate_deferred w1 Hsync1), Hu1. reflexivity.
    + split.
      * intros w2 Hrun. unfold scheduledUpdate, bind, getComp in Hrun.
        simpl in Hrun. rewrite Hu1 in Hrun.
        pose proof (updateSync_unscheduled H ZW _ _ Hrun) as Hu2.
        split; [assumption|]. split.
        -- apply (updateSync_commits H ZW). assumption.
        -- apply scheduledUpdate_idle. assumption.
      * intros w2 Hscroll.
        apply didScroll_effect in Hscroll as (m & _ & Hrun).
        apply scheduledUpdate_idle.
        eapply updateSync_unscheduled. eassumption.
Qed.

(** X15: a scroll event makes the scroller's position the component's,
    before the update cycle it runs, and the cycle leaves it there; the
    line height and the character and gutter measurements are not taken
    again. *)
Theorem scroll_position_is_measured_before_the_cycle (w w' : World E) :
  didScroll H ZW w = Some (tt, w') ->
  exists m m',
    measurements (comp w) = Some m
    /\ measurements (comp w') = Some m'
    /\ getScrollTop (comp w') = Some (scrollerScrollTop H (ext w))
    /\ getScrollLeft (comp w') = Some (scrollerScrollLeft H (ext w))
    /\ lineHeight m' = lineHeight m
    /\ baseCharacterWidth m' = baseCharacterWidth m
    /\ lineNumberGutterWidth m' = lineNumberGutterWidth m
    /\ updateScheduled (comp w') = false
    /\ exists evs,
         newEvents w w' = EvReadScrollPosition :: evs
         /\ Forall (fun e => outsideCycle e = false) evs
         /\ length (filter (fun e => isCommit e = true) evs) = 2%nat.
Proof.
  intros Hr. apply didScroll_effect in Hr as (m & Hm & Hrun).
  destruct (updateSync_outcome _ w' Hrun)
    as ((_ & _ & _ & _ & _ & _ & Hsame & _) & Hu & _ & _ & [m' Hm']
        & evs & Ht & Hevs).
  pose proof (updateSync_commits H ZW _ _ Hrun) as Hcommits.
  rewrite (newEvents_app _ w' evs Ht) in Hcommits.
  simpl in Hsame, Ht. rewrite Hm' in Hsame.
  destruct Hsame as (Htop & Hleft & Hline & Hbase & _ & _ & _ & Hgutter).
  simpl in Htop, Hleft, Hline, Hbase, Hgutter.
  exists m, m'. split; [assumption|]. split; [assumption|].
  unfold getScrollTop, getScrollLeft. rewrite Hm', Htop, Hleft.
  do 6 (split; [auto|]).
  exists evs. split; [|auto].
  apply newEvents_app. rewrite Ht, <- app_assoc. reflexivity.
Qed.

(** X16: before the first measurements a scroll event, a resize event, an
    update cycle and the callback of a scheduled update throw, and the
    position of the hidden input cannot be computed; a request for an
    update is still accepted. *)
Theorem unmeasured_component_throws (w : World E) :
  measurements (comp w) = None ->
  didScroll H ZW w = None
  /\ didResize H ZW w = None
  /\ updateSync H ZW w = None
  /\ (updateScheduled (comp w) = true -> scheduledUpdate H ZW w = None)
  /\ renderInputPosition H w = None
  /\ getScrollTop (comp w) = None
  /\ (updatedSynchronously (comp w) = false ->
      exists w', scheduleUpdate H ZW w = Some (tt, w')
                 /\ updateScheduled (comp w') = true
                 /\ measurements (comp w') = None).
Proof.
  intros Hnone.
  split.
  { unfold didScroll, bind at 1, measureScrollPosition, bind, getComp, getExt,
      emit. simpl. rewrite Hnone. reflexivity. }
  split.
  { unfold didResize, bind at 1, measureEditorDimensions, bind, getComp, getExt,
      emit. simpl. rewrite Hnone. reflexivity. }
  split; [apply updateSync_unmeasured; assumption|].
  split.
  { intros Hu. unfold scheduledUpdate, bind, getComp. simpl. rewrite Hu.
    apply updateSync_unmeasured. assumption. }
  split.
  { unfold renderInputPosition, bind, getComp. simpl. rewrite Hnone.
    reflexivity. }
  split; [unfold getScrollTop; rewrite Hnone; reflexivity|].
  intros Hsync. rewrite (scheduleUpdate_deferred w Hsync).
  eexists. split; [reflexivity|].
  destruct (updateScheduled (comp w)) eqn:Hu; simpl; auto.
Qed.

End CycleTheorems.

Section HandlerTheorems.
Context {E : Type} (H : Host E) (ZW : jsstring).

Lemma didShow_visible (w : World E) :
  visible (comp w) = true -> didShow H ZW w = Some (tt, w).
Proof.
  intros Hv. unfold didShow, bind, getComp. simpl. rewrite Hv. reflexivity.
Qed.

Lemma didShow_hidden (w w' : World E) :
  visible (comp w) = false ->
  didShow H ZW w = Some (tt, w') ->
  exists w1,
    match measurements (comp w) with
    | None => performInitialMeasurements H
    | Some _ => ret tt
    end {| comp := set_visible true (comp w);
           ext := setVisible H true (ext w);
           trace := trace w ++ [EvSetModelVisible true];
           promises := promises w; microtasks := microtasks w |}
    = Some (tt, w1)
    /\ updateSync H ZW w1 = Some (tt, w').
Proof.
  intros Hv Hr. unfold didShow in Hr.
  apply bind_Some in Hr as (this & w0 & Hthis & Hr).
  unfold getComp in Hthis. injection Hthis as <- <-.
  rewrite Hv in Hr. simpl in Hr.
  apply bind_Some in Hr as (u1 & w1 & H1 & Hr).
  apply bind_Some in Hr as (u2 & w2 & H2 & Hr).
  apply bind_Some in Hr as (u3 & w3 & H3 & Hr).
  apply bind_Some in Hr as (u4 & w4 & H4 & Hr).
  unfold modifyComp in H1. unfold emit in H2. unfold modifyExt in H3.
  simplify_eq. simpl in H4. destruct u4. exists w4. split; assumption.
Qed.

Lemma performInitialMeasurements_effect (w : World E) :
  performInitialMeasurements H w
  = Some (tt,
          {| comp :=
               set_measurements
                 (Some {| scrollTop := scrollerScrollTop H (ext w);
                          scrollLeft := scrollerScrollLeft H (ext w);
                          scrollerWidth := scrollerOffsetWidth H (ext w);
                          scrollerHeight := scrollerOffsetHeight H (ext w);
                          lineHeight := characterMeasurementLineHeight H (ext w);
                          baseCharacterWidth := normalWidthCharacterWidth H (ext w);
                          doubleWidthCharacterWidth :=
                            doubleWidthCharacterSpanWidth H (ext w);
                          halfWidthCharacterWidth :=
                            halfWidthCharacterSpanWidth H (ext w);
                          koreanCharacterWidth := None;
                          scrollWidth := None;
                          lineNumberGutterWidth :=
                            lineNumberGutterOffsetWidth H (ext w) |})
                 (set_staleMeasurements
                    (Some {| editorDimensions := false |}) (comp w));
             ext := ext w;
             trace := trace w ++ [EvReadEditorDimensions; EvReadScrollPosition;
                                  EvReadCharacterDimensions;
                                  EvReadGutterDimensions];
             promises := promises w; microtasks := microtasks w |}).
Proof.
  unfold performInitialMeasurements, bind, getExt, emit, modifyComp. simpl.
  rewrite <- !app_assoc. reflexivity.
Qed.

Lemma filter_none {A} (P : A -> bool) (l : list A) :
  Forall (fun x => P x = false) l -> filter (fun x => P x = true) l = [].
Proof.
  induction 1 as [|x l Hx _ IH]; [reflexivity|].
  rewrite filter_cons. destruct (decide (P x = true)) as [Ht|_]; [|exact IH].
  congruence.
Qed.

Lemma outsideCycle_initialRead (evs : list Event) :
  Forall (fun e => outsideCycle e = false) evs ->
  Forall (fun e => isInitialRead e = false) evs
  /\ Forall (fun e => isSetModelVisible e = false) evs.
Proof.
  intros Hevs. split; eapply Forall_impl; try exact Hevs;
    intros [] Hx; simpl in *; congruence.
Qed.

(** X17: showing a hidden component tells the model first, takes the
    initial measurements only when there are none (else the ones it has
    are kept and the characters and the gutter are not read again), and
    runs one update cycle, of two commits; showing a visible component
    does nothing, so that showing twice is showing once. *)
Theorem showing_measures_once (w w' : World E) :
  didShow H ZW w = Some (tt, w') ->
  visible (comp w') = true
  /\ didShow H ZW w' = Some (tt, w')
  /\ (visible (comp w) = true -> w' = w)
  /\ (visible (comp w) = false ->
      is_Some (measurements (comp w'))
      /\ updateScheduled (comp w') = false
      /\ (forall m, measurements (comp w) = Some m ->
                    sameMeasured (Some m) (measurements (comp w')))
      /\ exists evs,
           newEvents w w' = EvSetModelVisible true :: evs
           /\ Forall (fun e => isSetModelVisible e = false) evs
           /\ length (filter (fun e => isInitialRead e = true) evs)
              = match measurements (comp w) with
                | Some _ => 0%nat
                | None => 2%nat
                end
           /\ length (filter (fun e => isCommit e = true) evs) = 2%nat).
Proof.
  intros Hr.
  destruct (visible (comp w)) eqn:Hv.
  - pose proof Hr as Hr'. rewrite (didShow_visible w Hv) in Hr'.
    injection Hr' as <-.
    split; [assumption|]. split; [assumption|]. split; [reflexivity|].
    discriminate.
  - apply (didShow_hidden w w' Hv) in Hr as (w1 & Hinit & Hrun).
    destruct (updateSync_outcome H ZW w1 w' Hrun)
      as ((Hv' & _ & _ & _ & _ & _ & Hsame & _) & Hu & _ & _ & Hm
          & evs & Ht & Hevs).
    pose proof (updateSync_commits H ZW _ _ Hrun) as Hcommits.
    rewrite (newEvents_app _ w' evs Ht) in Hcommits.
    destruct (outsideCycle_initialRead evs Hevs) as [Hreads Hvis].
    assert (Hv1 : visible (comp w1) = true).
    { destruct (measurements (comp w)).
      - injection Hinit as <-. reflexivity.
      - rewrite performInitialMeasurements_effect in Hinit.
        injection Hinit as <-. reflexivity. }
    assert (Hshown : visible (comp w') = true) by congruence.
    split; [assumption|]. split; [apply didShow_visible; assumption|].
    split; [discriminate|]. intros _.
    split; [assumption|]. split; [assumption|]. split.
    { intros m Hm0. rewrite Hm0 in Hinit. injection Hinit as <-.
      simpl in Hsame. rewrite Hm0 in Hsame. exact Hsame. }
    destruct (measurements (comp w)) as [m0|] eqn:Hm0.
    + injection Hinit as <-. simpl in Ht.
      exists evs. split.
      { apply newEvents_app. rewrite Ht, <- app_assoc. reflexivity. }
      split; [assumption|]. split; [|assumption].
      rewrite (filter_none isInitialRead evs Hreads). reflexivity.
    + rewrite performInitialMeasurements_effect in Hinit.
      injection Hinit as <-. simpl in Ht.
      exists ([EvReadEditorDimensions; EvReadScrollPosition;
               EvReadCharacterDimensions; EvReadGutterDimensions] ++ evs).
      split.
      { apply newEvents_app. rewrite Ht, <- !app_assoc. reflexivity. }
      split.
      { apply Forall_app. split; [|assumption].
        repeat constructor. }
      split.
      { rewrite filter_app, (filter_none isInitialRead evs Hreads).
        reflexivity. }
      rewrite filter_app, length_app, Hcommits. reflexivity.
Qed.

Lemma set_measurements_same (c : Component) (m : Measurements) :
  measurements c = Some m -> set_measurements (Some m) c = c.
Proof. destruct c. simpl. intros ->. reflexivity. Qed.

Lemma measureEditorDimensions_effect (w : World E) (m : Measurements) :
  measurements (comp w) = Some m ->
  let heightChanged :=
    negb (Qeq_bool (scrollerOffsetHeight H (ext w)) (scrollerHeight m)) in
  let widthChanged :=
    negb (Qeq_bool (scrollerOffsetWidth H (ext w)) (scrollerWidth m)) in
  let m1 := if heightChanged
            then set_scrollerHeight (scrollerOffsetHeight H (ext w)) m
            else m in
  let m2 := if widthChanged
            then set_scrollerWidth (scrollerOffsetWidth H (ext w)) m1
            else m1 in
  measureEditorDimensions H w
  = Some (heightChanged || widthChanged,
          {| comp := set_measurements (Some m2) (comp w);
             ext := ext w;
             trace := trace w ++ [EvReadEditorDimensions];
             promises := promises w; microtasks := microtasks w |}).
Proof.
  intros Hm. unfold measureEditorDimensions, bind, getComp, getExt, emit.
  simpl. rewrite Hm. reflexivity.
Qed.

(** X18: a resize event reads the scroller's size and stores what
    differs; it never commits, and it asks for an update only when a
    dimension has changed, which schedules a callback unless one is
    scheduled; the other measurements are left alone, and a second resize
    event at the same size changes nothing. *)
Theorem resize_schedules_only_on_change (w w' : World E) :
  updatedSynchronously (comp w) = false ->
  didResize H ZW w = Some (tt, w') ->
  exists m m',
    measurements (comp w) = Some m
    /\ measurements (comp w') = Some m'
    /\ (scrollerHeight m' == scrollerOffsetHeight H (ext w))%Q
    /\ (scrollerWidth m' == scrollerOffsetWidth H (ext w))%Q
    /\ sameMeasured (Some m) (Some m')
    /\ scrollWidth m' = scrollWidth m
    /\ (let changed :=
          negb (Qeq_bool (scrollerOffsetHeight H (ext w)) (scrollerHeight m))
          || negb (Qeq_bool (scrollerOffsetWidth H (ext w)) (scrollerWidth m))
        in
        updateScheduled (comp w') = changed || updateScheduled (comp w)
        /\ newEvents w w'
           = EvReadEditorDimensions
             :: (if changed && negb (updateScheduled (comp w))
                 then [EvScheduleCallback] else []))
    /\ forall w'',
         didResize H ZW w' = Some (tt, w'') ->
         comp w'' = comp w' /\ newEvents w' w'' = [EvReadEditorDimensions].
Proof.
  intros Hsync Hr. unfold didResize in Hr.
  apply bind_Some in Hr as (changed & w1 & Hmeasure & Hr).
  destruct (measurements (comp w)) as [m|] eqn:Hm.
  2:{ unfold measureEditorDimensions, bind, getComp, getExt, emit in Hmeasure.
      simpl in Hmeasure. rewrite Hm in Hmeasure. discriminate. }
  rewrite (measureEditorDimensions_effect w m Hm) in Hmeasure.
  injection Hmeasure as <- <-.
  set (h := scrollerOffsetHeight H (ext w)) in *.
  set (wd := scrollerOffsetWidth H (ext w)) in *.
  set (m1 := if negb (Qeq_bool h (scrollerHeight m))
             then set_scrollerHeight h m else m) in *.
  set (m2 := if negb (Qeq_bool wd (scrollerWidth m))
             then set_scrollerWidth wd m1 else m1) in *.
  assert (Hh : (scrollerHeight m2 == h)%Q).
  { unfold m2, m1.
    destruct (Qeq_bool h (scrollerHeight m)) eqn:Hqh;
      destruct (Qeq_bool wd (scrollerWidth m)) eqn:Hqw; destruct m; simpl in *;
      try reflexivity; symmetry; apply Qeq_bool_eq; assumption. }
  assert (Hw : (scrollerWidth m2 == wd)%Q).
  { unfold m2, m1.
    destruct (Qeq_bool h (scrollerHeight m)) eqn:Hqh;
      destruct (Qeq_bool wd (scrollerWidth m)) eqn:Hqw; destruct m; simpl in *;
      try reflexivity; symmetry; apply Qeq_bool_eq; assumption. }
  assert (Hsame : sameMeasured (Some m) (Some m2)
                  /\ scrollWidth m2 = scrollWidth m).
  { unfold m2, m1.
    destruct (Qeq_bool h (scrollerHeight m));
      destruct (Qeq_bool wd (scrollerWidth m)); destruct m; simpl;
      auto 10. }
  assert (Hm' : measurements (comp w') = Some m2
                /\ ext w' = ext w
                /\ updateScheduled (comp w')
                   = (negb (Qeq_bool h (scrollerHeight m))
                      || negb (Qeq_bool wd (scrollerWidth m)))
                     || updateScheduled (comp w)
                /\ updatedSynchronously (comp w') = false
                /\ newEvents w w'
                   = EvReadEditorDimensions
                     :: (if (negb (Qeq_bool h (scrollerHeight m))
                             || negb (Qeq_bool wd (scrollerWidth m)))
                            && negb (updateScheduled (comp w))
                         then [EvScheduleCallback] else [])).
  { destruct (negb (Qeq_bool h (scrollerHeight m))
              || negb (Qeq_bool wd (scrollerWidth m))).
    - rewrite scheduleUpdate_deferred in Hr by (destruct (comp w); exact Hsync).
      injection Hr as <-.
      replace (updateScheduled (set_measurements (Some m2) (comp w)))
        with (updateScheduled (comp w)) by (destruct (comp w); reflexivity).
      simpl.
      destruct (updateScheduled (comp w)) eqn:Hu; simpl.
      + split; [destruct (comp w); reflexivity|]. split; [reflexivity|].
        split; [destruct (comp w); simpl in *; assumption|].
        split; [destruct (comp w); simpl in *; assumption|].
        apply newEvents_app. reflexivity.
      + split; [destruct (comp w); reflexivity|]. split; [reflexivity|].
        split; [destruct (comp w); reflexivity|].
        split; [destruct (comp w); simpl in *; assumption|].
        apply newEvents_app. simpl. rewrite <- app_assoc. reflexivity.
    - injection Hr as <-. simpl.
      split; [destruct (comp w); reflexivity|]. split; [reflexivity|].
      split; [destruct (comp w); reflexivity|].
      split; [destruct (comp w); simpl in *; assumption|].
      apply newEvents_app. reflexivity. }
  destruct Hm' as (Hm' & Hext & Hu' & Hsync' & Hev).
  destruct Hsame as [Hsame Hscroll].
  exists m, m2.
  split; [reflexivity|]. split; [assumption|]. split; [assumption|].
  split; [assumption|]. split; [assumption|]. split; [assumption|].
  split; [split; assumption|].
  intros w'' Hr2. unfold didResize in Hr2.
  apply bind_Some in Hr2 as (changed & w2 & Hmeasure & Hr2).
  rewrite (measureEditorDimensions_effect w' m2 Hm') in Hmeasure.
  rewrite Hext in Hmeasure. fold h wd in Hmeasure.
  assert (Hqh : Qeq_bool h (scrollerHeight m2) = true)
    by (apply Qeq_eq_bool; symmetry; assumption).
  assert (Hqw : Qeq_bool wd (scrollerWidth m2) = true)
    by (apply Qeq_eq_bool; symmetry; assumption).
  rewrite Hqh, Hqw in Hmeasure. simpl in Hmeasure.
  injection Hmeasure as <- <-. injection Hr2 as <-. simpl.
  split; [apply set_measurements_same; assumption|].
  apply newEvents_app. reflexivity.
Qed.

(** X19: the hidden input is placed at the corner of the viewport unless
    the editor is focused and has an input position; then it is placed at
    the cursor, moved into the viewport: never above or left of the
    scroll position, not below the last full line when a line fits in the
    viewport, not right of the viewport, and exactly on the cursor's line
    when that line is fully visible.  Computing the position changes
    nothing. *)
Theorem hidden_input_stays_in_the_viewport (w w' : World E)
    (m : Measurements) (top left : Q) :
  measurements (comp w) = Some m ->
  (lineHeight m <= scrollerHeight m)%Q ->
  (0 <= scrollerWidth m)%Q ->
  renderInputPosition H w = Some ((top, Some left), w') ->
  w' = w
  /\ (scrollTop m <= top)%Q
  /\ (top <= scrollTop m + scrollerHeight m - lineHeight m)%Q
  /\ (scrollLeft m <= left)%Q
  /\ (left <= scrollLeft m + scrollerWidth m)%Q
  /\ (forall p,
        focused (comp w) = true ->
        inputScreenPosition (comp w) = Some p ->
        (scrollTop m <= pixelTopForScreenRow m (row p))%Q ->
        (pixelTopForScreenRow m (row p)
         <= scrollTop m + scrollerHeight m - lineHeight m)%Q ->
        (top == pixelTopForScreenRow m (row p))%Q)
  /\ (focused (comp w) = false \/ inputScreenPosition (comp w) = None ->
      top = scrollTop m /\ left = scrollLeft m).
Proof.
  intros Hm Hline Hwidth Hr.
  assert (Hmax : (scrollTop m <= scrollTop m + scrollerHeight m - lineHeight m)%Q)
    by lra.
  assert (Hmaxl : (scrollLeft m <= scrollLeft m + scrollerWidth m)%Q) by lra.
  unfold renderInputPosition in Hr.
  apply bind_Some in Hr as (this & w0 & Hthis & Hr).
  unfold getComp in Hthis. injection Hthis as <- <-.
  rewrite Hm in Hr.
  destruct (focused (comp w)) eqn:Hf;
    [destruct (inputScreenPosition (comp w)) as [p|] eqn:Hp|].
  - apply bind_Some in Hr as (x & w1 & Hx & Hr).
    apply (pixelLeft_effect H) in Hx as [-> Hx].
    destruct x as [x|]; [|discriminate].
    injection Hr as <- <- <-.
    split; [reflexivity|].
    split; [apply Q.le_max_l|].
    split.
    { apply Q.max_lub; [assumption|apply Q.le_min_l]. }
    split; [apply Q.le_max_l|].
    split.
    { apply Q.max_lub; [assumption|apply Q.le_min_l]. }
    split.
    { intros p' _ Hp' Hlo Hhi. injection Hp' as <-.
      rewrite (Q.min_r _ _ Hhi). apply Q.max_r. assumption. }
    intros [Hcontra|Hcontra]; discriminate.
  - injection Hr as <- <- <-.
    split; [reflexivity|]. split; [apply Qle_refl|].
    split; [assumption|]. split; [apply Qle_refl|]. split; [assumption|].
    split; [intros p' _ Hp'; discriminate|]. auto.
  - assert (Hr' : Some (scrollTop m, Some (scrollLeft m), w)
                  = Some (top, Some left, w'))
      by (destruct (inputScreenPosition (comp w)); exact Hr).
    injection Hr' as <- <- <-.
    split; [reflexivity|]. split; [apply Qle_refl|].
    split; [assumption|]. split; [apply Qle_refl|]. split; [assumption|].
    split; [intros p' Hcontra; discriminate|]. auto.
Qed.

End HandlerTheorems.

Section InvariantFacts.
Context {E : Type} (H : Host E) (ZW : jsstring).

Lemma lastVisibility_app (l evs : list Event) :
  Forall (fun e => isSetModelVisible e = false) evs ->
  lastVisibility (l ++ evs) = lastVisibility l.
Proof.
  intros Hevs. unfold lastVisibility. rewrite fold_left_app.
  generalize (fold_left
                (fun shown e =>
                   match e with
                   | EvSetModelVisible visible => visible
                   | _ => shown
                   end) l false).
  induction Hevs as [|e evs He _ IH]; intros b; simpl; [reflexivity|].
  rewrite IH. destruct e; try reflexivity. discriminate He.
Qed.

Lemma lastVisibility_snoc (l : list Event) (b : bool) :
  lastVisibility (l ++ [EvSetModelVisible b]) = b.
Proof. unfold lastVisibility. rewrite fold_left_app. reflexivity. Qed.

Lemma handleConsistent_same (w w' : World E) :
  nextUpdatePromise (comp w') = nextUpdatePromise (comp w) ->
  resolveNextUpdatePromise (comp w') = resolveNextUpdatePromise (comp w) ->
  promises w' = promises w ->
  handleConsistent w -> handleConsistent w'.
Proof.
  unfold handleConsistent. intros -> -> ->. auto.
Qed.

(** A step that leaves the cache, the registries and the record of stale
    measurements alone, and has measurements exactly when there were
    some. *)
Lemma settled_intro (w w' : World E) :
  settled w ->
  visible (comp w') = lastVisibility (trace w') ->
  (visible (comp w') = true -> is_Some (measurements (comp w'))) ->
  (measurements (comp w') = None <-> measurements (comp w) = None) ->
  staleMeasurements (comp w') = staleMeasurements (comp w) ->
  updatedSynchronously (comp w') = updatedSynchronously (comp w) ->
  longestLineToMeasure (comp w') = longestLineToMeasure (comp w) ->
  handleConsistent w' ->
  horizontalPixelPositionsByScreenLineId (comp w')
  = horizontalPixelPositionsByScreenLineId (comp w) ->
  lineNodesByScreenLineId (comp w') = lineNodesByScreenLineId (comp w) ->
  textNodesByScreenLineId (comp w') = textNodesByScreenLineId (comp w) ->
  settled w'.
Proof.
  intros (_ & _ & Hstale & Hsync & Hlong & _ & Hcache & Hreg)
    Hv Hvm Hm Hs Hsy Hl Hh Hpos Hln Htn.
  split; [assumption|]. split; [assumption|]. split.
  { rewrite Hs, Hstale.
    destruct (measurements (comp w)), (measurements (comp w'));
      try reflexivity.
    - destruct Hm as [Hm _]. discriminate (Hm eq_refl).
    - destruct Hm as [_ Hm]. discriminate (Hm eq_refl). }
  split; [congruence|]. split; [congruence|]. split; [assumption|].
  split.
  - unfold cacheZeroed. rewrite Hpos. exact Hcache.
  - unfold registered. rewrite Hln, Htn. exact Hreg.
Qed.

(** A step that changes neither of what [settled] speaks of, and tells the
    model nothing about visibility. *)
Lemma settled_change (w w' : World E) (evs : list Event) :
  settled w ->
  trace w' = trace w ++ evs ->
  Forall (fun e => isSetModelVisible e = false) evs ->
  promises w' = promises w ->
  visible (comp w') = visible (comp w) ->
  measurements (comp w') = measurements (comp w) ->
  staleMeasurements (comp w') = staleMeasurements (comp w) ->
  updatedSynchronously (comp w') = updatedSynchronously (comp w) ->
  longestLineToMeasure (comp w') = longestLineToMeasure (comp w) ->
  nextUpdatePromise (comp w') = nextUpdatePromise (comp w) ->
  resolveNextUpdatePromise (comp w') = resolveNextUpdatePromise (comp w) ->
  horizontalPixelPositionsByScreenLineId (comp w')
  = horizontalPixelPositionsByScreenLineId (comp w) ->
  lineNodesByScreenLineId (comp w') = lineNodesByScreenLineId (comp w) ->
  textNodesByScreenLineId (comp w') = textNodesByScreenLineId (comp w) ->
  settled w'.
Proof.
  intros Hs Ht Hevs Hp Hv Hm Hst Hsy Hl Hn Hr Hpos Hln Htn.
  pose proof Hs as (Hvis & Hvm & _ & _ & _ & Hhandle & _).
  apply (settled_intro w w'); try assumption.
  - rewrite Hv, Ht, lastVisibility_app by assumption. assumption.
  - rewrite Hv, Hm. assumption.
  - rewrite Hm. tauto.
  - apply (handleConsistent_same w w'); assumption.
Qed.

Lemma settled_updateSync (w w' : World E) :
  updateSync H ZW w = Some (tt, w') ->
  visible (comp w) = lastVisibility (trace w) ->
  staleMeasurements (comp w)
  = match measurements (comp w) with
    | Some _ => Some {| editorDimensions := false |}
    | None => None
    end ->
  updatedSynchronously (comp w) = false ->
  cacheZeroed (comp w) ->
  registered (comp w) ->
  settled w'.
Proof.
  intros Hrun Hvis Hstale Hsync Hcache Hreg.
  destruct (updateSync_outcome H ZW w w' Hrun)
    as ((Hv & _ & _ & Hsy & Hst & _ & Hsame & Hc & Hrg) & _ & Hnext & Hlong
        & [m' Hm'] & evs & Ht & Hevs).
  destruct (outsideCycle_initialRead evs Hevs) as [_ Hquiet].
  split.
  { rewrite Hv, Ht, lastVisibility_app by assumption. assumption. }
  split; [intros _; eauto|]. split.
  { rewrite Hst, Hstale, Hm'. rewrite Hm' in Hsame.
    destruct (measurements (comp w)); [reflexivity|]. destruct Hsame. }
  split; [congruence|]. split; [assumption|]. split.
  { unfold handleConsistent. rewrite Hnext. exact I. }
  auto.
Qed.

Lemma settled_scheduleUpdate (w w' : World E) :
  settled w -> scheduleUpdate H ZW w = Some (tt, w') -> settled w'.
Proof.
  intros Hs Hr.
  pose proof Hs as (_ & _ & _ & Hsync & _).
  rewrite (scheduleUpdate_deferred H ZW w Hsync) in Hr. injection Hr as <-.
  destruct (updateScheduled (comp w)); [assumption|].
  apply (settled_change w _ [EvScheduleCallback]); try assumption;
    try reflexivity.
  repeat constructor.
Qed.

Lemma settled_modifyComp (f : Component -> Component) (w : World E) :
  settled w ->
  visible (f (comp w)) = visible (comp w) ->
  measurements (f (comp w)) = measurements (comp w) ->
  staleMeasurements (f (comp w)) = staleMeasurements (comp w) ->
  updatedSynchronously (f (comp w)) = updatedSynchronously (comp w) ->
  longestLineToMeasure (f (comp w)) = longestLineToMeasure (comp w) ->
  nextUpdatePromise (f (comp w)) = nextUpdatePromise (comp w) ->
  resolveNextUpdatePromise (f (comp w)) = resolveNextUpdatePromise (comp w) ->
  horizontalPixelPositionsByScreenLineId (f (comp w))
  = horizontalPixelPositionsByScreenLineId (comp w) ->
  lineNodesByScreenLineId (f (comp w)) = lineNodesByScreenLineId (comp w) ->
  textNodesByScreenLineId (f (comp w)) = textNodesByScreenLineId (comp w) ->
  settled {| comp := f (comp w); ext := ext w; trace := trace w;
             promises := promises w; microtasks := microtasks w |}.
Proof.
  intros. apply (settled_change w _ []); try assumption; try reflexivity.
  - simpl. rewrite app_nil_r. reflexivity.
  - constructor.
Qed.

Lemma settled_didShow (w w' : World E) :
  settled w -> didShow H ZW w = Some (tt, w') -> settled w'.
Proof.
  intros Hs Hr.
  destruct (visible (comp w)) eqn:Hv.
  { rewrite (didShow_visible H ZW w Hv) in Hr. injection Hr as <-.
    assumption. }
  pose proof Hs as (_ & _ & Hstale & Hsync & _ & _ & Hcache & Hreg).
  apply (didShow_hidden H ZW w w' Hv) in Hr as (w1 & Hinit & Hrun).
  destruct (measurements (comp w)) as [m|] eqn:Hm.
  - injection Hinit as <-.
    apply (settled_updateSync _ w' Hrun); simpl; try assumption.
    + rewrite lastVisibility_snoc. reflexivity.
    + rewrite Hstale, Hm. reflexivity.
  - rewrite performInitialMeasurements_effect in Hinit. injection Hinit as <-.
    apply (settled_updateSync _ w' Hrun); simpl; try assumption;
      try reflexivity.
    rewrite lastVisibility_app by repeat constructor.
    rewrite lastVisibility_snoc. reflexivity.
Qed.

Lemma settled_didHide (w w' : World E) :
  settled w -> didHide H w = Some (tt, w') -> settled w'.
Proof.
  intros Hs Hr. unfold didHide, bind, getComp in Hr. simpl in Hr.
  destruct (visible (comp w)) eqn:Hv.
  - unfold modifyComp, emit, modifyExt in Hr. simpl in Hr.
    injection Hr as <-.
    pose proof Hs as (_ & _ & _ & _ & _ & Hhandle & _).
    apply (settled_intro w); try assumption; simpl;
      try (destruct (comp w); reflexivity).
    + rewrite lastVisibility_snoc. reflexivity.
    + discriminate.
  - injection Hr as <-. assumption.
Qed.

Lemma settled_didScroll (w w' : World E) :
  settled w -> didScroll H ZW w = Some (tt, w') -> settled w'.
Proof.
  intros Hs Hr.
  pose proof Hs as (Hvis & _ & Hstale & Hsync & _ & _ & Hcache & Hreg).
  apply didScroll_effect in Hr as (m & Hm & Hrun).
  apply (settled_updateSync _ w' Hrun); simpl; try assumption.
  - rewrite lastVisibility_app by repeat constructor. assumption.
  - rewrite Hstale, Hm. reflexivity.
Qed.

Lemma settled_didResize (w w' : World E) :
  settled w -> didResize H ZW w = Some (tt, w') -> settled w'.
Proof.
  intros Hs Hr. unfold didResize in Hr.
  apply bind_Some in Hr as (changed & w1 & Hmeasure & Hr).
  destruct (measurements (comp w)) as [m|] eqn:Hm.
  2:{ unfold measureEditorDimensions, bind, getComp, getExt, emit in Hmeasure.
      simpl in Hmeasure. rewrite Hm in Hmeasure. discriminate. }
  rewrite (measureEditorDimensions_effect H w m Hm) in Hmeasure.
  injection Hmeasure as <- <-.
  match type of Hr with
  | context [set_measurements (Some ?x) _] => set (m2 := x) in *
  end.
  assert (Hs1 : settled
                  {| comp := set_measurements (Some m2) (comp w);
                     ext := ext w;
                     trace := trace w ++ [EvReadEditorDimensions];
                     promises := promises w; microtasks := microtasks w |}).
  { pose proof Hs as (Hvis & _ & _ & _ & _ & Hhandle & _).
    apply (settled_intro w); try assumption; simpl; try reflexivity.
    - rewrite lastVisibility_app by repeat constructor. assumption.
    - intros _. eauto.
    - rewrite Hm. split; discriminate. }
  destruct (_ || _) in Hr.
  - eapply settled_scheduleUpdate; eassumption.
  - injection Hr as <-. assumption.
Qed.

Lemma settled_scheduledUpdate (w w' : World E) :
  settled w -> scheduledUpdate H ZW w = Some (tt, w') -> settled w'.
Proof.
  intros Hs Hr. unfold scheduledUpdate, bind, getComp in Hr. simpl in Hr.
  pose proof Hs as (Hvis & _ & Hstale & Hsync & _ & _ & Hcache & Hreg).
  destruct (updateScheduled (comp w)).
  - apply (settled_updateSync _ w' Hr); assumption.
  - injection Hr as <-. assumption.
Qed.

Lemma awaitNextUpdate_comp (w w' : World E) (waiter : nat) :
  awaitNextUpdate waiter w = Some (tt, w') ->
  comp w' = comp w
  \/ exists p, comp w' = set_resolveNextUpdatePromise (Some p)
                           (set_nextUpdatePromise (Some p) (comp w)).
Proof.
  unfold awaitNextUpdate, getNextUpdatePromise. intros Hr.
  apply bind_Some in Hr as (p & wa & Hget & Hawait).
  assert (Hsame : comp w' = comp wa).
  { unfold awaitPromise in Hawait.
    destruct (promises wa !! p) as [cell|]; [|discriminate].
    destruct (fulfilled cell); injection Hawait as <-; reflexivity. }
  rewrite Hsame.
  apply bind_Some in Hget as (this & wb & Hthis & Hget).
  injection Hthis as <- <-.
  destruct (nextUpdatePromise (comp w)).
  - injection Hget as <- <-. left. reflexivity.
  - apply bind_Some in Hget as (p' & wc & Hnew & Hget).
    injection Hnew as <- <-.
    apply bind_Some in Hget as (u & wd & Hmod & Hret).
    injection Hmod as <- <-. injection Hret as <- <-.
    right. eexists. reflexivity.
Qed.

Lemma settled_awaitNextUpdate (w w' : World E) (waiter : nat) :
  settled w -> awaitNextUpdate waiter w = Some (tt, w') -> settled w'.
Proof.
  intros Hs Hr.
  pose proof Hs as (Hvis & _ & _ & _ & _ & Hhandle & _).
  destruct (awaitNextUpdate_registers w w' waiter Hhandle Hr)
    as (p & waiting & Hnext & Hres & Hcell & _ & Ht).
  assert (Hhandle' : handleConsistent w').
  { unfold handleConsistent. rewrite Hnext. split; [assumption|]. eauto. }
  apply awaitNextUpdate_comp in Hr as [Hc|[p' Hc]].
  - apply (settled_intro w); try assumption; rewrite ?Hc, ?Ht;
      try reflexivity; try tauto.
    destruct Hs as (_ & Hvm & _). exact Hvm.
  - apply (settled_intro w); try assumption; rewrite ?Hc, ?Ht;
      try (destruct (comp w); reflexivity).
    + rewrite <- Hvis. destruct (comp w); reflexivity.
    + destruct Hs as (_ & Hvm & _). destruct (comp w); exact Hvm.
Qed.

Lemma settled_handler (a : Action) (w w' : World E) :
  settled w -> handler H ZW a w = Some (tt, w') -> settled w'.
Proof.
  intros Hs Hr. destruct a; simpl in Hr.
  - unfold update in Hr. apply bind_Some in Hr as (u & w1 & Hmod & Hr).
    injection Hmod as <- <-.
    eapply settled_scheduleUpdate; [|eassumption].
    apply (settled_modifyComp (set_rowsPerTileProp rowsPerTile));
      try assumption; destruct (comp w); reflexivity.
  - unfold didAttach in Hr. destruct (isVisible offsetWidth offsetHeight).
    + eapply settled_didShow; eassumption.
    + injection Hr as <-. assumption.
  - unfold intersectionObserved in Hr.
    destruct (last entries) as [rect|]; [|discriminate].
    destruct (_ || _) in Hr.
    + eapply settled_didShow; eassumption.
    + eapply settled_didHide; eassumption.
  - eapply settled_didShow; eassumption.
  - eapply settled_didHide; eassumption.
  - unfold didFocusHiddenInput in Hr.
    apply bind_Some in Hr as (this & w0 & Hthis & Hr).
    injection Hthis as <- <-.
    destruct (negb (focused (comp w))).
    + apply bind_Some in Hr as (u & w1 & Hmod & Hr).
      injection Hmod as <- <-.
      eapply settled_scheduleUpdate; [|eassumption].
      apply (settled_modifyComp (set_focused true));
        try assumption; destruct (comp w); reflexivity.
    + injection Hr as <-. assumption.
  - unfold didBlurHiddenInput in Hr. destruct (negb toEditor).
    + apply bind_Some in Hr as (u & w1 & Hmod & Hr).
      injection Hmod as <- <-.
      eapply settled_scheduleUpdate; [|eassumption].
      apply (settled_modifyComp (set_focused false));
        try assumption; destruct (comp w); reflexivity.
    + injection Hr as <-. assumption.
  - eapply settled_didScroll; eassumption.
  - eapply settled_didResize; eassumption.
  - eapply settled_scheduleUpdate; eassumption.
  - eapply settled_scheduledUpdate; eassumption.
  - eapply settled_awaitNextUpdate; eassumption.
  - injection Hr as <-.
    apply (settled_change w _ []); try assumption; try reflexivity.
    + simpl. rewrite app_nil_r. reflexivity.
    + constructor.
Qed.

Lemma settled_constructed (rowsPerTile : option Z) (e : E) (w : World E) :
  constructed H ZW rowsPerTile e = Some (tt, w) -> consistent w.
Proof.
  unfold constructed. intros Hr.
  destruct (Steady_etchUpdateSync H ZW _ _ _ Hr)
    as ((Hv & _ & _ & Hsy & Hst & _ & _ & Hc & Hrg) & _).
  destruct (Emits_etchUpdateSync H ZW _ _ _ Hr)
    as ((_ & Hmt & Hnext & _) & _).
  destruct (etchUpdateSync_frame H ZW _ _ Hr)
    as (_ & Hm & _ & Hlong & tiles & Ht).
  simpl in *.
  split; [|assumption].
  split; [rewrite Hv, Ht; reflexivity|].
  split; [rewrite Hv; discriminate|].
  split; [rewrite Hst, Hm; reflexivity|].
  split; [assumption|]. split; [auto|]. split.
  { unfold handleConsistent. rewrite Hnext. exact I. }
  split.
  - apply Hc. intros lineId positions Hl.
    destruct (lookup_empty_Some (M := gmap Z) lineId positions Hl).
  - apply Hrg. split; [reflexivity|].
    intros lineId textNodes Hl.
    destruct (lookup_empty_Some (M := gmap Z) lineId textNodes Hl).
Qed.

(** X20: as long as no handler has thrown, between two handler calls the
    component's [visible] flag is what the model was told last, a visible
    component has measurements, nothing is marked as stale, no line is
    waiting to be measured, the handle on the next-update promise names a
    pending promise, every cached line has 0 for column 0, the two
    registries name the same lines, and no continuation is left in the
    queue. *)
Theorem reachable_states_are_consistent (w : World E) :
  Reachable H ZW w -> consistent w.
Proof.
  induction 1 as [rowsPerTile e w Hr|a w w' _ IH Hr].
  - eapply settled_constructed. eassumption.
  - destruct IH as [Hs _]. unfold perform, runTask in Hr.
    apply bind_Some in Hr as (u & w1 & Hhandler & Hr). destruct u.
    apply (settled_handler a w w1 Hs) in Hhandler.
    unfold runMicrotasks in Hr. injection Hr as <-.
    split; [|reflexivity].
    apply (settled_change w1 _ (map EvNotify (microtasks w1)));
      try assumption; try reflexivity.
    induction (microtasks w1); constructor; auto.
Qed.

End InvariantFacts.





Section LongestLineFacts.
Context {E : Type} (H : Host E) (ZW : jsstring).














Lemma getLongestScreenLine_effect (w : World E) :
  getLongestScreenLine H w
  = match measurements (comp w) with
    | None => None
    | Some m =>
        let v := {| Planner.measurements := m;
                    Planner.rowsPerTile := rowsPerTileProp (comp w);
                    Planner.approximateScreenLineCount :=
                      getApproximateScreenLineCount H (ext w) |} in
        let e' := populateSpatialIndexIfNeeded H
                    (Planner.longestLinePopulateBound v) (ext w) in
        Some (screenLineForScreenRow H e' (getApproximateLongestScreenRow H e'),
              {| comp := comp w; ext := e';
                 trace := trace w
                          ++ [EvPopulateSpatialIndex
                                (Planner.longestLinePopulateBound v);
                              EvQueryLongestScreenRow];
                 promises := promises w; microtasks := microtasks w |})
    end.
Proof.
  unfold getLongestScreenLine, getView, bind, getComp, getExt. simpl.
  destruct (measurements (comp w)); [|reflexivity].
  unfold ret, emit, modifyExt. simpl. rewrite <- app_assoc. reflexivity.
Qed.

(** The start of a cycle: the flag is cleared and the promise resolved. *)
Lemma cycle_start (w wA : World E) (k : M E unit) :
  (let* _ := modifyComp (set_updateScheduled false) in
   let* this := getComp in
   let* _ :=
     match nextUpdatePromise this with
     | Some _ =>
         match resolveNextUpdatePromise this with
         | Some p =>
             let* _ := resolvePromise p in
             modifyComp (fun this =>
               set_resolveNextUpdatePromise None
                 (set_nextUpdatePromise None this))
         | None => throw
         end
     | None => ret tt
     end in
   k) w = Some (tt, wA) ->
  exists w0 evs,
    k w0 = Some (tt, wA)
    /\ ext w0 = ext w
    /\ rowsPerTileProp (comp w0) = rowsPerTileProp (comp w)
    /\ staleMeasurements (comp w0) = staleMeasurements (comp w)
    /\ keepsMeasured (comp w) (comp w0)
    /\ cursorsToRender (comp w0) = cursorsToRender (comp w)
    /\ trace w0 = trace w ++ evs
    /\ Forall (fun e => isReadLongestLineWidth e = false) evs
    /\ Forall (fun e => isCommit e = false) evs.
Proof.
  intros Hr.
  apply bind_Some in Hr as (u & w1 & H1 & Hr). injection H1 as _ <-.
  apply bind_Some in Hr as (this & w2 & H2 & Hr). injection H2 as <- <-.
  apply bind_Some in Hr as (u3 & w3 & H3 & Hr). destruct u3.
  exists w3. simpl in H3.
  destruct (nextUpdatePromise (comp w)) as [p0|].
  - destruct (resolveNextUpdatePromise (comp w)) as [p|]; [|discriminate].
    apply bind_Some in H3 as (u4 & w4 & H4 & H3). injection H3 as <-.
    unfold resolvePromise in H4. simpl in H4.
    destruct (promises w !! p) as [cell|]; [|discriminate].
    exists [EvResolve p].
    destruct (fulfilled cell); injection H4 as _ <-; simpl;
      (split; [exact Hr|]); repeat (split; try reflexivity);
      repeat constructor.
  - injection H3 as <-. exists []. simpl. rewrite app_nil_r.
    split; [exact Hr|]. repeat (split; try reflexivity); constructor.
Qed.



End LongestLineFacts.

Section RegistryFacts.
Context {E : Type} (H : Host E) (ZW : jsstring).

Lemma sortColumns_cons (c : Z) (columns : list Z) :
  Measure.sortColumns (c :: columns) <> [].
Proof.
  intros Hnil. apply (f_equal length) in Hnil.
  unfold Measure.sortColumns in Hnil.
  pose proof (Permutation_length (merge_sort_Permutation Z.le (c :: columns)))
    as Hlen.
  rewrite Hnil in Hlen. discriminate Hlen.
Qed.

(** X22: the registries are keyed by the screen line id alone.  A line
    that is built is registered; destroying a line component then removes
    the registration of its id, also when it is a newer component for
    the same id that registered it, and the next measurement of a column
    of that line throws.  Building and destroying a line whose id was not
    registered leaves the registries as they were, and neither touches the
    cached positions. *)
Theorem destroy_unregisters_by_id (w w1 : World E) (old new : ScreenLine) :
  id new = id old ->
  applyPatchOp H ZW (Construct new) w = Some (tt, w1) ->
  is_Some (lineNodesByScreenLineId (comp w1) !! id new)
  /\ is_Some (textNodesByScreenLineId (comp w1) !! id new)
  /\ exists w2,
       applyPatchOp H ZW (Destroy old) w1 = Some (tt, w2)
       /\ lineNodesByScreenLineId (comp w2) !! id new = None
       /\ textNodesByScreenLineId (comp w2) !! id new = None
       /\ (forall r c columns,
             getScreenLine H (ext w2) r = Some new ->
             measureRow H (r, c :: columns) w2 = None)
       /\ (lineNodesByScreenLineId (comp w) !! id new = None ->
           textNodesByScreenLineId (comp w) !! id new = None ->
           lineNodesByScreenLineId (comp w2) = lineNodesByScreenLineId (comp w)
           /\ textNodesByScreenLineId (comp w2)
              = textNodesByScreenLineId (comp w))
       /\ horizontalPixelPositionsByScreenLineId (comp w2)
          = horizontalPixelPositionsByScreenLineId (comp w).
Proof.
  intros Hid Hbuild. unfold applyPatchOp in Hbuild.
  destruct (LineComponent.construct ZW (displayLayer H) new) as [r|];
    [|discriminate].
  unfold modifyComp in Hbuild. injection Hbuild as <-. simpl.
  split; [rewrite lookup_insert_eq; eauto|].
  split; [rewrite lookup_insert_eq; eauto|].
  eexists. split; [reflexivity|]. simpl. rewrite <- Hid.
  split; [apply lookup_delete_eq|]. split; [apply lookup_delete_eq|].
  split.
  { intros row c columns Hline.
    unfold measureRow, bind, getExt, getComp. simpl in *. rewrite Hline.
    simpl. rewrite lookup_delete_eq.
    destruct (Measure.sortColumns (c :: columns)) eqn:Hsort; [|reflexivity].
    destruct (sortColumns_cons c columns Hsort). }
  split; [|reflexivity].
  intros Hl Ht. rewrite !delete_insert_eq.
  split; apply delete_id; assumption.
Qed.

End RegistryFacts.

Section CommitFacts.
Context {E : Type} (H : Host E) (ZW : jsstring).

Lemma Emits_no_commit {A} (m : M E A) (w w' : World E) (a : A) :
  Emits 0 m -> m w = Some (a, w') ->
  exists evs, trace w' = trace w ++ evs
              /\ filter (fun e => isCommit e = true) evs = [].
Proof.
  intros Hm Hr. destruct (Hm w a w' Hr) as (_ & evs & Ht & _ & Hcount).
  exists evs. split; [assumption|].
  destruct (filter _ evs); [reflexivity|discriminate].
Qed.

(** X23: of the two commits of an update cycle, the first renders the
    cursors as the cycle before left them, and the second the cursors as
    this cycle leaves them. *)
Theorem commits_show_old_then_new_cursors (w w' : World E) :
  updateSync H ZW w = Some (tt, w') ->
  exists tiles1 tiles2,
    filter (fun e => isCommit e = true) (newEvents w w')
    = [EvCommit tiles1 (cursorsToRender (comp w));
       EvCommit tiles2 (cursorsToRender (comp w'))].
Proof.
  intros Hr. unfold updateSync in Hr.
  apply cycle_start in Hr
    as (w0 & evs0 & Hr & _ & _ & _ & _ & Hc0 & Ht0 & _ & Hevs0).
  apply bind_Some in Hr as (this & wa & Ha & Hr). injection Ha as <- <-.
  apply bind_Some in Hr as (stale & w1 & Hstale & Hr).
  assert (H1 : comp w1 = comp w0 /\ trace w1 = trace w0).
  { destruct (staleMeasurements (comp w0)); [|discriminate].
    injection Hstale as _ <-. auto. }
  destruct H1 as [Hc1 Ht1].
  apply bind_Some in Hr as (u2 & w2 & Hdims & Hr).
  assert (H2 : exists evs, trace w2 = trace w1 ++ evs
                           /\ filter (fun e => isCommit e = true) evs = []
                           /\ cursorsToRender (comp w2)
                              = cursorsToRender (comp w1)).
  { destruct (editorDimensions stale).
    - apply bind_Some in Hdims as (b & wb & Hdims & Hret).
      injection Hret as _ <-.
      destruct (measurements (comp w1)) as [m|] eqn:Hm.
      + rewrite (measureEditorDimensions_effect H w1 m Hm) in Hdims.
        injection Hdims as _ <-. simpl.
        exists [EvReadEditorDimensions]. auto.
      + unfold measureEditorDimensions, bind, getComp, getExt, emit in Hdims.
        simpl in Hdims. rewrite Hm in Hdims. discriminate.
    - injection Hdims as _ <-. exists []. rewrite app_nil_r. auto. }
  destruct H2 as (evs2 & Ht2 & Hevs2 & Hc2).
  apply bind_Some in Hr as (longest & w3 & Hlongest & Hr).
  rewrite getLongestScreenLine_effect in Hlongest.
  destruct (measurements (comp w2)) as [m|]; [|discriminate].
  cbv zeta in Hlongest. injection Hlongest as _ <-.
  match type of Hr with
  | context [EvPopulateSpatialIndex ?b] => set (bound := b) in *
  end.
  apply bind_Some in Hr as (this & wa & Ha & Hr). injection Ha as <- <-.
  apply bind_Some in Hr as (u4 & w4 & Hremember & Hr).
  assert (H4 : cursorsToRender (comp w4) = cursorsToRender (comp w2)
               /\ trace w4
                  = trace w2 ++ [EvPopulateSpatialIndex bound;
                                 EvQueryLongestScreenRow]).
  { simpl in Hremember. destruct (negb _); injection Hremember as _ <-; auto. }
  destruct H4 as [Hc4 Ht4].
  apply bind_Some in Hr as (u5 & w5 & Hclear & Hr). injection Hclear as _ <-.
  apply bind_Some in Hr as (u6 & w6 & Hetch & Hr). destruct u6.
  apply etchUpdateSync_frame in Hetch as (Hc6 & _ & _ & _ & tiles1 & Ht6).
  simpl in Hc6, Ht6.
  apply bind_Some in Hr as (u7 & w7 & Hmeasure & Hr).
  assert (H7 : exists evs, trace w7 = trace w6 ++ evs
                           /\ filter (fun e => isCommit e = true) evs = []).
  { destruct (negb _).
    - eapply Emits_no_commit; [apply Emits_measureLongestLineWidth|].
      eassumption.
    - injection Hmeasure as _ <-. exists []. rewrite app_nil_r. auto. }
  destruct H7 as (evs7 & Ht7 & Hevs7).
  apply bind_Some in Hr as (u8 & w8 & Hquery & Hr).
  apply (Emits_no_commit _ _ _ _ (Emits_queryCursorsToRender H)) in Hquery
    as (evs8 & Ht8 & Hevs8).
  apply bind_Some in Hr as (u9 & w9 & Hpositions & Hr).
  apply (Emits_no_commit _ _ _ _ (Emits_measureHorizontalPositions H))
    in Hpositions as (evs9 & Ht9 & Hevs9).
  apply bind_Some in Hr as (u10 & w10 & Hposition & Hr).
  apply (Emits_no_commit _ _ _ _ (Emits_positionCursorsToRender H))
    in Hposition as (evs10 & Ht10 & Hevs10).
  apply etchUpdateSync_frame in Hr as (Hc11 & _ & _ & _ & tiles2 & Ht11).
  exists tiles1, tiles2.
  rewrite (newEvents_app w w'
             (evs0 ++ evs2
              ++ [EvPopulateSpatialIndex bound; EvQueryLongestScreenRow]
              ++ [EvCommit tiles1 (cursorsToRender (comp w))]
              ++ evs7 ++ evs8 ++ evs9 ++ evs10
              ++ [EvCommit tiles2 (cursorsToRender (comp w'))])).
  - rewrite !filter_app, (filter_none isCommit evs0 Hevs0), Hevs2, Hevs7,
      Hevs8, Hevs9, Hevs10.
    reflexivity.
  - rewrite Ht11, Ht10, Ht9, Ht8, Ht7, Ht6, Ht4, Ht2, Ht1, Ht0.
    rewrite Hc11, Hc4, Hc2, Hc1, Hc0, <- !app_assoc. reflexivity.
Qed.

End CommitFacts.

(** * The properties on the example editor *)

Section OnTheExample.
Import Examples.

Lemma visible_row_in_exactly_one_tile_witness :
  Planner.wellFormed viewAtRow7
  /\ 0 <= 10
  /\ Planner.getFirstVisibleRow viewAtRow7 <= 10 <= Planner.getLastVisibleRow viewAtRow7
  /\ ((exists T,
          T ∈ Planner.tileStartRows viewAtRow7
          /\ T <= 10 < T + Planner.getRowsPerTile viewAtRow7
          /\ forall T', T' ∈ Planner.tileStartRows viewAtRow7 ->
                        T' <= 10 < T' + Planner.getRowsPerTile viewAtRow7 -> T' = T)
      /\ Planner.getRenderedStartRow viewAtRow7 <= 10
         < Planner.getRenderedEndRow viewAtRow7).
Proof.
  assert (Hwf : Planner.wellFormed viewAtRow7) by (split; reflexivity).
  assert (H0 : 0 <= 10) by lia.
  assert (Hrows : Planner.getFirstVisibleRow viewAtRow7 <= 10
                  <= Planner.getLastVisibleRow viewAtRow7)
    by (vm_compute; split; discriminate).
  split; [exact Hwf|]. split; [exact H0|]. split; [exact Hrows|].
  exact (visible_row_in_exactly_one_tile viewAtRow7 10 Hwf H0 Hrows).
Defined.

Lemma ten_row_viewport_counterexample :
  ~ (Planner.getVisibleTileCount viewAtTop = 2
     /\ Planner.tileStartRows viewAtTop = [0; 6]
     /\ (Planner.getFirstVisibleRow viewAtRow7 = 7 ->
         Planner.getFirstTileStartRow viewAtRow7 = 6
         /\ forall r r',
              Tiles.renderLineTiles viewAtTop [] None = Some r ->
              Tiles.renderLineTiles viewAtRow7 [] None = Some r' ->
              Tiles.slotStartRow r.1 (Planner.tileIndex viewAtTop 0) = Some 0
              /\ Tiles.slotStartRow r'.1 (Planner.tileIndex viewAtTop 0)
                 = Some 12)).
Proof.
  intros (Hcount & _). vm_compute in Hcount. discriminate Hcount.
Qed.

Lemma ten_row_viewport_tiles_witness :
  (0 < 20)%Q
  /\ Planner.getFirstVisibleRow viewAtRow7 = 7
  /\ Planner.getVisibleTileCount viewAtTop = 3
  /\ Planner.tileStartRows viewAtTop = [0; 6; 12]
  /\ Planner.getVisibleTileCount viewAtRow7 = 3
  /\ Planner.getFirstTileStartRow viewAtRow7 = 6
  /\ Planner.tileStartRows viewAtRow7 = [6; 12; 18]
  /\ exists r r',
       Tiles.renderLineTiles viewAtTop [] None = Some r
       /\ Tiles.renderLineTiles viewAtRow7 [] None = Some r'
       /\ Tiles.slotStartRow r.1 0 = Some 0
       /\ Tiles.slotStartRow r.1 1 = Some 6
       /\ Tiles.slotStartRow r.1 2 = Some 12
       /\ Tiles.slotStartRow r'.1 0 = Some 18
       /\ Tiles.slotStartRow r'.1 1 = Some 6
       /\ Tiles.slotStartRow r'.1 2 = Some 12.
Proof.
  split; [reflexivity|]. split; [reflexivity|].
  apply (ten_row_viewport_tiles 20 viewAtTop viewAtRow7 [] [] None None);
    try reflexivity; vm_compute; discriminate.
Defined.

Lemma tile_count_counterexample :
  ~ ((scrollerHeight (Planner.measurements shortViewAtEnd)
      == scrollerHeight (Planner.measurements shortViewAtTop))%Q ->
     (lineHeight (Planner.measurements shortViewAtEnd)
      == lineHeight (Planner.measurements shortViewAtTop))%Q ->
     Planner.getRowsPerTile shortViewAtEnd = Planner.getRowsPerTile shortViewAtTop ->
     Planner.getVisibleTileCount shortViewAtEnd
     = Planner.getVisibleTileCount shortViewAtTop).
Proof.
  intros Hclaim.
  specialize (Hclaim ltac:(reflexivity) ltac:(reflexivity) eq_refl).
  vm_compute in Hclaim. discriminate Hclaim.
Qed.

Lemma tile_count_and_slots_witness :
  Planner.wellFormed viewAtTop
  /\ (0 <= scrollTop (Planner.measurements viewAtTop))%Q
  /\ exists r,
       Tiles.renderLineTiles viewAtTop exampleLines None = Some r
       /\ NoDup (Planner.tileIndex viewAtTop <$> Planner.tileStartRows viewAtTop)
       /\ (forall i, i ∈ Planner.tileIndex viewAtTop <$> Planner.tileStartRows viewAtTop
                     <-> 0 <= i < Planner.getVisibleTileCount viewAtTop)
       /\ (forall i, 0 <= i < Planner.getVisibleTileCount viewAtTop ->
             exists T, T ∈ Planner.tileStartRows viewAtTop
                       /\ Planner.tileIndex viewAtTop T = i
                       /\ Tiles.slotStartRow r.1 i = Some T)
       /\ Planner.getVisibleTileCount viewAtRow7
          = Planner.getVisibleTileCount viewAtTop.
Proof.
  assert (Hwf : Planner.wellFormed viewAtTop) by (split; reflexivity).
  assert (Htop : (0 <= scrollTop (Planner.measurements viewAtTop))%Q)
    by (vm_compute; discriminate).
  split; [exact Hwf|]. split; [exact Htop|].
  destruct (Tiles.renderLineTiles viewAtTop exampleLines None) as [r|] eqn:Hrender;
    [|vm_compute in Hrender; discriminate].
  exists r. split; [reflexivity|].
  destruct (tile_count_and_slots viewAtTop exampleLines None r Hwf Htop Hrender)
    as (Hnodup & Hset & Hslots & Hcount).
  split; [exact Hnodup|]. split; [exact Hset|]. split; [exact Hslots|].
  apply Hcount; try reflexivity; vm_compute; discriminate.
Defined.


Lemma awaiting_caller_notified_once_after_second_commit_witness :
  handleConsistent shownWorld
  /\ microtasks shownWorld = []
  /\ awaitNextUpdate 7 shownWorld = Some (tt, awaitingWorld)
  /\ runTask (updateSync exampleHost ZWNBSP) awaitingWorld
     = Some (tt, updatedWorld)
  /\ exists p waiting cycle,
       nextUpdatePromise (comp awaitingWorld) = Some p
       /\ promises awaitingWorld !! p
          = Some {| fulfilled := false; reactions := waiting ++ [7%nat] |}
       /\ trace updatedWorld
          = trace awaitingWorld ++ [EvResolve p] ++ cycle
            ++ map EvNotify (waiting ++ [7%nat])
       /\ Forall (fun e => isNotify e = false) cycle
       /\ length (filter (fun e => isCommit e = true) cycle) = 2%nat
       /\ (exists evs tiles cursors, cycle = evs ++ [EvCommit tiles cursors])
       /\ microtasks updatedWorld = []
       /\ promises updatedWorld !! p
          = Some {| fulfilled := true; reactions := [] |}
       /\ nextUpdatePromise (comp updatedWorld) = None
       /\ handleConsistent updatedWorld
       /\ exists p' w3,
            getNextUpdatePromise updatedWorld = Some (p', w3)
            /\ p' <> p
            /\ nextUpdatePromise (comp w3) = Some p'
            /\ promises w3 !! p'
               = Some {| fulfilled := false; reactions := [] |}
            /\ promises w3 !! p
               = Some {| fulfilled := true; reactions := [] |}
            /\ handleConsistent w3.
Proof.
  assert (Hc : handleConsistent shownWorld) by (vm_compute; exact I).
  assert (Hq : microtasks shownWorld = []) by (vm_compute; reflexivity).
  assert (Hawait : awaitNextUpdate 7 shownWorld = Some (tt, awaitingWorld))
    by (vm_compute; reflexivity).
  assert (Hrun : runTask (updateSync exampleHost ZWNBSP) awaitingWorld
                 = Some (tt, updatedWorld))
    by (vm_compute; reflexivity).
  split; [exact Hc|]. split; [exact Hq|]. split; [exact Hawait|].
  split; [exact Hrun|].
  exact (awaiting_caller_notified_once_after_second_commit exampleHost ZWNBSP
           shownWorld awaitingWorld updatedWorld 7%nat Hc Hq Hawait Hrun).
Defined.

Lemma populate_bound_counterexample :
  ~ (Planner.getRenderedEndRow viewAtTop
     <= Planner.longestLinePopulateBound viewAtTop).
Proof. vm_compute. intros Hle. apply Hle. reflexivity. Qed.

Lemma populate_bound_before_longest_line_witness :
  getView exampleHost shownWorld = Some (shownView, shownWorld)
  /\ getLongestScreenLine exampleHost shownWorld
     = Some (Some (exampleLine 1), longestQueriedWorld)
  /\ Planner.wellFormed shownView
  /\ Planner.nonNegative shownView
  /\ trace longestQueriedWorld
     = trace shownWorld
       ++ [EvPopulateSpatialIndex (Planner.longestLinePopulateBound shownView);
           EvQueryLongestScreenRow]
  /\ ext longestQueriedWorld
     = populateSpatialIndexIfNeeded exampleHost
         (Planner.longestLinePopulateBound shownView) (ext shownWorld)
  /\ Some (exampleLine 1)
     = screenLineForScreenRow exampleHost (ext longestQueriedWorld)
         (getApproximateLongestScreenRow exampleHost (ext longestQueriedWorld))
  /\ Planner.getLastVisibleRow shownView
     < Planner.longestLinePopulateBound shownView
  /\ Planner.longestLinePopulateBound shownView
     <= Planner.getRenderedEndRow shownView.
Proof.
  assert (Hview : getView exampleHost shownWorld = Some (shownView, shownWorld))
    by (vm_compute; reflexivity).
  assert (Hrun : getLongestScreenLine exampleHost shownWorld
                 = Some (Some (exampleLine 1), longestQueriedWorld))
    by (vm_compute; reflexivity).
  assert (Hwf : Planner.wellFormed shownView) by (split; reflexivity).
  assert (Hnn : Planner.nonNegative shownView)
    by (vm_compute; repeat split; discriminate).
  split; [exact Hview|]. split; [exact Hrun|]. split; [exact Hwf|].
  split; [exact Hnn|].
  exact (populate_bound_before_longest_line exampleHost shownWorld
           longestQueriedWorld shownView (Some (exampleLine 1))
           Hview Hrun Hwf Hnn).
Defined.

Lemma hidden_view_update_counterexample :
  ~ (visible (comp hiddenWorld) = false ->
     forall w',
       scheduledUpdate exampleHost ZWNBSP hiddenWorld = Some (tt, w') ->
       filter (fun e => isCommit e = true) (newEvents hiddenWorld w') = []).
Proof.
  intros Hclaim.
  assert (Hrun : scheduledUpdate exampleHost ZWNBSP hiddenWorld
                 = Some (tt, hiddenUpdatedWorld))
    by (vm_compute; reflexivity).
  assert (Hhidden : visible (comp hiddenWorld) = false)
    by (vm_compute; reflexivity).
  specialize (Hclaim Hhidden hiddenUpdatedWorld Hrun). clear Hrun Hhidden.
  vm_compute in Hclaim. discriminate Hclaim.
Qed.

Lemma hidden_view_still_updates_witness :
  didHide exampleHost scheduledWorld = Some (tt, hiddenWorld)
  /\ updateScheduled (comp hiddenWorld) = true
  /\ scheduledUpdate exampleHost ZWNBSP hiddenWorld
     = Some (tt, hiddenUpdatedWorld)
  /\ visible (comp hiddenWorld) = false
  /\ newEvents scheduledWorld hiddenWorld = [EvSetModelVisible false]
  /\ length (filter (fun e => isCommit e = true)
               (newEvents hiddenWorld hiddenUpdatedWorld)) = 2%nat.
Proof.
  assert (Hhide : didHide exampleHost scheduledWorld = Some (tt, hiddenWorld))
    by (vm_compute; reflexivity).
  assert (Hsched : updateScheduled (comp hiddenWorld) = true)
    by (vm_compute; reflexivity).
  assert (Hrun : scheduledUpdate exampleHost ZWNBSP hiddenWorld
                 = Some (tt, hiddenUpdatedWorld))
    by (vm_compute; reflexivity).
  split; [exact Hhide|]. split; [exact Hsched|]. split; [exact Hrun|].
  destruct (hidden_view_still_updates exampleHost ZWNBSP scheduledWorld
              hiddenWorld Hhide) as (Hv & _ & Hev & Hcommits & _ & _).
  split; [exact Hv|]. split; [exact Hev|].
  exact (Hcommits hiddenUpdatedWorld Hsched Hrun).
Defined.

Lemma evicted_line_counterexample :
  ~ (forall w',
       applyPatchOp exampleHost ZWNBSP (Destroy (exampleLine 1)) shownWorld
       = Some (tt, w') ->
       horizontalPixelPositionsByScreenLineId (comp w') !! id (exampleLine 1)
       = None).
Proof.
  intros Hclaim.
  assert (Hdestroy :
    applyPatchOp exampleHost ZWNBSP (Destroy (exampleLine 1)) shownWorld
    = Some (tt, evictedWorld)) by (vm_compute; reflexivity).
  specialize (Hclaim evictedWorld Hdestroy). clear Hdestroy.
  vm_compute in Hclaim. discriminate Hclaim.
Qed.

Lemma evicted_line_keeps_cached_positions_witness :
  applyPatchOp exampleHost ZWNBSP (Destroy (exampleLine 1)) shownWorld
  = Some (tt, evictedWorld)
  /\ updateSync exampleHost ZWNBSP evictedWorld = Some (tt, evictedUpdatedWorld)
  /\ lineNodesByScreenLineId (comp evictedWorld) !! id (exampleLine 1) = None
  /\ textNodesByScreenLineId (comp evictedWorld) !! id (exampleLine 1) = None
  /\ horizontalPixelPositionsByScreenLineId (comp evictedWorld)
     = horizontalPixelPositionsByScreenLineId (comp shownWorld)
  /\ dom (horizontalPixelPositionsByScreenLineId (comp evictedWorld))
     ⊆ dom (horizontalPixelPositionsByScreenLineId (comp evictedUpdatedWorld)).
Proof.
  assert (Hdestroy :
    applyPatchOp exampleHost ZWNBSP (Destroy (exampleLine 1)) shownWorld
    = Some (tt, evictedWorld)) by (vm_compute; reflexivity).
  assert (Hrun : updateSync exampleHost ZWNBSP evictedWorld
                 = Some (tt, evictedUpdatedWorld))
    by (vm_compute; reflexivity).
  split; [exact Hdestroy|]. split; [exact Hrun|].
  destruct (evicted_line_keeps_cached_positions exampleHost ZWNBSP shownWorld
              evictedWorld (exampleLine 1) Hdestroy)
    as (Hline & Htext & Hcache & Hkeeps).
  split; [exact Hline|]. split; [exact Htext|]. split; [exact Hcache|].
  exact (Hkeeps evictedUpdatedWorld Hrun).
Defined.


Lemma tile_of_row_is_stable_witness :
  Planner.wellFormed viewAtRow7
  /\ (0 <= scrollTop (Planner.measurements viewAtRow7))%Q
  /\ (forall T, T ∈ Planner.tileStartRows viewAtRow7 ->
        0 <= T /\ Z.rem T (Planner.getRowsPerTile viewAtRow7) = 0
        /\ Planner.getTileStartRow viewAtRow7 T = T)
  /\ Planner.getTileStartRow viewAtRow7 10 ∈ Planner.tileStartRows viewAtRow7
  /\ exists T, T ∈ Planner.tileStartRows viewAtRow7
               /\ T ∈ Planner.tileStartRows viewAtTop
               /\ T <= 8 < T + Planner.getRowsPerTile viewAtRow7.
Proof.
  assert (Hwf : Planner.wellFormed viewAtRow7) by (split; reflexivity).
  assert (Htop : (0 <= scrollTop (Planner.measurements viewAtRow7))%Q)
    by (vm_compute; discriminate).
  split; [exact Hwf|]. split; [exact Htop|].
  destruct (tile_of_row_is_stable viewAtRow7 Hwf Htop)
    as (Hstarts & Hvisible & Hstable).
  split; [exact Hstarts|]. split.
  - apply Hvisible. vm_compute. split; discriminate.
  - apply (Hstable viewAtTop 8).
    + split; reflexivity.
    + vm_compute. discriminate.
    + reflexivity.
    + vm_compute. split; discriminate.
    + vm_compute. split; discriminate.
Defined.


Lemma renderLineTiles_throws_past_the_end_witness :
  Planner.wellFormed viewPastTheEnd
  /\ Planner.nonNegative viewPastTheEnd
  /\ Tiles.renderLineTiles viewPastTheEnd [] None = None
  /\ Planner.wellFormed viewAtRow7
  /\ Planner.nonNegative viewAtRow7
  /\ 2 <= Planner.getVisibleTileCount viewAtRow7.
Proof.
  assert (Hwf : Planner.wellFormed viewPastTheEnd) by (split; reflexivity).
  assert (Hnn : Planner.nonNegative viewPastTheEnd)
    by (repeat split; vm_compute; discriminate).
  assert (Hwf7 : Planner.wellFormed viewAtRow7) by (split; reflexivity).
  assert (Hnn7 : Planner.nonNegative viewAtRow7)
    by (repeat split; vm_compute; discriminate).
  split; [exact Hwf|]. split; [exact Hnn|]. split.
  - apply (proj1 (renderLineTiles_throws_past_the_end viewPastTheEnd [] None
                    Hwf Hnn)).
    vm_compute. reflexivity.
  - split; [exact Hwf7|]. split; [exact Hnn7|].
    apply (proj2 (renderLineTiles_throws_past_the_end viewAtRow7 [] None
                    Hwf7 Hnn7)).
    vm_compute. discriminate.
Defined.

Lemma tiles_hold_the_fetched_lines_witness :
  Planner.wellFormed viewAtTop
  /\ (0 <= scrollTop (Planner.measurements viewAtTop))%Q
  /\ exists r,
       Tiles.renderLineTiles viewAtTop exampleLines None = Some r
       /\ (exists tile,
             Tiles.arrayGet (Planner.tileIndex viewAtTop 6) r.1
             = Some (Tiles.VTile tile)
             /\ Tiles.lineNodes tile = map exampleLine (seqZ 6 6))
       /\ concat (linesOfTile viewAtTop exampleLines
                  <$> Planner.tileStartRows viewAtTop)
          = map exampleLine (seqZ 0 18).
Proof.
  assert (Hwf : Planner.wellFormed viewAtTop) by (split; reflexivity).
  assert (Htop : (0 <= scrollTop (Planner.measurements viewAtTop))%Q)
    by (vm_compute; discriminate).
  split; [exact Hwf|]. split; [exact Htop|].
  destruct (Tiles.renderLineTiles viewAtTop exampleLines None) as [r|] eqn:Hrender;
    [|vm_compute in Hrender; discriminate].
  exists r. split; [reflexivity|].
  destruct (tiles_hold_the_fetched_lines viewAtTop exampleLines None r Hwf Htop
              Hrender) as (Htiles & Hlines).
  split.
  - destruct (Htiles 6) as (tile & Hget & _ & Hnodes & _).
    { vm_compute. right. left. }
    exists tile. split; [exact Hget|]. rewrite Hnodes. vm_compute. reflexivity.
  - rewrite Hlines. vm_compute. reflexivity.
Defined.

Lemma longest_line_rendered_once_witness :
  Planner.wellFormed viewAtTop
  /\ (0 <= scrollTop (Planner.measurements viewAtTop))%Q
  /\ (exists r tiles,
        Tiles.renderLineTiles viewAtTop exampleLines (Some (exampleLine 25))
        = Some r
        /\ r.2 = None
        /\ length tiles = 3%nat
        /\ r.1 = tiles ++ [Some (Tiles.VLine (exampleLine 25))])
  /\ (exists r,
        Tiles.renderLineTiles viewAtTop exampleLines (Some (exampleLine 1))
        = Some r
        /\ r.2 = None
        /\ length r.1 = 3%nat).
Proof.
  assert (Hwf : Planner.wellFormed viewAtTop) by (split; reflexivity).
  assert (Htop : (0 <= scrollTop (Planner.measurements viewAtTop))%Q)
    by (vm_compute; discriminate).
  split; [exact Hwf|]. split; [exact Htop|]. split.
  - destruct (Tiles.renderLineTiles viewAtTop exampleLines
                (Some (exampleLine 25))) as [r|] eqn:Hrender;
      [|vm_compute in Hrender; discriminate].
    destruct (longest_line_rendered_once viewAtTop exampleLines
                (Some (exampleLine 25)) r Hwf Htop Hrender)
      as (Hnone & tiles & Hlen & _ & Hframe).
    exists r, tiles. split; [reflexivity|]. split; [exact Hnone|].
    split; [exact Hlen|]. exact Hframe.
  - destruct (Tiles.renderLineTiles viewAtTop exampleLines
                (Some (exampleLine 1))) as [r|] eqn:Hrender;
      [|vm_compute in Hrender; discriminate].
    destruct (longest_line_rendered_once viewAtTop exampleLines
                (Some (exampleLine 1)) r Hwf Htop Hrender)
      as (Hnone & tiles & Hlen & _ & Hframe).
    exists r. split; [reflexivity|]. split; [exact Hnone|].
    rewrite Hframe. change (isAmong _ _) with true. rewrite app_nil_r.
    exact Hlen.
Defined.

Lemma gutter_line_numbers_witness :
  Planner.wellFormed wrappedView
  /\ (0 <= scrollTop (Planner.measurements wrappedView))%Q
  /\ 0 <= Planner.getVisibleTileCount wrappedView
  /\ exists children tile,
       Gutter.renderLineNumberGutter (Some wrappedView) exampleLineNumbers
       = Some (Gutter.GutterTiles children)
       /\ length children = 3%nat
       /\ Tiles.arrayGet (Planner.tileIndex wrappedView 12) children = Some tile
       /\ Gutter.lineNumber <$> Gutter.lineNumberNodes tile
          = [[160; 55]; [160; 8226]; [160; 56]; [160; 8226]; [160; 57];
             [160; 8226]].
Proof.
  assert (Hwf : Planner.wellFormed wrappedView) by (split; reflexivity).
  assert (Htop : (0 <= scrollTop (Planner.measurements wrappedView))%Q)
    by (vm_compute; discriminate).
  assert (Hcount : 0 <= Planner.getVisibleTileCount wrappedView)
    by (vm_compute; discriminate).
  split; [exact Hwf|]. split; [exact Htop|]. split; [exact Hcount|].
  destruct (gutter_line_numbers wrappedView exampleLineNumbers Hwf Htop Hcount)
    as (children & Hrun & Hlen & Htiles & _).
  { intros row Hrow Hlast. simpl.
    change (Planner.getRenderedStartRow wrappedView) with 6 in Hrow.
    change (Planner.approximateScreenLineCount wrappedView) with 30 in Hlast.
    split; [apply Z.div_pos; lia|apply Z.div_lt_upper_bound; lia]. }
  destruct (Htiles 12) as (tile & Hget & _ & Hnodes).
  { vm_compute. right. left. }
  exists children, tile. split; [exact Hrun|]. split; [exact Hlen|].
  split; [exact Hget|]. rewrite Hnodes. vm_compute. reflexivity.
Defined.



Lemma class_names_have_no_dots_witness :
  tableSound ∅
  /\ (classNameForScopeNameIn ∅ [115; 46; 46; 116]).1 = [115; 32; 116]
  /\ (46 ∉ (classNameForScopeNameIn ∅ [115; 46; 46; 116]).1)
  /\ tableSound (classNameForScopeNameIn ∅ [115; 46; 46; 116]).2.
Proof.
  assert (Hsound : tableSound ∅)
    by (intros k v Hk; rewrite lookup_empty in Hk; discriminate).
  split; [exact Hsound|].
  destruct (class_names_have_no_dots ∅ [115; 46; 46; 116] Hsound)
    as (Hvalue & Htable & _ & _ & Hdots & _).
  split; [rewrite Hvalue; reflexivity|]. split; [exact Hdots|exact Htable].
Defined.

Lemma measured_positions_are_range_edges_witness :
  Forall (fun column => 0 <= column) [4; 0; 2]
  /\ Measure.zeroAtZero ∅
  /\ (Measure.measureHorizontalPositionsOnLine exampleSurface exampleTextNodes
        (Measure.sortColumns [4; 0; 2]) ∅).1 !! 4
     = Some (40 + 8 * inject_Z 2 - 40)%Q
  /\ (Measure.measureHorizontalPositionsOnLine exampleSurface exampleTextNodes
        (Measure.sortColumns [4; 0; 2]) ∅).1 !! 0
     = Some 0%Q
  /\ (Measure.measureHorizontalPositionsOnLine exampleSurface exampleTextNodes
        (Measure.sortColumns [4; 0; 2]) ∅).1 !! 3
     = None.
Proof.
  assert (Hnonneg : Forall (fun column => 0 <= column) [4; 0; 2])
    by (repeat constructor; lia).
  assert (Hzero : Measure.zeroAtZero ∅)
    by (intros x Hx; rewrite lookup_empty in Hx; discriminate).
  split; [exact Hnonneg|]. split; [exact Hzero|].
  rewrite !(measured_positions_are_range_edges exampleSurface exampleTextNodes
              [4; 0; 2] ∅ Hnonneg Hzero).
  rewrite !lookup_empty. split; [|split]; reflexivity.
Defined.

Lemma measurement_reads_stay_in_bounds_witness :
  Forall (fun column => 0 <= column) [4; 0; 2]
  /\ Measure.zeroAtZero ∅
  /\ Forall (inBounds exampleTextNodes)
       (Measure.measureHorizontalPositionsOnLine exampleSurface
          exampleTextNodes (Measure.sortColumns [4; 0; 2]) ∅).2
  /\ (Measure.measureHorizontalPositionsOnLine exampleSurface
        exampleTextNodes (Measure.sortColumns [4; 0; 2]) ∅).2
     = [Measure.RangeQuery 0 0 2; Measure.LineRectQuery;
        Measure.RangeQuery 1 0 2].
Proof.
  assert (Hnonneg : Forall (fun column => 0 <= column) [4; 0; 2])
    by (repeat constructor; lia).
  assert (Hzero : Measure.zeroAtZero ∅)
    by (intros x Hx; rewrite lookup_empty in Hx; discriminate).
  split; [exact Hnonneg|]. split; [exact Hzero|].
  split; [|vm_compute; reflexivity].
  exact (proj1 (measurement_reads_stay_in_bounds exampleSurface
                  exampleTextNodes [4; 0; 2] ∅ Hnonneg Hzero)).
Defined.

Lemma update_cycle_leaves_settings_witness :
  updateSync exampleHost ZWNBSP shownWorld = Some (tt, reupdatedWorld)
  /\ updateScheduled (comp reupdatedWorld) = false
  /\ nextUpdatePromise (comp reupdatedWorld) = None
  /\ longestLineToMeasure (comp reupdatedWorld) = None
  /\ visible (comp reupdatedWorld) = visible (comp shownWorld)
  /\ focused (comp reupdatedWorld) = focused (comp shownWorld)
  /\ rowsPerTileProp (comp reupdatedWorld) = rowsPerTileProp (comp shownWorld)
  /\ sameMeasured (measurements (comp shownWorld))
       (measurements (comp reupdatedWorld))
  /\ is_Some (measurements (comp reupdatedWorld))
  /\ Forall (fun e => outsideCycle e = false)
       (newEvents shownWorld reupdatedWorld).
Proof.
  assert (Hrun : updateSync exampleHost ZWNBSP shownWorld
                 = Some (tt, reupdatedWorld)) by (vm_compute; reflexivity).
  split; [exact Hrun|].
  exact (update_cycle_leaves_settings exampleHost ZWNBSP shownWorld
           reupdatedWorld Hrun).
Defined.

Lemma scheduled_updates_coalesce_witness :
  updatedSynchronously (comp shownWorld) = false
  /\ exists w1,
       scheduleUpdate exampleHost ZWNBSP shownWorld = Some (tt, w1)
       /\ updateScheduled (comp w1) = true
       /\ newEvents shownWorld w1
          = (if updateScheduled (comp shownWorld) then []
             else [EvScheduleCallback])
       /\ scheduleUpdate exampleHost ZWNBSP w1 = Some (tt, w1)
       /\ (forall w2,
             scheduledUpdate exampleHost ZWNBSP w1 = Some (tt, w2) ->
             updateScheduled (comp w2) = false
             /\ length (filter (fun e => isCommit e = true) (newEvents w1 w2))
                = 2%nat
             /\ scheduledUpdate exampleHost ZWNBSP w2 = Some (tt, w2))
       /\ (forall w2,
             didScroll exampleHost ZWNBSP w1 = Some (tt, w2) ->
             scheduledUpdate exampleHost ZWNBSP w2 = Some (tt, w2)).
Proof.
  assert (Hsync : updatedSynchronously (comp shownWorld) = false)
    by (vm_compute; reflexivity).
  split; [exact Hsync|].
  exact (scheduled_updates_coalesce exampleHost ZWNBSP shownWorld Hsync).
Defined.

Lemma scroll_position_is_measured_before_the_cycle_witness :
  didScroll exampleHost ZWNBSP shownWorld = Some (tt, scrolledWorld)
  /\ getScrollTop (comp scrolledWorld)
     = Some (scrollerScrollTop exampleHost (ext shownWorld))
  /\ getScrollLeft (comp scrolledWorld)
     = Some (scrollerScrollLeft exampleHost (ext shownWorld))
  /\ updateScheduled (comp scrolledWorld) = false.
Proof.
  assert (Hrun : didScroll exampleHost ZWNBSP shownWorld
                 = Some (tt, scrolledWorld)) by (vm_compute; reflexivity).
  split; [exact Hrun|].
  destruct (scroll_position_is_measured_before_the_cycle exampleHost ZWNBSP
              shownWorld scrolledWorld Hrun)
    as (m & m' & _ & _ & Htop & Hleft & _ & _ & _ & Hu & _).
  split; [exact Htop|]. split; [exact Hleft|]. exact Hu.
Defined.

Lemma unmeasured_component_throws_witness :
  measurements (comp constructedWorld) = None
  /\ didScroll exampleHost ZWNBSP constructedWorld = None
  /\ didResize exampleHost ZWNBSP constructedWorld = None
  /\ updateSync exampleHost ZWNBSP constructedWorld = None
  /\ renderInputPosition exampleHost constructedWorld = None
  /\ getScrollTop (comp constructedWorld) = None.
Proof.
  assert (Hnone : measurements (comp constructedWorld) = None)
    by (vm_compute; reflexivity).
  split; [exact Hnone|].
  destruct (unmeasured_component_throws exampleHost ZWNBSP constructedWorld
              Hnone) as (Hscroll & Hresize & Hupdate & _ & Hinput & Htop & _).
  split; [exact Hscroll|]. split; [exact Hresize|]. split; [exact Hupdate|].
  split; [exact Hinput|]. exact Htop.
Defined.

Lemma showing_measures_once_witness :
  didShow exampleHost ZWNBSP constructedWorld
  = Some (tt, worldAfter (didShow exampleHost ZWNBSP) constructedWorld)
  /\ visible (comp (worldAfter (didShow exampleHost ZWNBSP) constructedWorld))
     = true
  /\ didShow exampleHost ZWNBSP
       (worldAfter (didShow exampleHost ZWNBSP) constructedWorld)
     = Some (tt, worldAfter (didShow exampleHost ZWNBSP) constructedWorld).
Proof.
  assert (Hrun : didShow exampleHost ZWNBSP constructedWorld
                 = Some (tt, worldAfter (didShow exampleHost ZWNBSP)
                               constructedWorld))
    by (vm_compute; reflexivity).
  split; [exact Hrun|].
  destruct (showing_measures_once exampleHost ZWNBSP constructedWorld _ Hrun)
    as (Hv & Hagain & _).
  split; [exact Hv|exact Hagain].
Defined.

Lemma resize_schedules_only_on_change_witness :
  updatedSynchronously (comp shownWorld) = false
  /\ didResize exampleHost ZWNBSP shownWorld = Some (tt, resizedWorld)
  /\ exists m',
       measurements (comp resizedWorld) = Some m'
       /\ (scrollerHeight m'
           == scrollerOffsetHeight exampleHost (ext shownWorld))%Q
       /\ (scrollerWidth m'
           == scrollerOffsetWidth exampleHost (ext shownWorld))%Q.
Proof.
  assert (Hsync : updatedSynchronously (comp shownWorld) = false)
    by (vm_compute; reflexivity).
  assert (Hrun : didResize exampleHost ZWNBSP shownWorld
                 = Some (tt, resizedWorld)) by (vm_compute; reflexivity).
  split; [exact Hsync|]. split; [exact Hrun|].
  destruct (resize_schedules_only_on_change exampleHost ZWNBSP shownWorld
              resizedWorld Hsync Hrun)
    as (m & m' & _ & Hm' & Hh & Hw & _).
  exists m'. split; [exact Hm'|]. split; [exact Hh|exact Hw].
Defined.

Lemma hidden_input_stays_in_the_viewport_witness :
  measurements (comp focusedWorld) = Some shownMeasurements
  /\ (lineHeight shownMeasurements <= scrollerHeight shownMeasurements)%Q
  /\ (0 <= scrollerWidth shownMeasurements)%Q
  /\ renderInputPosition exampleHost focusedWorld
     = Some ((40%Q, Some 8%Q), focusedWorld)
  /\ (scrollTop shownMeasurements <= 40)%Q
  /\ (40 <= scrollTop shownMeasurements + scrollerHeight shownMeasurements
            - lineHeight shownMeasurements)%Q
  /\ (scrollLeft shownMeasurements <= 8)%Q
  /\ (8 <= scrollLeft shownMeasurements + scrollerWidth shownMeasurements)%Q.
Proof.
  assert (Hm : measurements (comp focusedWorld) = Some shownMeasurements)
    by (vm_compute; reflexivity).
  assert (Hline : (lineHeight shownMeasurements
                   <= scrollerHeight shownMeasurements)%Q)
    by (vm_compute; discriminate).
  assert (Hwidth : (0 <= scrollerWidth shownMeasurements)%Q)
    by (vm_compute; discriminate).
  assert (Hrun : renderInputPosition exampleHost focusedWorld
                 = Some ((40%Q, Some 8%Q), focusedWorld))
    by (vm_compute; reflexivity).
  split; [exact Hm|]. split; [exact Hline|]. split; [exact Hwidth|].
  split; [exact Hrun|].
  destruct (hidden_input_stays_in_the_viewport exampleHost focusedWorld
              focusedWorld shownMeasurements 40 8 Hm Hline Hwidth Hrun)
    as (_ & H1 & H2 & H3 & H4 & _).
  split; [exact H1|]. split; [exact H2|]. split; [exact H3|exact H4].
Defined.

Lemma reachable_states_are_consistent_witness :
  Reachable exampleHost ZWNBSP firstShownWorld
  /\ consistent firstShownWorld.
Proof.
  assert (Hnew : constructed exampleHost ZWNBSP (Some 6) 0
                 = Some (tt, constructedWorld)) by (vm_compute; reflexivity).
  assert (Hshow : perform exampleHost ZWNBSP DidShow constructedWorld
                  = Some (tt, firstShownWorld)) by (vm_compute; reflexivity).
  assert (Hreach : Reachable exampleHost ZWNBSP firstShownWorld).
  { apply (reachable_step exampleHost ZWNBSP DidShow constructedWorld);
      [|exact Hshow].
    apply (reachable_constructed exampleHost ZWNBSP (Some 6) 0). exact Hnew. }
  split; [exact Hreach|].
  exact (reachable_states_are_consistent exampleHost ZWNBSP firstShownWorld
           Hreach).
Defined.


Lemma destroy_unregisters_by_id_witness :
  id editedLine = id (exampleLine 1)
  /\ applyPatchOp exampleHost ZWNBSP (Construct editedLine) newWorld
     = Some (tt, rebuiltWorld)
  /\ is_Some (textNodesByScreenLineId (comp rebuiltWorld) !! id editedLine)
  /\ exists w2,
       applyPatchOp exampleHost ZWNBSP (Destroy (exampleLine 1)) rebuiltWorld
       = Some (tt, w2)
       /\ textNodesByScreenLineId (comp w2) !! id editedLine = None.
Proof.
  assert (Hid : id editedLine = id (exampleLine 1)) by reflexivity.
  assert (Hbuild :
    applyPatchOp exampleHost ZWNBSP (Construct editedLine) newWorld
    = Some (tt, rebuiltWorld)) by (vm_compute; reflexivity).
  split; [exact Hid|]. split; [exact Hbuild|].
  destruct (destroy_unregisters_by_id exampleHost ZWNBSP newWorld rebuiltWorld
              (exampleLine 1) editedLine Hid Hbuild)
    as (_ & Hreg & w2 & Hdestroy & _ & Hgone & _).
  split; [exact Hreg|]. exists w2. split; [exact Hdestroy|exact Hgone].
Defined.

Lemma commits_show_old_then_new_cursors_witness :
  updateSync exampleHost ZWNBSP shownWorld = Some (tt, reupdatedWorld)
  /\ exists tiles1 tiles2,
       filter (fun e => isCommit e = true) (newEvents shownWorld reupdatedWorld)
       = [EvCommit tiles1 (cursorsToRender (comp shownWorld));
          EvCommit tiles2 (cursorsToRender (comp reupdatedWorld))].
Proof.
  assert (Hrun : updateSync exampleHost ZWNBSP shownWorld
                 = Some (tt, reupdatedWorld)) by (vm_compute; reflexivity).
  split; [exact Hrun|].
  exact (commits_show_old_then_new_cursors exampleHost ZWNBSP shownWorld
           reupdatedWorld Hrun).
Defined.

End OnTheExample.
